(** * Agent blueprint: the four LangGraph patterns of [agent_blueprint.py]

    A shallow embedding of the node step functions, the routers and the
    graph wiring of the four agent patterns (ReAct, Plan-Execute,
    Self-Reflection, Adaptive Multi-Agent), followed by the properties
    proved about them.

    Conventions.
    - Python [int] is [Z]; Python [float] is IEEE binary64, the kernel's
      primitive [float]; Python [str] is [string] (8-bit characters).
    - A Python exception is [None] in an [option] result, or an [Error]
      value where the kind of failure matters.
    - The language model is an external collaborator.  A run consumes its
      replies in order, so a run is determined by the sequence of replies:
      [llm k] is the reply to the k-th call of the plain model and
      [llm_with_tools k] the reply to the k-th call of the model bound to
      the tool catalogue.  The prompt text that a node assembles does not
      flow back into the node's result and is left out; every index or
      lookup the node performs while assembling it is kept, since it can
      raise.
    - The graph engine (langgraph) is a library and not part of the
      repository.  Its reducer, its step loop and its tool node are
      modelled from the spec; the graphs they run are the source's:
      the nodes, the routers, and the wiring of [add_node], [add_edge] and
      [add_conditional_edges]. *)

From Stdlib Require Import Uint63 PrimFloat ZArith String Ascii List Lia Bool.
From Stdlib Require FloatAxioms SpecFloat.
From stdpp Require Import gmap strings list pretty sorting.

Local Open Scope string_scope.
Set Warnings "-clear-no-such-hyp".

(** ** Python primitives used by the source *)

Module Py.

(** [l[i]] with Python's negative indices; [None] is [IndexError]. *)
Definition index {A : Type} (l : list A) (i : Z) : option A :=
  let n := Z.of_nat (length l) in
  if (0 <=? i)%Z then l !! Z.to_nat i
  else if (- n <=? i)%Z then l !! Z.to_nat (n + i)
  else None.

(** [c.isspace()] on the ASCII range. *)
Definition isspace (c : ascii) : bool :=
  let n := nat_of_ascii c in
  ((9 <=? n) && (n <=? 13) || (28 <=? n) && (n <=? 32))%nat.

(** [c.isdigit()] on the ASCII range. *)
Definition isdigit (c : ascii) : bool :=
  let n := nat_of_ascii c in ((48 <=? n) && (n <=? 57))%nat.

Definition lower_char (c : ascii) : ascii :=
  let n := nat_of_ascii c in
  if ((65 <=? n) && (n <=? 90))%nat then ascii_of_nat (n + 32) else c.

(** [s.lower()] *)
Fixpoint lower (s : string) : string :=
  match s with
  | EmptyString => EmptyString
  | String c s' => String (lower_char c) (lower s')
  end.

Fixpoint lstrip (s : string) : string :=
  match s with
  | EmptyString => EmptyString
  | String c s' => if isspace c then lstrip s' else s
  end.

Fixpoint rstrip (s : string) : string :=
  match s with
  | EmptyString => EmptyString
  | String c s' =>
      match rstrip s' with
      | EmptyString => if isspace c then EmptyString else String c EmptyString
      | r => String c r
      end
  end.

(** [s.strip()] *)
Definition strip (s : string) : string := rstrip (lstrip s).

(** [sub in s] for strings. *)
Fixpoint contains (sub s : string) : bool :=
  String.prefix sub s ||
  match s with
  | EmptyString => false
  | String _ s' => contains sub s'
  end.

Definition string_of_rev (cur : list ascii) : string :=
  string_of_list_ascii (rev cur).

(** The scan behind [s.split(sep)] for a non-empty [sep]: [skip] counts the
    characters of a matched separator still to be dropped, [cur] holds the
    current piece, last character first. *)
Fixpoint split_go (sep : string) (skip : nat) (cur : list ascii) (s : string)
  : list string :=
  match s with
  | EmptyString => [string_of_rev cur]
  | String c s' =>
      match skip with
      | S k => split_go sep k cur s'
      | O =>
          if String.prefix sep s
          then string_of_rev cur :: split_go sep (String.length sep - 1) [] s'
          else split_go sep 0 (c :: cur) s'
      end
  end.

(** [s.split(sep)]; Python raises [ValueError] for an empty separator. *)
Definition split (sep s : string) : option (list string) :=
  match sep with
  | EmptyString => None
  | _ => Some (split_go sep 0 [] s)
  end.

Definition newline : string := String (ascii_of_nat 10) EmptyString.

(** [s[0].isdigit()]; the source evaluates it on non-empty lines only. *)
Definition first_isdigit (s : string) : bool :=
  match s with
  | EmptyString => false
  | String c _ => isdigit c
  end.

(** [x in l] for a list of strings. *)
Definition mem (x : string) (l : list string) : bool :=
  existsb (String.eqb x) l.

(** Truthiness of a string. *)
Definition truthy (s : string) : bool :=
  match s with EmptyString => false | _ => true end.

(** [x >= y] on floats (false when either side is not a number). *)
Definition float_ge (x y : float) : bool := PrimFloat.leb y x.

End Py.

(** ** Messages *)

Record ToolCall := mkToolCall {
  tc_name : string;
  tc_args : string;
  tc_id : string
}.

(** The message classes of langchain_core that the source builds or
    receives.  Only [AIMessage] has a [tool_calls] attribute. *)
Inductive Message :=
| SystemMessage (content : string)
| HumanMessage (content : string)
| AIMessage (content : string) (tool_calls : list ToolCall)
| ToolMessage (content : string) (tool_call_id : string).

Definition content (m : Message) : string :=
  match m with
  | SystemMessage c | HumanMessage c | AIMessage c _ | ToolMessage c _ => c
  end.

(** [hasattr(m, "tool_calls") and m.tool_calls], as a truth value. *)
Definition has_tool_calls (m : Message) : bool :=
  match m with
  | AIMessage _ (_ :: _) => true
  | _ => false
  end.

(** A reply of the model bound to the tool catalogue: text, and zero or
    more tool-invocation requests. *)
Record Reply := mkReply {
  r_content : string;
  r_tool_calls : list ToolCall
}.

Definition response_of (r : Reply) : Message :=
  AIMessage (r_content r) (r_tool_calls r).

(** The collaborators of a run.  [llm] has no tool catalogue, so its reply
    is text only.  [float_of_string] is Python's [float(str)], [None] when
    it raises [ValueError].  [random_uniform] stands for the draws of
    [np.random.uniform]. *)
Record World := mkWorld {
  llm : nat -> string;
  llm_with_tools : nat -> Reply;
  invoke_tool : ToolCall -> string;
  float_of_string : string -> option float;
  random_uniform : nat -> float
}.

(** The tool-bound model never asks for a tool. *)
Definition no_tool_requests (W : World) : Prop :=
  forall k, r_tool_calls (llm_with_tools W k) = [].

(** ** Effects of a node

    A node's step function reads the state it is given, may call the
    models, and may mutate the Python objects that the state refers to.
    [Store] is what these effects act on. *)

(** Mutable Python objects held by reference: a [list] of strings and a
    [dict] from strings to strings. *)
Inductive Obj :=
| OList (l : list string)
| ODict (d : gmap string string).

Definition Loc := nat.

Record Store := mkStore {
  calls_llm : nat;        (* calls of the plain model made so far *)
  calls_llm_tools : nat;  (* calls of the tool-bound model made so far *)
  heap : list Obj         (* the objects allocated so far, by address *)
}.

Definition Eff (A : Type) : Type := World -> Store -> option (A * Store).

Definition eff_ret {A : Type} (a : A) : Eff A := fun _ σ => Some (a, σ).

Definition eff_bind {A B : Type} (m : Eff A) (f : A -> Eff B) : Eff B :=
  fun W σ =>
    match m W σ with
    | Some (a, σ') => f a W σ'
    | None => None
    end.

(** [raise]: the node stops with an exception. *)
Definition raise {A : Type} : Eff A := fun _ _ => None.

Definition lift {A : Type} (o : option A) : Eff A :=
  fun _ σ => match o with Some a => Some (a, σ) | None => None end.

#[global] Instance eff_mret : MRet Eff := @eff_ret.
#[global] Instance eff_mbind : MBind Eff := fun A B f m => eff_bind m f.

(** [llm.invoke(messages)] *)
Definition llm_invoke : Eff Message :=
  fun W σ =>
    Some (AIMessage (llm W (calls_llm σ)) [],
          mkStore (S (calls_llm σ)) (calls_llm_tools σ) (heap σ)).

(** [llm_with_tools.invoke(messages)] *)
Definition llm_with_tools_invoke : Eff Message :=
  fun W σ =>
    Some (response_of (llm_with_tools W (calls_llm_tools σ)),
          mkStore (calls_llm σ) (S (calls_llm_tools σ)) (heap σ)).

(** The collaborators, for a node that calls one directly. *)
Definition world : Eff World := fun W σ => Some (W, σ).

Definition store : Eff Store := fun _ σ => Some (σ, σ).

(** A fresh object; its address is the next free one. *)
Definition alloc (o : Obj) : Eff Loc :=
  fun _ σ =>
    Some (length (heap σ),
          mkStore (calls_llm σ) (calls_llm_tools σ) (heap σ ++ [o])).

Definition deref (h : list Obj) (l : Loc) : option Obj := h !! l.

(** [lst.append(x)] on the object at [l]; raises when it is no list. *)
Definition list_append (l : Loc) (x : string) : Eff unit :=
  fun _ σ =>
    match deref (heap σ) l with
    | Some (OList xs) =>
        Some (tt, mkStore (calls_llm σ) (calls_llm_tools σ)
                          (<[l := OList (xs ++ [x])]> (heap σ)))
    | _ => None
    end.

(** [d[k] = v] on the object at [l]; raises when it is no dict. *)
Definition dict_setitem (l : Loc) (k v : string) : Eff unit :=
  fun _ σ =>
    match deref (heap σ) l with
    | Some (ODict d) =>
        Some (tt, mkStore (calls_llm σ) (calls_llm_tools σ)
                          (<[l := ODict (<[k := v]> d)]> (heap σ)))
    | _ => None
    end.

(** Modelled from the spec: the tool dispatcher of section 4.3, which in
    the source is the engine's [ToolNode(tools)].  It answers the requests
    of the last message with one [ToolMessage] each, in request order,
    tagged with the request's id, and raises when the last message carries
    no request. *)
Definition tool_node (messages : list Message) : Eff (list Message) :=
  fun W σ =>
    match Py.index messages (-1) with
    | Some (AIMessage _ (tc :: tcs)) =>
        Some (map (fun c => ToolMessage (invoke_tool W c) (tc_id c)) (tc :: tcs),
              σ)
    | _ => None
    end.

(** ** The step loop of a compiled graph *)

Inductive Error :=
| NodeRaised                 (* a node's step function raised *)
| RouterRaised               (* a router raised *)
| InvalidRoute (r : string). (* the router's result is no key of the path map *)

Inductive Dest (Node : Type) :=
| Goto (n : Node)
| END.
Arguments Goto {Node} n.
Arguments END {Node}.

(** The mapping given to [add_conditional_edges], as the dict literal lists
    it. *)
Fixpoint path_lookup {Node : Type} (path_map : list (string * Dest Node))
  (r : string) : option (Dest Node) :=
  match path_map with
  | [] => None
  | (k, d) :: rest => if String.eqb k r then Some d else path_lookup rest r
  end.

(** Modelled from the spec: router resolution, section 4.2, which the
    source leaves to the graph engine.  A router result that is no key of
    the path map does not route anywhere: the run fails. *)
Definition resolve {Node : Type} (path_map : list (string * Dest Node))
  (r : option string) : Error + Dest Node :=
  match r with
  | None => inl RouterRaised
  | Some r =>
      match path_lookup path_map r with
      | Some d => inr d
      | None => inl (InvalidRoute r)
      end
  end.

Inductive Outcome (Cfg : Type) :=
| Terminated (c : Cfg)
| StepBudgetExceeded (c : Cfg)
| Aborted (e : Error) (c : Cfg).
Arguments Terminated {Cfg} c.
Arguments StepBudgetExceeded {Cfg} c.
Arguments Aborted {Cfg} e c.

(** The configuration an outcome carries. *)
Definition outcome_cfg {Cfg : Type} (o : Outcome Cfg) : Cfg :=
  match o with
  | Terminated c | StepBudgetExceeded c | Aborted _ c => c
  end.

Section Executor.
Context {Node Cfg : Type}.
(** [exec n c]: run node [n] on [c] and apply its partial update. *)
Variable exec : Node -> Cfg -> option Cfg.
(** [next n c]: the fixed edge out of [n], or its router and path map. *)
Variable next : Node -> Cfg -> Error + Dest Node.

(** Modelled from the spec: the step loop of section 4.4, which the source
    leaves to the graph engine.  A step runs the current node and applies
    its partial update ([exec]), then takes the node's fixed edge or asks
    its router ([next]); the terminal marker ends the run, and [budget] is
    the hard step ceiling.  Suspension for tools is no rule of the loop: in
    the source it is the routers' ["tools"] answer and the edge out of the
    tools node.  The result lists the nodes executed, each with the
    configuration it ran on, and gives the outcome. *)
Fixpoint run (budget : nat) (n : Node) (c : Cfg)
  : list (Node * Cfg) * Outcome Cfg :=
  match budget with
  | O => ([], StepBudgetExceeded c)
  | S b =>
      match exec n c with
      | None => ([(n, c)], Aborted NodeRaised c)
      | Some c' =>
          match next n c' with
          | inl e => ([(n, c)], Aborted e c')
          | inr END => ([(n, c)], Terminated c')
          | inr (Goto n') =>
              let (tr, o) := run b n' c' in ((n, c) :: tr, o)
          end
      end
  end.

(** One transition of the loop. *)
Definition step (a b : Node * Cfg) : Prop :=
  exec (fst a) (snd a) = Some (snd b) /\
  next (fst a) (snd b) = inr (Goto (fst b)).

(** Consecutive entries of a list are related by [R]. *)
Fixpoint chain {A : Type} (R : A -> A -> Prop) (l : list A) : Prop :=
  match l with
  | a :: (b :: _) as l' => R a b /\ chain R l'
  | _ => True
  end.
End Executor.

(** A configuration of a run: the graph state and the store. *)
Abbreviation Cfg S := (S * Store)%type.

Definition store0 : Store := mkStore 0 0 [].

(** Modelled from the spec: step 1 of section 4.4.  Runs a node's step
    function on [c] and applies the partial update it returns with the
    state's reducer [apply]. *)
Definition exec_node {S U : Type} (apply : S -> U -> S) (W : World)
  (node : S -> Eff U) (c : Cfg S) : option (Cfg S) :=
  match node (fst c) W (snd c) with
  | Some (u, σ') => Some (apply (fst c) u, σ')
  | None => None
  end.

(** ** Pattern 1: ReAct *)

Module ReAct.

Record ReActState := mkState {
  messages : list Message;
  iteration : Z;
  max_iterations : Z
}.

(** A partial update: the keys a node returns. *)
Record Update := mkUpdate {
  u_messages : option (list Message);
  u_iteration : option Z;
  u_max_iterations : option Z
}.

(** Modelled from the spec: the reducer of section 4.1 at the policies
    that [ReActState] declares.  [messages] is annotated with
    [operator.add]; the other keys are overwritten. *)
Definition apply (s : ReActState) (u : Update) : ReActState :=
  {| messages := messages s ++ default [] (u_messages u);
     iteration := default (iteration s) (u_iteration u);
     max_iterations := default (max_iterations s) (u_max_iterations u) |}.

Definition reasoning_node (state : ReActState) : Eff Update :=
  response ← llm_with_tools_invoke;
  mret {| u_messages := Some [response];
             u_iteration := Some (iteration state + 1)%Z;
             u_max_iterations := None |}.

Definition should_continue (state : ReActState) : option string :=
  last_message ← Py.index (messages state) (-1);
  if (max_iterations state <=? iteration state)%Z then Some "end"
  else if has_tool_calls last_message then Some "tools"
  else Some "end".

Inductive Node := Reasoning | Tools.

Definition tools (state : ReActState) : Eff Update :=
  out ← tool_node (messages state);
  mret {| u_messages := Some out; u_iteration := None;
             u_max_iterations := None |}.

Definition node_fn (n : Node) : ReActState -> Eff Update :=
  match n with
  | Reasoning => reasoning_node
  | Tools => tools
  end.

Definition exec (W : World) (n : Node) : Cfg ReActState -> option (Cfg ReActState) :=
  exec_node apply W (node_fn n).

Definition next (n : Node) (c : Cfg ReActState) : Error + Dest Node :=
  match n with
  | Reasoning =>
      resolve [("tools", Goto Tools); ("end", END)] (should_continue (fst c))
  | Tools => inr (Goto Reasoning)
  end.

(** [workflow.add_edge(START, "reasoning")] *)
Definition invoke (W : World) (budget : nat) (s : ReActState) :=
  run (exec W) next budget Reasoning (s, store0).

(** A tool-invocation request is pending on the last message. *)
Definition pending (state : ReActState) : bool :=
  from_option has_tool_calls false (Py.index (messages state) (-1)).

(** The initial state that [invoke_agent] builds for this pattern. *)
Definition initial_state (query : string) (max_iterations : Z) : ReActState :=
  {| messages := [HumanMessage query];
     iteration := 0;
     max_iterations := max_iterations |}.

Definition is_reasoning (n : Node) : bool :=
  match n with Reasoning => true | Tools => false end.

(** How often the reasoning node ran, given the nodes of a trace. *)
Definition reasoning_runs (nodes : list Node) : nat :=
  length (List.filter is_reasoning nodes).

End ReAct.

(** ** Pattern 2: Plan-Execute *)

Module PlanExecute.

Record PlanExecuteState := mkState {
  messages : list Message;
  plan : list string;
  completed_steps : list string;
  current_step : Z;
  results : gmap string string
}.

Record Update := mkUpdate {
  u_messages : option (list Message);
  u_plan : option (list string);
  u_completed_steps : option (list string);
  u_current_step : option Z;
  u_results : option (gmap string string)
}.

(** Modelled from the spec: the reducer of section 4.1 at the policies
    that [PlanExecuteState] declares: [messages] appends, the other keys
    are overwritten. *)
Definition apply (s : PlanExecuteState) (u : Update) : PlanExecuteState :=
  {| messages := messages s ++ default [] (u_messages u);
     plan := default (plan s) (u_plan u);
     completed_steps := default (completed_steps s) (u_completed_steps u);
     current_step := default (current_step s) (u_current_step u);
     results := default (results s) (u_results u) |}.

(** [[line.strip() for line in plan_text.split('\n')
      if line.strip() and line[0].isdigit()]] *)
Definition parse_plan (plan_text : string) : option (list string) :=
  lines ← Py.split Py.newline plan_text;
  Some (map Py.strip
          (List.filter
             (fun line => Py.truthy (Py.strip line) && Py.first_isdigit line)
             lines)).

Definition planner_node (state : PlanExecuteState) : Eff Update :=
  response ← llm_invoke;
  let plan_text := content response in
  plan_steps ← lift (parse_plan plan_text);
  mret {| u_plan := Some plan_steps;
          u_current_step := Some 0%Z;
          u_results := Some ∅;
          u_messages :=
            Some [AIMessage ("Created plan with " ++ pretty (length plan_steps)
                             ++ " steps") []];
          u_completed_steps := None |}.

Definition executor_node (state : PlanExecuteState) : Eff Update :=
  let current_step := current_step state in
  if (Z.of_nat (length (plan state)) <=? current_step)%Z
  then mret {| u_messages := Some [AIMessage "All steps completed" []];
               u_plan := None; u_completed_steps := None;
               u_current_step := None; u_results := None |}
  else
    step_description ← lift (Py.index (plan state) current_step);
    response ← llm_with_tools_invoke;
    mret {| u_messages := Some [response];
            u_current_step := Some (current_step + 1)%Z;
            u_plan := None; u_completed_steps := None; u_results := None |}.

Definition should_continue (state : PlanExecuteState) : option string :=
  last_message ← Py.index (messages state) (-1);
  if has_tool_calls last_message then Some "tools"
  else if (Z.of_nat (length (plan state)) <=? current_step state)%Z
       then Some "synthesize"
       else Some "execute".

Definition synthesizer_node (state : PlanExecuteState) : Eff Update :=
  response ← llm_invoke;
  mret {| u_messages := Some [response];
          u_plan := None; u_completed_steps := None;
          u_current_step := None; u_results := None |}.

Definition tools (state : PlanExecuteState) : Eff Update :=
  out ← tool_node (messages state);
  mret {| u_messages := Some out;
          u_plan := None; u_completed_steps := None;
          u_current_step := None; u_results := None |}.

Inductive Node := Planner | Executor | Tools | Synthesizer.

Definition node_fn (n : Node) : PlanExecuteState -> Eff Update :=
  match n with
  | Planner => planner_node
  | Executor => executor_node
  | Tools => tools
  | Synthesizer => synthesizer_node
  end.

Definition exec (W : World) (n : Node)
  : Cfg PlanExecuteState -> option (Cfg PlanExecuteState) :=
  exec_node apply W (node_fn n).

Definition next (n : Node) (c : Cfg PlanExecuteState) : Error + Dest Node :=
  match n with
  | Planner => inr (Goto Executor)
  | Executor =>
      resolve [("execute", Goto Executor); ("tools", Goto Tools);
               ("synthesize", Goto Synthesizer)]
              (should_continue (fst c))
  | Tools => inr (Goto Executor)
  | Synthesizer => inr END
  end.

(** The initial state that [invoke_agent] builds for this pattern. *)
Definition initial_state (query : string) : PlanExecuteState :=
  {| messages := [HumanMessage query];
     plan := [];
     completed_steps := [];
     current_step := 0;
     results := ∅ |}.

(** [workflow.add_edge(START, "planner")] *)
Definition invoke (W : World) (budget : nat) (s : PlanExecuteState) :=
  run (exec W) next budget Planner (s, store0).

(** The plan indices that the trace's executor runs worked on. *)
Definition executed_steps (tr : list (Node * Cfg PlanExecuteState)) : list Z :=
  omap (fun e =>
          match e with
          | (Executor, (s, _)) =>
              if (current_step s <? Z.of_nat (length (plan s)))%Z
              then Some (current_step s) else None
          | _ => None
          end) tr.

(** Executor runs that do not directly follow a run of the tools node. *)
Fixpoint fresh_executor_runs (after_tools : bool)
  (tr : list (Node * Cfg PlanExecuteState)) : nat :=
  match tr with
  | [] => 0
  | (Executor, _) :: tr' =>
      (if after_tools then 0 else 1) + fresh_executor_runs false tr'
  | (Tools, _) :: tr' => fresh_executor_runs true tr'
  | _ :: tr' => fresh_executor_runs false tr'
  end.

(** The value of [current_step] that each synthesizer run of the trace
    found. *)
Definition synthesizer_inputs (tr : list (Node * Cfg PlanExecuteState))
  : list Z :=
  omap (fun e =>
          match e with
          | (Synthesizer, (s, _)) => Some (current_step s)
          | _ => None
          end) tr.

End PlanExecute.

(** ** Pattern 3: Self-Reflection *)

Module Reflection.

Record ReflectionState := mkState {
  messages : list Message;
  draft : string;
  critique : string;
  iteration : Z;
  max_iterations : Z;
  quality_score : float
}.

Record Update := mkUpdate {
  u_messages : option (list Message);
  u_draft : option string;
  u_critique : option string;
  u_iteration : option Z;
  u_max_iterations : option Z;
  u_quality_score : option float
}.

(** Modelled from the spec: the reducer of section 4.1 at the policies
    that [ReflectionState] declares: [messages] appends, the other keys
    are overwritten. *)
Definition apply (s : ReflectionState) (u : Update) : ReflectionState :=
  {| messages := messages s ++ default [] (u_messages u);
     draft := default (draft s) (u_draft u);
     critique := default (critique s) (u_critique u);
     iteration := default (iteration s) (u_iteration u);
     max_iterations := default (max_iterations s) (u_max_iterations u);
     quality_score := default (quality_score s) (u_quality_score u) |}.

Definition generator_node (state : ReflectionState) : Eff Update :=
  response ← llm_with_tools_invoke;
  mret {| u_messages := Some [response];
          u_iteration := Some (iteration state + 1)%Z;
          u_draft := None; u_critique := None;
          u_max_iterations := None; u_quality_score := None |}.

Definition default_score : float := 7.5%float.
Definition quality_threshold : float := 8.5%float.

(** The body of the [try] block:
    [float(content.split("SCORE:")[1].split("/")[0].strip())];
    [None] when any step of it raises. *)
Definition extract_score (W : World) (content : string) : option float :=
  parts ← Py.split "SCORE:" content;
  after ← Py.index parts 1;
  pieces ← Py.split "/" after;
  first ← Py.index pieces 0;
  float_of_string W (Py.strip first).

(** [score = 7.5], then the guarded [try ... except: pass]. *)
Definition parse_score (W : World) (content : string) : float :=
  let score := default_score in
  if Py.contains "SCORE:" content
  then match extract_score W content with
       | Some score' => score'
       | None => score
       end
  else score.

Definition critic_node (state : ReflectionState) : Eff Update :=
  last_message ← lift (Py.index (messages state) (-1));
  response ← llm_invoke;
  W ← world;
  let content := content response in
  let score := parse_score W content in
  mret {| u_critique := Some content;
          u_quality_score := Some score;
          u_messages := Some [response];
          u_draft := None; u_iteration := None; u_max_iterations := None |}.

Definition should_continue (state : ReflectionState) : option string :=
  last_message ← Py.index (messages state) (-1);
  if has_tool_calls last_message then Some "tools"
  else if Py.float_ge (quality_score state) quality_threshold
          || (max_iterations state <=? iteration state)%Z
       then Some "end"
       else Some "generate".

Definition tools (state : ReflectionState) : Eff Update :=
  out ← tool_node (messages state);
  mret {| u_messages := Some out;
          u_draft := None; u_critique := None; u_iteration := None;
          u_max_iterations := None; u_quality_score := None |}.

Inductive Node := Generator | Critic | Tools.

Definition node_fn (n : Node) : ReflectionState -> Eff Update :=
  match n with
  | Generator => generator_node
  | Critic => critic_node
  | Tools => tools
  end.

Definition exec (W : World) (n : Node)
  : Cfg ReflectionState -> option (Cfg ReflectionState) :=
  exec_node apply W (node_fn n).

Definition next (n : Node) (c : Cfg ReflectionState) : Error + Dest Node :=
  match n with
  | Generator =>
      resolve [("generate", Goto Critic); ("tools", Goto Tools); ("end", END)]
              (should_continue (fst c))
  | Tools => inr (Goto Generator)
  | Critic => inr (Goto Generator)
  end.

(** The initial state that [invoke_agent] builds for this pattern. *)
Definition initial_state (query : string) (max_iterations : Z)
  : ReflectionState :=
  {| messages := [HumanMessage query];
     draft := "";
     critique := "";
     iteration := 0;
     max_iterations := max_iterations;
     quality_score := 0%float |}.

(** [workflow.add_edge(START, "generator")] *)
Definition invoke (W : World) (budget : nat) (s : ReflectionState) :=
  run (exec W) next budget Generator (s, store0).

Definition node_eqb (a b : Node) : bool :=
  match a, b with
  | Generator, Generator | Critic, Critic | Tools, Tools => true
  | _, _ => false
  end.

(** How often node [n] ran, given the nodes of a trace in order. *)
Definition runs_of (n : Node) (nodes : list Node) : nat :=
  length (List.filter (node_eqb n) nodes).

(** A generate-then-critique cycle is a run of the generator directly
    followed by a run of the critic. *)
Fixpoint cycles (nodes : list Node) : nat :=
  match nodes with
  | Generator :: ((Critic :: _) as rest) => S (cycles rest)
  | _ :: rest => cycles rest
  | [] => 0
  end.

(** [k] generate-then-critique cycles and a last run of the generator. *)
Fixpoint alternating (k : nat) : list Node :=
  match k with
  | O => [Generator]
  | S k' => Generator :: Critic :: alternating k'
  end.

End Reflection.

(** ** Pattern 4: Adaptive Multi-Agent *)

Module MultiAgent.

(** The caller may leave keys out ([stream_agent] passes [messages] only),
    and the nodes read the others with [state.get]; [completed_agents] and
    [findings] hold references to a list and a dict. *)
Record MultiAgentState := mkState {
  messages : list Message;
  next_agent : option string;
  completed_agents : option Loc;
  findings : option Loc;
  confidence : option float
}.

Record Update := mkUpdate {
  u_messages : option (list Message);
  u_next_agent : option string;
  u_completed_agents : option Loc;
  u_findings : option Loc;
  u_confidence : option float
}.

(** Modelled from the spec: the reducer of section 4.1 at the policies
    that [MultiAgentState] declares: [messages] appends, the other keys are
    overwritten, a reference by the reference the node returns. *)
Definition apply (s : MultiAgentState) (u : Update) : MultiAgentState :=
  {| messages := messages s ++ default [] (u_messages u);
     next_agent := from_option Some (next_agent s) (u_next_agent u);
     completed_agents :=
       from_option Some (completed_agents s) (u_completed_agents u);
     findings := from_option Some (findings s) (u_findings u);
     confidence := from_option Some (confidence s) (u_confidence u) |}.

(** [state.get(key, default)] for a key that holds a reference: the object
    in the state, or else a freshly built default. *)
Definition get_or (field : option Loc) (dflt : Obj) : Eff Loc :=
  match field with
  | Some l => mret l
  | None => alloc dflt
  end.

(** Reading a dict ([d.items()]); raises when the object is no dict. *)
Definition dict_items (l : Loc) : Eff (gmap string string) :=
  fun _ σ =>
    match deref (heap σ) l with
    | Some (ODict d) => Some (d, σ)
    | _ => None
    end.

Definition valid_agents : list string :=
  ["data_collector"; "technical_analyst"; "research_analyst";
   "risk_assessor"; "synthesizer"].

Definition supervisor_node (state : MultiAgentState) : Eff Update :=
  completed ← get_or (completed_agents state) (OList []);
  fs ← get_or (findings state) (ODict ∅);
  findings_summary ← dict_items fs;
  response ← llm_invoke;
  let next_agent := Py.lower (Py.strip (content response)) in
  let next_agent :=
    if negb (Py.mem next_agent valid_agents) then "data_collector"
    else next_agent in
  mret {| u_next_agent := Some next_agent;
          u_messages := Some [response];
          u_completed_agents := None; u_findings := None;
          u_confidence := None |}.

Definition data_collector_node (state : MultiAgentState) : Eff Update :=
  response ← llm_with_tools_invoke;
  completed ← get_or (completed_agents state) (OList []);
  _ ← list_append completed "data_collector";
  findings ← get_or (findings state) (ODict ∅);
  _ ← dict_setitem findings "data_collection" "Stock data gathered";
  mret {| u_messages := Some [response];
          u_completed_agents := Some completed;
          u_findings := Some findings;
          u_next_agent := None; u_confidence := None |}.

Definition technical_analyst_node (state : MultiAgentState) : Eff Update :=
  response ← llm_invoke;
  completed ← get_or (completed_agents state) (OList []);
  _ ← list_append completed "technical_analyst";
  findings ← get_or (findings state) (ODict ∅);
  _ ← dict_setitem findings "technical_analysis" "Pattern analysis complete";
  mret {| u_messages := Some [response];
          u_completed_agents := Some completed;
          u_findings := Some findings;
          u_next_agent := None; u_confidence := None |}.

Definition research_analyst_node (state : MultiAgentState) : Eff Update :=
  response ← llm_with_tools_invoke;
  completed ← get_or (completed_agents state) (OList []);
  _ ← list_append completed "research_analyst";
  findings ← get_or (findings state) (ODict ∅);
  _ ← dict_setitem findings "research" "Market context analyzed";
  mret {| u_messages := Some [response];
          u_completed_agents := Some completed;
          u_findings := Some findings;
          u_next_agent := None; u_confidence := None |}.

Definition risk_assessor_node (state : MultiAgentState) : Eff Update :=
  response ← llm_invoke;
  completed ← get_or (completed_agents state) (OList []);
  _ ← list_append completed "risk_assessor";
  findings ← get_or (findings state) (ODict ∅);
  _ ← dict_setitem findings "risk_assessment" "Risks evaluated";
  W ← world;
  σ ← store;
  let confidence := random_uniform W (calls_llm σ) in
  mret {| u_messages := Some [response];
          u_completed_agents := Some completed;
          u_findings := Some findings;
          u_confidence := Some confidence;
          u_next_agent := None |}.

Definition synthesizer_node (state : MultiAgentState) : Eff Update :=
  fs ← get_or (findings state) (ODict ∅);
  findings_text ← dict_items fs;
  response ← llm_invoke;
  completed ← get_or (completed_agents state) (OList []);
  _ ← list_append completed "synthesizer";
  mret {| u_messages := Some [response];
          u_completed_agents := Some completed;
          u_findings := None; u_next_agent := None; u_confidence := None |}.

(** ["synthesizer" in state.get("completed_agents", [])], read through the
    heap [h]; on a dict, [in] tests the keys. *)
Definition synthesizer_done (state : MultiAgentState) (h : list Obj)
  : option bool :=
  match completed_agents state with
  | None => Some false
  | Some l =>
      match deref h l with
      | Some (OList xs) => Some (Py.mem "synthesizer" xs)
      | Some (ODict d) => Some (bool_decide (is_Some (d !! "synthesizer")))
      | None => None
      end
  end.

Definition route_to_agent (state : MultiAgentState) (h : list Obj)
  : option string :=
  let next_agent := default "supervisor" (next_agent state) in
  last_message ← Py.index (messages state) (-1);
  if has_tool_calls last_message then Some "tools"
  else
    match synthesizer_done state h with
    | Some true => Some "end"
    | Some false => Some next_agent
    | None => None
    end.

Definition tools (state : MultiAgentState) : Eff Update :=
  out ← tool_node (messages state);
  mret {| u_messages := Some out;
          u_next_agent := None; u_completed_agents := None;
          u_findings := None; u_confidence := None |}.

Inductive Node :=
| Supervisor
| DataCollector
| TechnicalAnalyst
| ResearchAnalyst
| RiskAssessor
| Synthesizer
| Tools.

#[global] Instance node_eq_dec : EqDecision Node.
Proof. solve_decision. Defined.

Definition node_fn (n : Node) : MultiAgentState -> Eff Update :=
  match n with
  | Supervisor => supervisor_node
  | DataCollector => data_collector_node
  | TechnicalAnalyst => technical_analyst_node
  | ResearchAnalyst => research_analyst_node
  | RiskAssessor => risk_assessor_node
  | Synthesizer => synthesizer_node
  | Tools => tools
  end.

(** The name under which [add_node] registers a node. *)
Definition node_name (n : Node) : string :=
  match n with
  | Supervisor => "supervisor"
  | DataCollector => "data_collector"
  | TechnicalAnalyst => "technical_analyst"
  | ResearchAnalyst => "research_analyst"
  | RiskAssessor => "risk_assessor"
  | Synthesizer => "synthesizer"
  | Tools => "tools"
  end.

Definition is_specialist (n : Node) : bool :=
  match n with
  | Supervisor | Tools => false
  | _ => true
  end.

Definition exec (W : World) (n : Node)
  : Cfg MultiAgentState -> option (Cfg MultiAgentState) :=
  exec_node apply W (node_fn n).

(** The path map of the supervisor's conditional edge. *)
Definition supervisor_paths : list (string * Dest Node) :=
  [("data_collector", Goto DataCollector);
   ("technical_analyst", Goto TechnicalAnalyst);
   ("research_analyst", Goto ResearchAnalyst);
   ("risk_assessor", Goto RiskAssessor);
   ("synthesizer", Goto Synthesizer);
   ("tools", Goto Tools);
   ("end", END)].

(** The path map given to every specialist's conditional edge. *)
Definition specialist_paths : list (string * Dest Node) :=
  [("supervisor", Goto Supervisor); ("tools", Goto Tools); ("end", END)].

Definition next (n : Node) (c : Cfg MultiAgentState) : Error + Dest Node :=
  match n with
  | Supervisor =>
      resolve supervisor_paths (route_to_agent (fst c) (heap (snd c)))
  | Tools => inr (Goto Supervisor)
  | _ => resolve specialist_paths (route_to_agent (fst c) (heap (snd c)))
  end.

(** The initial state that [invoke_agent] builds for this pattern: the
    list and the dict literal are two fresh objects. *)
Definition initial_cfg (query : string) : Cfg MultiAgentState :=
  ({| messages := [HumanMessage query];
      next_agent := Some "supervisor";
      completed_agents := Some 0;
      findings := Some 1;
      confidence := Some 0%float |},
   mkStore 0 0 [OList []; ODict ∅]).

(** The initial state that [stream_agent] builds: [messages] only. *)
Definition stream_cfg (query : string) : Cfg MultiAgentState :=
  ({| messages := [HumanMessage query];
      next_agent := None;
      completed_agents := None;
      findings := None;
      confidence := None |},
   store0).

(** [workflow.add_edge(START, "supervisor")] *)
Definition invoke (W : World) (budget : nat) (c : Cfg MultiAgentState) :=
  run (exec W) next budget Supervisor c.

(** The value of [state["completed_agents"]] as a caller sees it: the
    contents of the list the state refers to. *)
Definition completed_list (state : MultiAgentState) (h : list Obj)
  : option (list string) :=
  l ← completed_agents state;
  match deref h l with
  | Some (OList xs) => Some xs
  | _ => None
  end.

(** Likewise for [state["findings"]]. *)
Definition findings_dict (state : MultiAgentState) (h : list Obj)
  : option (gmap string string) :=
  l ← findings state;
  match deref h l with
  | Some (ODict d) => Some d
  | _ => None
  end.

(** The list that [state.get("completed_agents", [])] yields. *)
Definition old_completed (state : MultiAgentState) (h : list Obj)
  : list string :=
  default [] (completed_list state h).

(** The state with [next_agent] set to [a]. *)
Definition with_next_agent (a : string) (state : MultiAgentState)
  : MultiAgentState :=
  {| messages := messages state;
     next_agent := Some a;
     completed_agents := completed_agents state;
     findings := findings state;
     confidence := confidence state |}.

End MultiAgent.

(** ** The state reducer *)

Module StateContainer.

Inductive Policy := Append | Replace.

(** The values that the fields of the four state schemas hold. *)
Inductive Value :=
| VMessages (ms : list Message)
| VInt (z : Z)
| VFloat (x : float)
| VStr (s : string)
| VStrList (l : list string)
| VRef (l : Loc).

Inductive ApplyError :=
| UnknownFieldError (field : string)
| NotASequence (field : string).

(** Modelled from the spec: the merge policies of section 3.  The source
    only declares them, per field, in its [TypedDict] schemas
    ([Annotated[Sequence[BaseMessage], operator.add]] for [append], a bare
    type for [replace]); the code that merges is the graph engine's.
    [None] when an [append] field is given, or holds, a value that is no
    message sequence. *)
Definition merge (policy : Policy) (current : option Value) (new : Value)
  : option Value :=
  match policy, current, new with
  | Replace, _, _ => Some new
  | Append, None, VMessages n => Some (VMessages n)
  | Append, Some (VMessages o), VMessages n => Some (VMessages (o ++ n))
  | Append, _, _ => None
  end.

(** Modelled from the spec: the reducer [apply(state, partial)] of section
    4.1, which the source leaves to the graph engine.  Each field of
    [partial] is merged by its declared policy against the state's current
    value; the fields that [partial] does not name are carried over; a
    field that the schema does not declare fails with
    [UnknownFieldError]. *)
Definition apply (schema : gmap string Policy)
  (state partial : gmap string Value) : ApplyError + gmap string Value :=
  match elements (dom partial ∖ dom schema) with
  | field :: _ => inl (UnknownFieldError field)
  | [] =>
      let merged :=
        map_imap (fun field new =>
                    policy ← schema !! field;
                    merge policy (state !! field) new) partial in
      match elements (dom partial ∖ dom merged) with
      | field :: _ => inl (NotASequence field)
      | [] => inr (merged ∪ state)
      end
  end.

(** A valid partial update names declared fields only, and gives a message
    sequence to every [append] field, whose current value, if any, is a
    message sequence too. *)
Definition valid (schema : gmap string Policy)
  (state partial : gmap string Value) : Prop :=
  dom partial ⊆ dom schema /\
  forall field new,
    partial !! field = Some new -> schema !! field = Some Append ->
    (exists n, new = VMessages n) /\
    (state !! field = None \/ exists o, state !! field = Some (VMessages o)).

(** The message sequence that [state] holds in [field], empty when it
    holds none. *)
Definition sequence_at (state : gmap string Value) (field : string)
  : list Message :=
  match state !! field with
  | Some (VMessages ms) => ms
  | _ => []
  end.

(** The schema that [ReActState] declares. *)
Definition react_schema : gmap string Policy :=
  <["messages" := Append]>
    (<["iteration" := Replace]> (<["max_iterations" := Replace]> ∅)).

(** A [ReActState] as the dict it is at run time. *)
Definition encode (s : ReAct.ReActState) : gmap string Value :=
  <["messages" := VMessages (ReAct.messages s)]>
    (<["iteration" := VInt (ReAct.iteration s)]>
       (<["max_iterations" := VInt (ReAct.max_iterations s)]> ∅)).

Definition set_field (field : string) (v : option Value)
  (m : gmap string Value) : gmap string Value :=
  match v with
  | Some v => <[field := v]> m
  | None => m
  end.

(** The dict that a node of the ReAct pattern returns. *)
Definition encode_update (u : ReAct.Update) : gmap string Value :=
  set_field "messages" (VMessages <$> ReAct.u_messages u)
    (set_field "iteration" (VInt <$> ReAct.u_iteration u)
       (set_field "max_iterations" (VInt <$> ReAct.u_max_iterations u) ∅)).

End StateContainer.

(** ** Concrete collaborators

    Replies and readers with which the models above can be run. *)

Module Stub.

Fixpoint digits_value (acc : Z) (s : string) : option Z :=
  match s with
  | EmptyString => Some acc
  | String c s' =>
      if Py.isdigit c
      then digits_value (10 * acc + (Z.of_nat (nat_of_ascii c) - 48)) s'
      else None
  end.

Definition float_of_Z (z : Z) : float := PrimFloat.of_uint63 (Uint63.of_Z z).

(** Python's [float] on plain decimal literals [ddd] and [ddd.ddd] whose
    digits and scale are exact in binary64, where one correctly rounded
    division gives the correctly rounded value; every other text is
    rejected. *)
Definition decimal_float (s : string) : option float :=
  match Py.split "." s with
  | Some [i] =>
      if Py.truthy i then
        m ← digits_value 0 i;
        if (m <? 2 ^ 53)%Z then Some (float_of_Z m) else None
      else None
  | Some [i; f] =>
      if Py.truthy (i ++ f) then
        m ← digits_value 0 (i ++ f);
        if (m <? 2 ^ 53)%Z && (String.length f <=? 18)%nat
        then Some (PrimFloat.div (float_of_Z m)
                     (float_of_Z (10 ^ Z.of_nat (String.length f))))
        else None
      else None
  | _ => None
  end.

Definition price_request : ToolCall :=
  mkToolCall "get_stock_price" "{'symbol': 'AAPL'}" "call_0".

(** A world given by the replies of its two models. *)
Definition world_of (plain : nat -> string) (bound : nat -> Reply) : World :=
  {| llm := plain;
     llm_with_tools := bound;
     invoke_tool := fun _ => "{'symbol': 'AAPL'}";
     float_of_string := decimal_float;
     random_uniform := fun _ => 0.75%float |}.

Definition answers : nat -> Reply := fun _ => mkReply "analysis" [].
Definition requests : nat -> Reply := fun _ => mkReply "" [price_request].
(** A tool request on the first call only. *)
Definition requests_once : nat -> Reply :=
  fun k => match k with O => mkReply "" [price_request] | _ => mkReply "analysis" [] end.

Definition four_steps : string :=
  "1. Get current stock price for AAPL" ++ Py.newline ++
  "2. Retrieve 30-day historical data" ++ Py.newline ++
  "3. Search vector DB for recent AAPL analysis" ++ Py.newline ++
  "4. Synthesize findings into recommendation".

(** A ReAct state one reasoning step before its iteration limit. *)
Definition react_before_limit : ReAct.ReActState :=
  {| ReAct.messages := [HumanMessage "Should I invest in AAPL?"];
     ReAct.iteration := 2;
     ReAct.max_iterations := 3 |}.

Definition four_steps_plan : list string :=
  ["1. Get current stock price for AAPL";
   "2. Retrieve 30-day historical data";
   "3. Search vector DB for recent AAPL analysis";
   "4. Synthesize findings into recommendation"].

Definition demo_query : string := "Should I invest in AAPL? Analyze the stock.".

(** A critic that scores every draft 9.0, one that scores every draft 5.0,
    and one whose critiques carry no score. *)
Definition praise : nat -> string := fun _ => "SCORE: 9.0/10 CRITIQUE: thorough".
Definition blame : nat -> string := fun _ => "SCORE: 5.0/10 CRITIQUE: thin".
Definition ramble : nat -> string := fun _ => "The analysis needs more data.".

(** The worlds of the examples below. *)
Definition requesting : World := world_of (fun _ => "") requests.
Definition planning_with_request : World :=
  world_of (fun _ => four_steps) requests_once.
Definition planning : World := world_of (fun _ => four_steps) answers.
Definition praising : World := world_of praise answers.
Definition blaming : World := world_of blame answers.
Definition rambling : World := world_of ramble answers.
Definition choosing_data_collector : World :=
  world_of (fun _ => "data_collector") answers.
Definition choosing_synthesizer : World :=
  world_of (fun _ => "synthesizer") answers.

(** A reflection state as the generator leaves it after its first run. *)
Definition first_draft : Reflection.ReflectionState :=
  {| Reflection.messages := [HumanMessage demo_query; AIMessage "analysis" []];
     Reflection.draft := "";
     Reflection.critique := "";
     Reflection.iteration := 1;
     Reflection.max_iterations := 2;
     Reflection.quality_score := 0%float |}.

(** The update that the reasoning node returns on [react_before_limit]
    when the model answers in plain text. *)
Definition reasoning_update : ReAct.Update :=
  {| ReAct.u_messages := Some [AIMessage "analysis" []];
     ReAct.u_iteration := Some 3%Z;
     ReAct.u_max_iterations := None |}.

End Stub.

(** ** The tools *)

(** A decimal literal denotes the nearest binary64 value, as in Python. *)
Set Warnings "-inexact-float".

Module Tools.

(** [l[:k]]: a negative [k] counts from the end. *)
Definition slice_to {A : Type} (l : list A) (k : Z) : list A :=
  if (0 <=? k)%Z then take (Z.to_nat k) l
  else take (Z.to_nat (Z.of_nat (length l) + k)) l.

(** [range(n)] *)
Definition range (n : Z) : list nat := seq 0 (Z.to_nat n).

Record Document := mkDocument {
  doc_content : string;
  similarity : float;
  source : string;
  date : string
}.

Definition mock_results : list Document :=
  [ mkDocument
      "Analysis report on tech stocks showing strong performance in Q4"
      0.92%float "MarketWatch" "2025-12-15";
    mkDocument "AI sector stocks recommended for long-term growth"
      0.87%float "Bloomberg" "2025-12-10";
    mkDocument "Market volatility expected due to economic indicators"
      0.83%float "Reuters" "2025-12-18" ].

Record SearchResult := mkSearchResult {
  sr_query : string;
  sr_results : list Document;
  total_found : Z
}.

Definition vector_db_search (query : string) (top_k : Z) : SearchResult :=
  {| sr_query := query;
     sr_results := slice_to mock_results top_k;
     total_found := Z.of_nat (length mock_results) |}.

(** What [get_stock_history] draws on: the successive results of
    [np.random.uniform(90, 510)], the formatted date [i] days before now,
    and numpy's [mean] and [std]. *)
Record Env := mkEnv {
  draw : nat -> float;
  day : nat -> string;
  np_mean : list float -> float;
  np_std : list float -> float
}.

Record History := mkHistory {
  h_symbol : string;
  h_dates : list string;
  h_prices : list float;
  avg_price : float;
  volatility : float;
  trend : string
}.

(** [None] is the [IndexError] of [prices[-1]]. *)
Definition get_stock_history (E : Env) (symbol : string) (days : Z)
  : option History :=
  let dates := map (day E) (range days) in
  let prices := map (draw E) (range days) in
  last_price ← Py.index prices (-1);
  first_price ← Py.index prices 0;
  Some {| h_symbol := symbol;
          h_dates := slice_to dates 5;
          h_prices := slice_to prices 5;
          avg_price := np_mean E prices;
          volatility := np_std E prices;
          trend := if PrimFloat.ltb first_price last_price
                   then "bullish" else "bearish" |}.

End Tools.

(** ** The server's agent table *)

Module Server.

Inductive Kind := ReactAgent | PlanExecuteAgent | ReflectionAgent | MultiAgentSystem.

(** A compiled graph: what it was built by, and which of the graphs built
    so far it is. *)
Record Agent := mkAgent {
  kind : Kind;
  serial : nat
}.

(** The module-level dict [agents], in the order of its keys, and the
    number of graphs built so far. *)
Record State := mkState {
  agents : list (string * option Agent);
  built : nat
}.

Definition startup_agents : State :=
  {| agents := [("react", None); ("plan_execute", None);
                ("reflection", None); ("multi_agent", None)];
     built := 0 |}.

(** [d[k]]; [None] is [KeyError]. *)
Fixpoint getitem (d : list (string * option Agent)) (k : string)
  : option (option Agent) :=
  match d with
  | [] => None
  | (k', v) :: rest => if String.eqb k' k then Some v else getitem rest k
  end.

(** [d[k] = v]: an existing key keeps its place, a new one goes last. *)
Fixpoint setitem (d : list (string * option Agent)) (k : string)
  (v : option Agent) : list (string * option Agent) :=
  match d with
  | [] => [(k, v)]
  | (k', v') :: rest =>
      if String.eqb k' k then (k', v) :: rest else (k', v') :: setitem rest k v
  end.

(** [agents[pattern] = create_..._agent()]; the creator is taken to
    return. *)
Definition build (pattern : string) (k : Kind) (st : State) : State :=
  {| agents := setitem (agents st) pattern (Some (mkAgent k (built st)));
     built := S (built st) |}.

Definition get_agent (pattern : string) (st : State)
  : option (option Agent * State) :=
  current ← getitem (agents st) pattern;
  let st' :=
    match current with
    | None =>
        if String.eqb pattern "react" then build pattern ReactAgent st
        else if String.eqb pattern "plan_execute"
             then build pattern PlanExecuteAgent st
        else if String.eqb pattern "reflection"
             then build pattern ReflectionAgent st
        else if String.eqb pattern "multi_agent"
             then build pattern MultiAgentSystem st
        else st
    | Some _ => st
    end in
  agent ← getitem (agents st') pattern;
  Some (agent, st').

(** [agents_loaded] of [health_check]. *)
Definition health_check (st : State) : list string :=
  map fst (List.filter (fun kv => bool_decide (is_Some (snd kv))) (agents st)).

(** The table after the requests [patterns], one call of [get_agent] each;
    a call that raises leaves the table as it was. *)
Fixpoint serve (patterns : list string) (st : State) : State :=
  match patterns with
  | [] => st
  | p :: rest =>
      serve rest (match get_agent p st with
                  | Some (_, st') => st'
                  | None => st
                  end)
  end.

(** The creator that [get_agent] calls for a key of the table. *)
Definition kind_of (pattern : string) : Kind :=
  if String.eqb pattern "react" then ReactAgent
  else if String.eqb pattern "plan_execute" then PlanExecuteAgent
  else if String.eqb pattern "reflection" then ReflectionAgent
  else MultiAgentSystem.

Definition patterns : list string :=
  ["react"; "plan_execute"; "reflection"; "multi_agent"].

(** The entry of a key: empty as long as the key was not requested, and
    then a graph of the key's kind. *)
Definition loaded_as (slot : option Agent) (k : Kind) (requested : bool)
  : Prop :=
  match slot with
  | None => requested = false
  | Some a => kind a = k /\ requested = true
  end.

(** The table as it stands after the requests [requested]. *)
Definition table_after (requested : list string) (st : State) : Prop :=
  exists r pe rf ma,
    agents st = [("react", r); ("plan_execute", pe);
                 ("reflection", rf); ("multi_agent", ma)] /\
    loaded_as r ReactAgent (Py.mem "react" requested) /\
    loaded_as pe PlanExecuteAgent (Py.mem "plan_execute" requested) /\
    loaded_as rf ReflectionAgent (Py.mem "reflection" requested) /\
    loaded_as ma MultiAgentSystem (Py.mem "multi_agent" requested) /\
    built st = length (health_check st).

End Server.

(** * Properties *)

(** ** Python primitives *)

Lemma index_last {A : Type} (l : list A) (x : A) :
  Py.index (l ++ [x]) (-1) = Some x.
Proof.
  unfold Py.index. rewrite length_app. simpl length.
  destruct (0 <=? -1)%Z eqn:E; [discriminate|].
  destruct (- Z.of_nat (length l + 1) <=? -1)%Z eqn:E'.
  - replace (Z.to_nat (Z.of_nat (length l + 1) + -1)) with (length l) by lia.
    apply list_lookup_middle. reflexivity.
  - apply Z.leb_gt in E'. lia.
Qed.

Lemma index_nonneg {A : Type} (l : list A) (i : Z) :
  (0 <= i < Z.of_nat (length l))%Z -> is_Some (Py.index l i).
Proof.
  intros [H0 H1]. unfold Py.index.
  destruct (0 <=? i)%Z eqn:E; [|apply Z.leb_gt in E; lia].
  apply lookup_lt_is_Some. lia.
Qed.

(** ** The step loop *)

Section ExecutorFacts.
Context {Node Cfg : Type}.
Variable exec : Node -> Cfg -> option Cfg.
Variable next : Node -> Cfg -> Error + Dest Node.

(** The trace of a run starts with the node the run started with. *)
Lemma run_trace_head budget n c tr o :
  run exec next budget n c = (tr, o) ->
  tr = [] \/ exists tr', tr = (n, c) :: tr'.
Proof.
  destruct budget as [|b]; simpl.
  - intros [= <- <-]. now left.
  - destruct (exec n c) as [c'|]; [|intros [= <- <-]; right; eauto].
    destruct (next n c') as [e|[n'|]]; try (intros [= <- <-]; right; eauto).
    destruct (run exec next b n' c') as [tr' o'].
    intros [= <- <-]. right; eauto.
Qed.

(** Consecutive entries of a trace are transitions of the loop. *)
Lemma run_trace_chain budget n c tr o :
  run exec next budget n c = (tr, o) -> chain (step exec next) tr.
Proof.
  revert n c tr o. induction budget as [|b IH]; simpl; intros n c tr o.
  - intros [= <- <-]. exact I.
  - destruct (exec n c) as [c'|] eqn:He; [|intros [= <- <-]; exact I].
    destruct (next n c') as [e|[n'|]] eqn:Hn; try (intros [= <- <-]; exact I).
    destruct (run exec next b n' c') as [tr' o'] eqn:Hr.
    intros [= <- <-].
    pose proof (IH _ _ _ _ Hr) as Hc.
    destruct (run_trace_head _ _ _ _ _ Hr) as [->|[tr'' ->]]; [exact I|].
    split; [|exact Hc]. split; simpl; assumption.
Qed.

(** A run that has reached an outcome other than the exhausted budget
    reaches the same one with any larger budget. *)
Lemma run_budget_mono budget budget' n c tr o :
  run exec next budget n c = (tr, o) ->
  (forall c', o <> StepBudgetExceeded c') ->
  budget <= budget' ->
  run exec next budget' n c = (tr, o).
Proof.
  revert budget' n c tr o.
  induction budget as [|b IH]; intros budget' n c tr o; simpl.
  - intros [= <- <-] Hne. now destruct (Hne c).
  - intros Hr Hne Hle. destruct budget' as [|b']; [lia|]. simpl.
    destruct (exec n c) as [c'|]; [|exact Hr].
    destruct (next n c') as [e|[n'|]]; try exact Hr.
    destruct (run exec next b n' c') as [tr' o'] eqn:Hr'.
    injection Hr as <- <-.
    rewrite (IH b' n' c' tr' o' Hr' Hne); [reflexivity|lia].
Qed.

Lemma run_goto b n c c' n' :
  exec n c = Some c' -> next n c' = inr (Goto n') ->
  run exec next (S b) n c =
    ((n, c) :: fst (run exec next b n' c'), snd (run exec next b n' c')).
Proof.
  intros He Hn. simpl. rewrite He, Hn.
  now destruct (run exec next b n' c').
Qed.

Lemma run_end b n c c' :
  exec n c = Some c' -> next n c' = inr END ->
  run exec next (S b) n c = ([(n, c)], Terminated c').
Proof. intros He Hn. simpl. now rewrite He, Hn. Qed.

Lemma run_abort b n c c' e :
  exec n c = Some c' -> next n c' = inl e ->
  run exec next (S b) n c = ([(n, c)], Aborted e c').
Proof. intros He Hn. simpl. now rewrite He, Hn. Qed.

Lemma chain_impl {A : Type} (R R' : A -> A -> Prop) (l : list A) :
  (forall a b, R a b -> R' a b) -> chain R l -> chain R' l.
Proof.
  intros HR. induction l as [|a [|b l] IH]; simpl; try exact (fun _ => I).
  intros [Hab Hl]. split; [now apply HR|now apply IH].
Qed.

(** A property of configurations that every node preserves holds all
    along a run that starts in it. *)
Lemma run_invariant (P : Cfg -> Prop) :
  (forall n c c', P c -> exec n c = Some c' -> P c') ->
  forall b n c tr o,
    P c -> run exec next b n c = (tr, o) ->
    Forall (fun e => P (snd e)) tr /\ P (outcome_cfg o).
Proof.
  intros Hpres. induction b as [|b IH]; intros n c tr o Hc; simpl.
  - intros [= <- <-]. split; [constructor|exact Hc].
  - destruct (exec n c) as [c'|] eqn:He.
    + pose proof (Hpres _ _ _ Hc He) as Hc'.
      destruct (next n c') as [e|[n'|]].
      * intros [= <- <-]. split; [repeat constructor; exact Hc|exact Hc'].
      * destruct (run exec next b n' c') as [tr' o'] eqn:Hr.
        intros [= <- <-]. destruct (IH _ _ _ _ Hc' Hr) as [Hall Ho].
        split; [constructor; [exact Hc|exact Hall]|exact Ho].
      * intros [= <- <-]. split; [repeat constructor; exact Hc|exact Hc'].
    + intros [= <- <-]. split; [repeat constructor; exact Hc|exact Hc].
Qed.

(** A run terminates at a node whose edge leads to [END]. *)
Lemma run_terminated b n c tr c' :
  run exec next b n c = (tr, Terminated c') ->
  exists n0 c0, In (n0, c0) tr /\ exec n0 c0 = Some c' /\ next n0 c' = inr END.
Proof.
  revert n c tr. induction b as [|b IH]; intros n c tr; simpl.
  - discriminate.
  - destruct (exec n c) as [c1|] eqn:He; [|discriminate].
    destruct (next n c1) as [e|[n'|]] eqn:Hn; try discriminate.
    + destruct (run exec next b n' c1) as [tr' o'] eqn:Hr.
      intros [= <- ->]. destruct (IH _ _ _ Hr) as (n0 & c0 & Hin & H1 & H2).
      exists n0, c0. split; [now right|now split].
    + intros [= <- <-]. exists n, c. split; [now left|now split].
Qed.

Lemma chain_Forall {A : Type} (R : A -> A -> Prop) (P : A -> Prop) (l : list A) :
  (forall a b, P a -> R a b -> P b) ->
  chain R l -> (forall a, head l = Some a -> P a) -> Forall P l.
Proof.
  intros Hstep. induction l as [|a l IH]; intros Hc Hh; [constructor|].
  assert (Ha : P a) by now apply Hh.
  constructor; [exact Ha|].
  destruct l as [|b l]; [constructor|].
  destruct Hc as [Hab Hc]. apply IH; [exact Hc|].
  intros b' [= <-]. eapply Hstep; eassumption.
Qed.
End ExecutorFacts.

(** ** ReAct *)

Lemma react_should_continue_last (s : ReAct.ReActState) (ms : list Message) m :
  ReAct.messages s = (ms ++ [m])%list ->
  ReAct.should_continue s =
    Some (if (ReAct.max_iterations s <=? ReAct.iteration s)%Z then "end"
          else if has_tool_calls m then "tools" else "end").
Proof.
  intros Hm. unfold ReAct.should_continue. rewrite Hm, index_last. simpl.
  destruct (_ <=? _)%Z; [reflexivity|]. now destruct (has_tool_calls m).
Qed.

Lemma has_tool_calls_response (r : Reply) :
  has_tool_calls (response_of r) = false <-> r_tool_calls r = [].
Proof. destruct r as [c [|tc tcs]]; simpl; split; congruence. Qed.

(** C2, as stated, fails.  With the iteration counter at the maximum after
    the reasoning node has run and a tool request pending on its reply,
    the router ends the run, although neither (a) nor (b) holds. *)
Lemma react_router_counterexample :
  exists c',
    ReAct.exec Stub.requesting ReAct.Reasoning (Stub.react_before_limit, store0)
      = Some c' /\
    ~ (ReAct.should_continue (fst c') = Some "end" <->
       (ReAct.pending (fst c') = false /\
        (ReAct.max_iterations (fst c') <= ReAct.iteration (fst c'))%Z) \/
       (ReAct.pending (fst c') = false /\
        r_tool_calls (llm_with_tools Stub.requesting 0) = [])).
Proof.
  eexists. split; [reflexivity|].
  intros [H _]. destruct (H eq_refl) as [[Hp _]|[Hp _]]; discriminate Hp.
Qed.

(** C2, amended.  After the reasoning node has run, which always succeeds
    and adds one to the iteration counter, the router ends the run exactly
    when the counter has reached [max_iterations], whether or not a tool
    request is pending, or the reply carries no tool request; in every
    other case it routes to the tools node. *)
Theorem react_router_after_reasoning (W : World) (s : ReAct.ReActState)
  (σ : Store) :
  exists c',
    ReAct.exec W ReAct.Reasoning (s, σ) = Some c' /\
    ReAct.iteration (fst c') = (ReAct.iteration s + 1)%Z /\
    ReAct.max_iterations (fst c') = ReAct.max_iterations s /\
    ReAct.pending (fst c') =
      negb (bool_decide (r_tool_calls (llm_with_tools W (calls_llm_tools σ)) = [])) /\
    (ReAct.next ReAct.Reasoning c' = inr END <->
     (ReAct.max_iterations (fst c') <= ReAct.iteration (fst c'))%Z \/
     ReAct.pending (fst c') = false) /\
    (ReAct.next ReAct.Reasoning c' <> inr END ->
     ReAct.next ReAct.Reasoning c' = inr (Goto ReAct.Tools)).
Proof.
  eexists. split; [reflexivity|]. simpl.
  set (r := llm_with_tools W (calls_llm_tools σ)).
  set (s' := ReAct.apply s _).
  assert (Hp : ReAct.pending s' = has_tool_calls (response_of r)).
  { unfold ReAct.pending, s'. simpl. now rewrite index_last. }
  assert (Hs : ReAct.should_continue s' =
               Some (if (ReAct.max_iterations s <=? ReAct.iteration s + 1)%Z
                     then "end"
                     else if has_tool_calls (response_of r) then "tools"
                          else "end")).
  { apply (react_should_continue_last s' (ReAct.messages s)). reflexivity. }
  assert (Hi : ReAct.iteration s' = (ReAct.iteration s + 1)%Z) by reflexivity.
  assert (Hm : ReAct.max_iterations s' = ReAct.max_iterations s) by reflexivity.
  unfold ReAct.next, fst. rewrite Hp, Hs, ?Hi, ?Hm. clear.
  split; [reflexivity|]. split; [reflexivity|]. split.
  { unfold has_tool_calls, response_of. destruct (r_tool_calls r); reflexivity. }
  destruct (Z.leb_spec (ReAct.max_iterations s) (ReAct.iteration s + 1));
    destruct (has_tool_calls (response_of r)).
  - split; [split|]; [intros _; now left|reflexivity|intros H'; now destruct H'].
  - split; [split|]; [intros _; now left|reflexivity|intros H'; now destruct H'].
  - split; [split|]; [|intros [H'|H']; [lia|discriminate H']|reflexivity].
    intros H'. vm_compute in H'. discriminate H'.
  - split; [split|]; [intros _; now right|reflexivity|intros H'; now destruct H'].
Qed.

(** ** Plan-Execute *)

Section PlanExecuteFacts.
Import PlanExecute.
Variable W : World.

Lemma plan_router_last (s : PlanExecuteState) (ms : list Message) m :
  messages s = (ms ++ [m])%list ->
  should_continue s =
    Some (if has_tool_calls m then "tools"
          else if (Z.of_nat (length (plan s)) <=? current_step s)%Z
               then "synthesize" else "execute").
Proof.
  intros Hm. unfold should_continue. rewrite Hm, index_last. simpl.
  destruct (has_tool_calls m); [reflexivity|]. now destruct (_ <=? _)%Z.
Qed.

(** The executor on a state whose steps are all done. *)
Lemma executor_done (s : PlanExecuteState) σ :
  (Z.of_nat (length (plan s)) <= current_step s)%Z ->
  exec W Executor (s, σ) =
    Some (apply s (mkUpdate (Some [AIMessage "All steps completed" []])
                            None None None None), σ).
Proof.
  intros H. unfold exec, exec_node, node_fn, executor_node. simpl.
  apply Z.leb_le in H. now rewrite H.
Qed.

(** The executor on a state with a step left: it calls the tool-bound
    model once and advances [current_step] by one. *)
Lemma executor_advances (s : PlanExecuteState) σ :
  (0 <= current_step s < Z.of_nat (length (plan s)))%Z ->
  exec W Executor (s, σ) =
    Some (apply s (mkUpdate
                     (Some [response_of (llm_with_tools W (calls_llm_tools σ))])
                     None None (Some (current_step s + 1)%Z) None),
          mkStore (calls_llm σ) (S (calls_llm_tools σ)) (heap σ)).
Proof.
  intros H. unfold exec, exec_node, node_fn, executor_node. simpl.
  destruct (_ <=? _)%Z eqn:E; [apply Z.leb_le in E; lia|].
  destruct (index_nonneg (plan s) (current_step s) H) as [d Hd].
  unfold mbind, eff_mbind, eff_bind, lift. now rewrite Hd.
Qed.

Lemma tools_runs (s : PlanExecuteState) σ ms m :
  messages s = (ms ++ [m])%list -> has_tool_calls m = true ->
  exists out, exec W Tools (s, σ) =
    Some (apply s (mkUpdate (Some out) None None None None), σ).
Proof.
  intros Hm Ht. unfold exec, exec_node, node_fn, tools, tool_node. simpl.
  unfold mbind, eff_mbind, eff_bind. rewrite Hm, index_last.
  destruct m as [| |c [|tc tcs]|]; try discriminate Ht. eauto.
Qed.

Lemma next_executor (s : PlanExecuteState) σ (ms : list Message) m :
  messages s = (ms ++ [m])%list ->
  next Executor (s, σ) =
    inr (Goto (if has_tool_calls m then Tools
               else if (Z.of_nat (length (plan s)) <=? current_step s)%Z
                    then Synthesizer else Executor)).
Proof.
  intros Hm. unfold next, fst. rewrite (plan_router_last s ms m Hm).
  destruct (has_tool_calls m); [reflexivity|].
  now destruct (_ <=? _)%Z.
Qed.

(** From the executor with [n] steps left, a budget of [2 * n + 2] nodes
    is enough to terminate through the synthesizer; every remaining step
    is worked on once, in order, whether the executor was entered from
    itself, from the planner or from the tools node. *)
Lemma executor_loop (n : nat) :
  forall (s : PlanExecuteState) σ b,
    (0 <= current_step s)%Z ->
    (Z.of_nat (length (plan s)) - current_step s = Z.of_nat n)%Z ->
    2 * n + 2 <= b ->
    exists tr c,
      run (exec W) next b Executor (s, σ) = (tr, Terminated c) /\
      executed_steps tr = seqZ (current_step s) (Z.of_nat n) /\
      synthesizer_inputs tr = [Z.of_nat (length (plan s))] /\
      (no_tool_requests W ->
       fresh_executor_runs false tr = Nat.max n 1).
Proof.
  induction n as [|n IH]; intros s σ b H0 Hn Hb.
  - destruct b as [|[|b]]; try lia.
    assert (Hd : (Z.of_nat (length (plan s)) <= current_step s)%Z) by lia.
    pose proof (executor_done s σ Hd) as He.
    set (s1 := apply s _) in He.
    assert (Hx : next Executor (s1, σ) = inr (Goto Synthesizer)).
    { rewrite (next_executor s1 σ (messages s) (AIMessage "All steps completed" []))
        by reflexivity.
      simpl has_tool_calls. cbv iota.
      replace (plan s1) with (plan s) by reflexivity.
      replace (current_step s1) with (current_step s) by reflexivity.
      apply Z.leb_le in Hd. now rewrite Hd. }
    rewrite (run_goto _ _ _ _ _ _ _ He Hx).
    erewrite run_end; [|reflexivity|reflexivity].
    do 2 eexists. split; [reflexivity|].
    unfold executed_steps, synthesizer_inputs. simpl.
    destruct (current_step s <? Z.of_nat (length (plan s)))%Z eqn:E;
      [apply Z.ltb_lt in E; lia|].
    repeat split. f_equal. lia.
  - assert (Hlt : (0 <= current_step s < Z.of_nat (length (plan s)))%Z) by lia.
    pose proof (executor_advances s σ Hlt) as He.
    set (r := response_of (llm_with_tools W (calls_llm_tools σ))) in He.
    set (s1 := apply s _) in He. set (σ1 := mkStore _ _ _) in He.
    assert (Hm1 : messages s1 = (messages s ++ [r])%list) by reflexivity.
    assert (Hp1 : plan s1 = plan s) by reflexivity.
    assert (Hc1 : current_step s1 = (current_step s + 1)%Z) by reflexivity.
    pose proof (next_executor s1 σ1 _ _ Hm1) as Hx.
    assert (Hes : forall tr',
               executed_steps ((Executor, (s, σ)) :: tr') =
               current_step s :: executed_steps tr').
    { intros tr'. unfold executed_steps. simpl.
      destruct (current_step s <? Z.of_nat (length (plan s)))%Z eqn:E;
        [reflexivity|apply Z.ltb_ge in E; lia]. }
    assert (Hsq : seqZ (current_step s) (Z.of_nat (S n)) =
                  current_step s :: seqZ (current_step s + 1) (Z.of_nat n)).
    { rewrite seqZ_cons by lia. f_equal. f_equal; lia. }
    destruct (has_tool_calls r) eqn:Ht.
    + (* the step requests tools: tools node, then the executor again *)
      destruct b as [|[|b]]; try lia.
      destruct (tools_runs s1 σ1 _ _ Hm1 Ht) as [out Het].
      set (s2 := apply s1 _) in Het.
      destruct (IH s2 σ1 b) as (tr & c & Hr & Hsteps & Hsyn & Hfresh).
      { replace (current_step s2) with (current_step s + 1)%Z by reflexivity. lia. }
      { replace (plan s2) with (plan s) by reflexivity.
        replace (current_step s2) with (current_step s + 1)%Z by reflexivity. lia. }
      { lia. }
      rewrite (run_goto _ _ _ _ _ _ _ He Hx).
      rewrite (run_goto _ _ _ Tools (s1, σ1) (s2, σ1) Executor Het eq_refl).
      rewrite Hr. simpl fst. simpl snd.
      do 2 eexists. split; [reflexivity|].
      rewrite Hes. split; [|split].
      * rewrite Hsq. f_equal. exact Hsteps.
      * exact Hsyn.
      * intros Hno. exfalso.
        unfold r in Ht. apply Bool.not_false_iff_true in Ht. apply Ht.
        apply has_tool_calls_response. apply Hno.
    + rewrite Hp1, Hc1 in Hx.
      destruct (Z.leb_spec (Z.of_nat (length (plan s))) (current_step s + 1)) as [Hl|Hl].
      * (* that was the last step: synthesizer *)
        destruct b as [|[|b]]; try lia.
        rewrite (run_goto _ _ _ _ _ _ _ He Hx).
        erewrite run_end; [|reflexivity|reflexivity].
        do 2 eexists. split; [reflexivity|].
        simpl fst. rewrite Hes.
        assert (n = 0) as -> by lia.
        unfold executed_steps, synthesizer_inputs. simpl.
        repeat split. f_equal. lia.
      * (* more steps: the executor again *)
        destruct b as [|b]; try lia.
        destruct (IH s1 σ1 b) as (tr & c & Hr & Hsteps & Hsyn & Hfresh);
          [rewrite Hc1; lia|rewrite Hp1, Hc1; lia|lia|].
        rewrite (run_goto _ _ _ _ _ _ _ He Hx). rewrite Hr. simpl fst. simpl snd.
        do 2 eexists. split; [reflexivity|].
        rewrite Hes. split; [|split].
        -- rewrite Hsq. f_equal. rewrite <- Hc1. exact Hsteps.
        -- rewrite <- Hp1. exact Hsyn.
        -- intros Hno. simpl. rewrite (Hfresh Hno). lia.
Qed.

Lemma planner_runs (s : PlanExecuteState) σ p :
  parse_plan (llm W (calls_llm σ)) = Some p ->
  exec W Planner (s, σ) =
    Some (apply s (mkUpdate
                     (Some [AIMessage ("Created plan with " ++ pretty (length p)
                                       ++ " steps") []])
                     (Some p) None (Some 0%Z) (Some ∅)),
          mkStore (S (calls_llm σ)) (calls_llm_tools σ) (heap σ)).
Proof.
  intros Hp. unfold parse_plan in Hp. simpl in Hp. injection Hp as <-.
  reflexivity.
Qed.

(** What one transition of the graph does to [current_step]. *)
Lemma step_current_step n s σ n' s' σ' :
  step (exec W) next (n, (s, σ)) (n', (s', σ')) ->
  n' <> Planner /\
  (n = Planner -> current_step s' = 0%Z) /\
  (n <> Planner -> (current_step s <= current_step s')%Z) /\
  (n = Executor -> (current_step s < Z.of_nat (length (plan s)))%Z ->
   current_step s' = (current_step s + 1)%Z) /\
  (n = Executor -> n' = Tools ->
   (current_step s < Z.of_nat (length (plan s)))%Z).
Proof.
  unfold step. simpl fst. simpl snd. intros [He Hx]. destruct n.
  - (* planner *)
    unfold exec, exec_node, node_fn, planner_node in He. simpl in He.
    unfold mbind, eff_mbind, eff_bind, llm_invoke, lift in He. simpl in He.
    injection He as <- <-. injection Hx as <-.
    repeat split; try congruence.
  - (* executor *)
    destruct (Z.leb_spec (Z.of_nat (length (plan s))) (current_step s)) as [Hd|Hl].
    + rewrite (executor_done s σ Hd) in He. injection He as <- <-.
      rewrite (next_executor _ _ (messages s) (AIMessage "All steps completed" []))
        in Hx by reflexivity.
      simpl has_tool_calls in Hx. cbv iota in Hx.
      destruct (_ <=? _)%Z in Hx; injection Hx as <-;
        repeat split; try congruence; simpl; lia.
    + unfold exec, exec_node, node_fn, executor_node in He. simpl in He.
      destruct (_ <=? _)%Z eqn:E in He; [apply Z.leb_le in E; lia|].
      unfold mbind, eff_mbind, eff_bind, lift, llm_with_tools_invoke in He.
      destruct (Py.index (plan s) (current_step s)); [|discriminate He].
      simpl in He. injection He as <- <-.
      rewrite (next_executor _ _ (messages s)
                 (response_of (llm_with_tools W (calls_llm_tools σ))))
        in Hx by reflexivity.
      destruct (has_tool_calls _) in Hx; [|destruct (_ <=? _)%Z in Hx];
        injection Hx as <-; repeat split; try congruence; simpl; lia.
  - (* tools *)
    unfold exec, exec_node, node_fn, tools in He. simpl in He.
    unfold mbind, eff_mbind, eff_bind in He.
    destruct (tool_node (messages s) W σ) as [[out σ1]|]; [|discriminate He].
    simpl in He. injection He as <- <-. injection Hx as <-.
    repeat split; try congruence. simpl. lia.
  - (* synthesizer *)
    discriminate Hx.
Qed.

Lemma executor_node_advances (s : PlanExecuteState) σ :
  (0 <= current_step s < Z.of_nat (length (plan s)))%Z ->
  executor_node s W σ =
    Some (mkUpdate
            (Some [response_of (llm_with_tools W (calls_llm_tools σ))])
            None None (Some (current_step s + 1)%Z) None,
          mkStore (calls_llm σ) (S (calls_llm_tools σ)) (heap σ)).
Proof.
  intros H. unfold executor_node.
  destruct (_ <=? _)%Z eqn:E; [apply Z.leb_le in E; lia|].
  destruct (index_nonneg (plan s) (current_step s) H) as [d Hd].
  unfold mbind, eff_mbind, eff_bind, lift. now rewrite Hd.
Qed.

Lemma executed_steps_cons e tr :
  executed_steps (e :: tr) =
    (match e with
     | (Executor, (s, _)) =>
         if (current_step s <? Z.of_nat (length (plan s)))%Z
         then [current_step s] else []
     | _ => []
     end ++ executed_steps tr)%list.
Proof.
  unfold executed_steps. destruct e as [[] [s σ]]; simpl; try reflexivity.
  now destruct (_ <? _)%Z.
Qed.

(** Along the transitions of the graph, the plan indices worked on
    increase strictly, and none is below the [current_step] the chain
    started with. *)
Lemma executed_steps_sorted tr :
  forall n s σ,
    chain (step (exec W) next) ((n, (s, σ)) :: tr) ->
    n <> Planner ->
    Forall (fun i => (current_step s <= i)%Z)
           (executed_steps ((n, (s, σ)) :: tr)) /\
    StronglySorted Z.lt (executed_steps ((n, (s, σ)) :: tr)).
Proof.
  induction tr as [|[n' [s' σ']] tr IH]; intros n s σ Hc Hn.
  - rewrite executed_steps_cons. destruct n; simpl;
      try (split; constructor).
    destruct (_ <? _)%Z; simpl; split; repeat constructor. lia.
  - destruct Hc as [Hs Hc].
    apply step_current_step in Hs as (Hnp & _ & Hle & Hadv & _).
    destruct (IH n' s' σ' Hc Hnp) as [Hall Hsorted].
    specialize (Hle Hn).
    rewrite executed_steps_cons.
    set (rest := executed_steps ((n', (s', σ')) :: tr)) in *.
    assert (Hall' : Forall (fun i => (current_step s <= i)%Z) rest).
    { eapply Forall_impl; [exact Hall|]. simpl. intros; lia. }
    destruct n; try congruence; simpl; try (split; assumption).
    destruct (current_step s <? Z.of_nat (length (plan s)))%Z eqn:E;
      simpl; [|split; assumption].
    apply Z.ltb_lt in E. specialize (Hadv eq_refl E).
    split.
    + constructor; [lia|exact Hall'].
    + constructor; [exact Hsorted|].
      eapply Forall_impl; [exact Hall|]. simpl. intros; lia.
Qed.

(** Every node but the planner runs on a non-negative [current_step]. *)
Lemma current_step_nonneg tr :
  forall n s σ,
    chain (step (exec W) next) ((n, (s, σ)) :: tr) ->
    (n <> Planner -> (0 <= current_step s)%Z) ->
    Forall (fun e => fst e <> Planner -> (0 <= current_step (fst (snd e)))%Z)
           ((n, (s, σ)) :: tr).
Proof.
  induction tr as [|[n' [s' σ']] tr IH]; intros n s σ Hc H0.
  - repeat constructor. exact H0.
  - destruct Hc as [Hs Hc]. constructor; [exact H0|].
    apply IH; [exact Hc|]. intros _.
    apply step_current_step in Hs as (_ & Hp & Hle & _).
    destruct n; try (rewrite Hp by reflexivity; lia);
      (assert (0 <= current_step s)%Z by (apply H0; congruence);
       assert (current_step s <= current_step s')%Z by (apply Hle; congruence);
       lia).
Qed.

(** A run on a plan of [n] steps ends through the synthesizer within
    [2 * n + 3] nodes. *)
Lemma plan_execute_any_plan (s0 : PlanExecuteState) (p : list string)
  (b : nat) :
  parse_plan (llm W 0) = Some p ->
  2 * length p + 3 <= b ->
  exists tr c,
    invoke W b s0 = (tr, Terminated c) /\
    executed_steps tr = seqZ 0 (Z.of_nat (length p)) /\
    synthesizer_inputs tr = [Z.of_nat (length p)] /\
    (no_tool_requests W ->
     fresh_executor_runs false tr = Nat.max (length p) 1).
Proof.
  intros Hp Hb. destruct b as [|b]; [lia|].
  unfold invoke.
  pose proof (planner_runs s0 store0 p Hp) as He.
  set (s1 := apply s0 _) in He. set (σ1 := mkStore _ _ _) in He.
  destruct (executor_loop (length p) s1 σ1 b) as (tr & c & Hr & Hs & Hy & Hf).
  { simpl. lia. }
  { simpl. lia. }
  { lia. }
  rewrite (run_goto _ _ _ Planner (s0, store0) (s1, σ1) Executor He eq_refl).
  rewrite Hr. simpl fst. simpl snd.
  do 2 eexists. split; [reflexivity|].
  rewrite executed_steps_cons. simpl app.
  split; [exact Hs|]. split; [exact Hy|exact Hf].
Qed.

(** C4, amended.  When the planner produces a 4-step plan, the run ends
    through the synthesizer within 11 nodes; the executor works on the
    steps 0, 1, 2, 3 once each and in order, where a re-entry after the
    tools node counts as a run and works on the next step; the
    synthesizer runs once, on [current_step = 4]; and when no reply
    carries a tool request the executor node runs exactly 4 times. *)
Theorem plan_execute_four_steps (s0 : PlanExecuteState) (p : list string)
  (b : nat) :
  parse_plan (llm W 0) = Some p ->
  length p = 4 ->
  11 <= b ->
  exists tr c,
    invoke W b s0 = (tr, Terminated c) /\
    executed_steps tr = [0; 1; 2; 3]%Z /\
    synthesizer_inputs tr = [4%Z] /\
    (no_tool_requests W ->
     fresh_executor_runs false tr = 4).
Proof.
  intros Hp Hl Hb.
  destruct (plan_execute_any_plan s0 p b Hp) as (tr & c & Hr & Hs & Hy & Hf);
    [lia|].
  rewrite Hl in Hs, Hy, Hf. exists tr, c. auto.
Qed.

(** C9.  In every run of the pattern, each executor invocation finds a
    non-negative [current_step] and, when a step is left, returns an
    update that sets [current_step] to its old value plus one, re-entries
    after the tools node included; when the executor hands over to the
    tools node, the step that issued the request is already counted; and
    the plan indices worked on increase strictly along the run, so no
    step is worked on twice. *)
Theorem executor_counts_step_at_request (s0 : PlanExecuteState) (b : nat) :
  let tr := fst (invoke W b s0) in
  Forall (fun e =>
            fst e = Executor ->
            let s := fst (snd e) in
            (0 <= current_step s)%Z /\
            ((current_step s < Z.of_nat (length (plan s)))%Z ->
             exists u σ',
               executor_node s W (snd (snd e)) = Some (u, σ') /\
               u_current_step u = Some (current_step s + 1)%Z)) tr /\
  chain (fun a b =>
           fst a = Executor -> fst b = Tools ->
           (current_step (fst (snd a))
            < Z.of_nat (length (plan (fst (snd a)))))%Z /\
           current_step (fst (snd b)) = (current_step (fst (snd a)) + 1)%Z)
        tr /\
  StronglySorted Z.lt (executed_steps tr).
Proof.
  unfold invoke.
  destruct (run (exec W) next b Planner (s0, store0)) as [tr o] eqn:Hr.
  simpl fst.
  pose proof (run_trace_chain _ _ _ _ _ _ _ Hr) as Hc.
  destruct (run_trace_head _ _ _ _ _ _ _ Hr) as [->|[tr' ->]].
  { repeat split; constructor. }
  split; [|split].
  - eapply Forall_impl.
    + apply (current_step_nonneg tr' Planner s0 store0 Hc). congruence.
    + intros [n [s σ]]. simpl. intros H0 ->.
      assert (H : (0 <= current_step s)%Z) by (apply H0; congruence).
      split; [exact H|]. intros Hlt.
      rewrite executor_node_advances by lia. eauto.
  - eapply chain_impl; [|exact Hc].
    intros [n [s σ]] [n' [s' σ']] Hs. simpl. intros -> ->.
    apply step_current_step in Hs as (_ & _ & _ & Hadv & Ht).
    specialize (Ht eq_refl eq_refl). split; [exact Ht|]. now apply Hadv.
  - rewrite executed_steps_cons. simpl app.
    destruct tr' as [|[n' [s' σ']] tr'']; [constructor|].
    destruct Hc as [Hs Hc].
    apply step_current_step in Hs as (Hnp & _).
    now apply (executed_steps_sorted tr'' n' s' σ' Hc).
Qed.
End PlanExecuteFacts.

(** C4, as stated, fails.  The planner produces a 4-step plan and the
    first step issues a tool request: the executor's re-entry after the
    tools node works on step 1, so only 3 executor runs are not such
    re-entries. *)
Lemma plan_execute_counterexample :
  let r := PlanExecute.invoke Stub.planning_with_request 25
             (PlanExecute.initial_state Stub.demo_query) in
  (length <$> PlanExecute.parse_plan (llm Stub.planning_with_request 0))
    = Some 4 /\
  map fst (fst r) =
    [PlanExecute.Planner; PlanExecute.Executor; PlanExecute.Tools;
     PlanExecute.Executor; PlanExecute.Executor; PlanExecute.Executor;
     PlanExecute.Synthesizer] /\
  (exists c, snd r = Terminated c) /\
  PlanExecute.fresh_executor_runs false (fst r) <> 4.
Proof.
  vm_compute. repeat split; try discriminate. eexists. reflexivity.
Qed.

Lemma plan_execute_four_steps_witness :
  (exists tr c,
     PlanExecute.invoke Stub.planning_with_request 25
       (PlanExecute.initial_state Stub.demo_query) = (tr, Terminated c) /\
     PlanExecute.executed_steps tr = [0; 1; 2; 3]%Z /\
     PlanExecute.synthesizer_inputs tr = [4%Z]) /\
  (exists tr c,
     PlanExecute.invoke Stub.planning 25
       (PlanExecute.initial_state Stub.demo_query) = (tr, Terminated c) /\
     PlanExecute.executed_steps tr = [0; 1; 2; 3]%Z /\
     PlanExecute.synthesizer_inputs tr = [4%Z] /\
     PlanExecute.fresh_executor_runs false tr = 4).
Proof.
  split.
  - destruct (plan_execute_four_steps Stub.planning_with_request
                (PlanExecute.initial_state Stub.demo_query)
                Stub.four_steps_plan 25) as (tr & c & Hr & Hs & Hy & _).
    + vm_compute. reflexivity.
    + reflexivity.
    + lia.
    + exists tr, c. auto.
  - destruct (plan_execute_four_steps Stub.planning
                (PlanExecute.initial_state Stub.demo_query)
                Stub.four_steps_plan 25) as (tr & c & Hr & Hs & Hy & Hf).
    + vm_compute. reflexivity.
    + reflexivity.
    + lia.
    + exists tr, c. repeat split; try assumption.
      apply Hf. intros k. reflexivity.
Defined.

Lemma executor_counts_step_at_request_witness :
  let tr := fst (PlanExecute.invoke Stub.planning_with_request 25
                   (PlanExecute.initial_state Stub.demo_query)) in
  map fst tr =
    [PlanExecute.Planner; PlanExecute.Executor; PlanExecute.Tools;
     PlanExecute.Executor; PlanExecute.Executor; PlanExecute.Executor;
     PlanExecute.Synthesizer] /\
  PlanExecute.executed_steps tr = [0; 1; 2; 3]%Z /\
  StronglySorted Z.lt (PlanExecute.executed_steps tr).
Proof.
  cbv zeta. split; [vm_compute; reflexivity|].
  split; [vm_compute; reflexivity|].
  exact (proj2 (proj2 (executor_counts_step_at_request
                         Stub.planning_with_request
                         (PlanExecute.initial_state Stub.demo_query) 25))).
Defined.

(** ** Self-Reflection *)

Section ReflectionFacts.
Import Reflection.
Variable W : World.

Lemma generator_runs (s : ReflectionState) σ :
  exec W Generator (s, σ) =
    Some (apply s (mkUpdate
                     (Some [response_of (llm_with_tools W (calls_llm_tools σ))])
                     None None (Some (iteration s + 1)%Z) None None),
          mkStore (calls_llm σ) (S (calls_llm_tools σ)) (heap σ)).
Proof. reflexivity. Qed.

Lemma critic_runs (s : ReflectionState) σ (ms : list Message) m :
  messages s = (ms ++ [m])%list ->
  exec W Critic (s, σ) =
    Some (apply s (mkUpdate
                     (Some [AIMessage (llm W (calls_llm σ)) []])
                     None
                     (Some (llm W (calls_llm σ)))
                     None None
                     (Some (parse_score W (llm W (calls_llm σ))))),
          mkStore (S (calls_llm σ)) (calls_llm_tools σ) (heap σ)).
Proof.
  intros Hm. unfold exec, exec_node, node_fn, critic_node. simpl fst. simpl snd.
  unfold mbind, eff_mbind, eff_bind, lift. rewrite Hm, index_last.
  reflexivity.
Qed.

Lemma next_generator (s : ReflectionState) σ (ms : list Message) m :
  messages s = (ms ++ [m])%list ->
  next Generator (s, σ) =
    inr (if has_tool_calls m then Goto Tools
         else if Py.float_ge (quality_score s) quality_threshold
                 || (max_iterations s <=? iteration s)%Z
              then END else Goto Critic).
Proof.
  intros Hm. unfold next, should_continue, fst. rewrite Hm, index_last.
  simpl mbind. destruct (has_tool_calls m); [reflexivity|].
  now destruct (_ || _).
Qed.

(** The router right after the generator has run on [s]. *)
Lemma next_after_generator (s : ReflectionState) σ σ' :
  let r := llm_with_tools W (calls_llm_tools σ) in
  let s1 := apply s (mkUpdate (Some [response_of r]) None None
                              (Some (iteration s + 1)%Z) None None) in
  next Generator (s1, σ') =
    inr (if has_tool_calls (response_of r) then Goto Tools
         else if Py.float_ge (quality_score s) quality_threshold
                 || (max_iterations s <=? iteration s + 1)%Z
              then END else Goto Critic).
Proof.
  intros r s1. apply (next_generator s1 σ' (messages s)). reflexivity.
Qed.

Lemma no_requests_response k :
  no_tool_requests W -> has_tool_calls (response_of (llm_with_tools W k)) = false.
Proof. intros H. apply has_tool_calls_response, H. Qed.

Lemma cycles_alternating k : cycles (alternating k) = k.
Proof.
  induction k as [|k IH]; [reflexivity|].
  change (alternating (S k)) with (Generator :: Critic :: alternating k).
  change (cycles (Generator :: Critic :: alternating k))
    with (S (cycles (Critic :: alternating k))).
  f_equal. destruct k; exact IH.
Qed.

Lemma generator_runs_alternating k : runs_of Generator (alternating k) = S k.
Proof.
  induction k as [|k IH]; [reflexivity|].
  unfold runs_of in *. simpl. now rewrite IH.
Qed.

Lemma critic_runs_alternating k : runs_of Critic (alternating k) = k.
Proof.
  induction k as [|k IH]; [reflexivity|].
  unfold runs_of in *. simpl. now rewrite IH.
Qed.

(** While every critique scores below the threshold and no tool is
    requested, the generator and the critic alternate until the iteration
    counter reaches [max_iterations]. *)
Lemma low_scores_loop (k : nat) :
  no_tool_requests W ->
  (forall j, Py.float_ge (parse_score W (llm W j)) quality_threshold = false) ->
  forall (s : ReflectionState) σ b,
    Py.float_ge (quality_score s) quality_threshold = false ->
    Z.to_nat (max_iterations s - (iteration s + 1)) = k ->
    2 * k + 1 <= b ->
    exists tr c,
      run (exec W) next b Generator (s, σ) = (tr, Terminated c) /\
      map fst tr = alternating k /\
      iteration (fst c) = (iteration s + 1 + Z.of_nat k)%Z /\
      max_iterations (fst c) = max_iterations s.
Proof.
  intros Hno Hlow. induction k as [|k IH]; intros s σ b Hq Hk Hb.
  - destruct b as [|b]; [lia|].
    pose proof (next_after_generator s σ
                  (mkStore (calls_llm σ) (S (calls_llm_tools σ)) (heap σ))) as Hx.
    cbv zeta in Hx. rewrite (no_requests_response _ Hno), Hq in Hx.
    replace (max_iterations s <=? iteration s + 1)%Z with true in Hx
      by (symmetry; apply Z.leb_le; lia).
    simpl orb in Hx. cbv iota in Hx.
    rewrite (run_end _ _ _ _ _ _ (generator_runs s σ) Hx).
    do 2 eexists. split; [reflexivity|]. repeat split. simpl. lia.
  - destruct b as [|[|b]]; try lia.
    set (σ1 := mkStore (calls_llm σ) (S (calls_llm_tools σ)) (heap σ)).
    pose proof (next_after_generator s σ σ1) as Hx.
    cbv zeta in Hx. rewrite (no_requests_response _ Hno), Hq in Hx.
    replace (max_iterations s <=? iteration s + 1)%Z with false in Hx
      by (symmetry; apply Z.leb_gt; lia).
    simpl orb in Hx. cbv iota in Hx.
    set (s1 := apply s _) in Hx.
    pose proof (critic_runs s1 σ1 (messages s)
                  (response_of (llm_with_tools W (calls_llm_tools σ))) eq_refl)
      as Hc.
    set (s2 := apply s1 _) in Hc. set (σ2 := mkStore _ _ _) in Hc.
    destruct (IH s2 σ2 b) as (tr & c & Hr & Htr & Hit & Hmx).
    { apply Hlow. }
    { replace (max_iterations s2) with (max_iterations s) by reflexivity.
      replace (iteration s2) with (iteration s + 1)%Z by reflexivity. lia. }
    { lia. }
    rewrite (run_goto _ _ _ _ _ _ _ (generator_runs s σ) Hx).
    rewrite (run_goto _ _ _ Critic (s1, σ1) (s2, σ2) Generator Hc eq_refl).
    rewrite Hr. simpl fst. simpl snd.
    do 2 eexists. split; [reflexivity|]. split; [|split].
    + simpl. now rewrite Htr.
    + rewrite Hit. replace (iteration s2) with (iteration s + 1)%Z by reflexivity.
      lia.
    + rewrite Hmx. reflexivity.
Qed.

(** A first critique at or above the threshold ends the run at the
    generator's next plain reply. *)
Lemma high_first_score (s : ReflectionState) σ b :
  no_tool_requests W ->
  Py.float_ge (quality_score s) quality_threshold = false ->
  Py.float_ge (parse_score W (llm W (calls_llm σ))) quality_threshold = true ->
  (iteration s + 1 < max_iterations s)%Z ->
  3 <= b ->
  exists tr c,
    run (exec W) next b Generator (s, σ) = (tr, Terminated c) /\
    map fst tr = [Generator; Critic; Generator] /\
    iteration (fst c) = (iteration s + 2)%Z.
Proof.
  intros Hno Hq Hhigh Hm Hb. destruct b as [|[|[|b]]]; try lia.
  set (σ1 := mkStore (calls_llm σ) (S (calls_llm_tools σ)) (heap σ)).
  pose proof (next_after_generator s σ σ1) as Hx.
  cbv zeta in Hx. rewrite (no_requests_response _ Hno), Hq in Hx.
  replace (max_iterations s <=? iteration s + 1)%Z with false in Hx
    by (symmetry; apply Z.leb_gt; lia).
  simpl orb in Hx. cbv iota in Hx.
  set (s1 := apply s _) in Hx.
  pose proof (critic_runs s1 σ1 (messages s)
                (response_of (llm_with_tools W (calls_llm_tools σ))) eq_refl)
    as Hc.
  set (s2 := apply s1 _) in Hc. set (σ2 := mkStore _ _ _) in Hc.
  set (σ3 := mkStore (calls_llm σ2) (S (calls_llm_tools σ2)) (heap σ2)).
  pose proof (next_after_generator s2 σ2 σ3) as Hx2.
  cbv zeta in Hx2. rewrite (no_requests_response _ Hno) in Hx2.
  replace (quality_score s2) with (parse_score W (llm W (calls_llm σ))) in Hx2
    by reflexivity.
  rewrite Hhigh in Hx2. simpl orb in Hx2. cbv iota in Hx2.
  rewrite (run_goto _ _ _ _ _ _ _ (generator_runs s σ) Hx).
  rewrite (run_goto _ _ _ Critic (s1, σ1) (s2, σ2) Generator Hc eq_refl).
  rewrite (run_end _ _ _ _ _ _ (generator_runs s2 σ2) Hx2).
  do 2 eexists. split; [reflexivity|]. split; [reflexivity|].
  simpl. lia.
Qed.

Lemma parse_score_unparseable (text : string) :
  Py.contains "SCORE:" text = false \/ extract_score W text = None ->
  parse_score W text = default_score.
Proof.
  unfold parse_score. intros [H|H]; rewrite H; [reflexivity|].
  now destruct (Py.contains _ _).
Qed.

Lemma next_generator_end (s : ReflectionState) σ :
  next Generator (s, σ) = inr END ->
  Py.float_ge (quality_score s) quality_threshold
  || (max_iterations s <=? iteration s)%Z = true.
Proof.
  unfold next, should_continue, fst.
  destruct (Py.index (messages s) (-1)) as [m|]; simpl mbind; [|discriminate].
  destruct (has_tool_calls m); [intros H; vm_compute in H; discriminate H|].
  destruct (_ || _); [reflexivity|].
  intros H; vm_compute in H; discriminate H.
Qed.

(** C3, amended.  In a run that requests no tool: when the first critique
    scores 9.0 and [max_iterations] is at least 2, the run is exactly
    generator, critic, generator, that is one generate-then-critique cycle
    and one more run of the generator; when every critique scores 5.0 and
    [max_iterations = m >= 1], the run ends after exactly [m] runs of the
    generator and [m - 1] generate-then-critique cycles, the last draft
    being left without a critique. *)
Theorem reflection_cycles_without_tools (q : string) (m : Z) (b : nat) :
  no_tool_requests W ->
  (parse_score W (llm W 0) = 9%float -> (2 <= m)%Z -> 3 <= b ->
   exists tr c,
     invoke W b (initial_state q m) = (tr, Terminated c) /\
     map fst tr = [Generator; Critic; Generator] /\
     cycles (map fst tr) = 1) /\
  ((forall k, parse_score W (llm W k) = 5%float) -> (1 <= m)%Z ->
   2 * Z.to_nat m - 1 <= b ->
   exists tr c,
     invoke W b (initial_state q m) = (tr, Terminated c) /\
     map fst tr = alternating (Z.to_nat m - 1) /\
     runs_of Generator (map fst tr) = Z.to_nat m /\
     cycles (map fst tr) = Z.to_nat m - 1 /\
     iteration (fst c) = m).
Proof.
  intros Hno. split.
  - intros Hs Hm Hb.
    destruct (high_first_score (initial_state q m) store0 b Hno)
      as (tr & c & Hr & Htr & _); try assumption; try reflexivity.
    + simpl calls_llm. rewrite Hs. reflexivity.
    + simpl. lia.
    + exists tr, c. split; [exact Hr|]. split; [exact Htr|].
      rewrite Htr. reflexivity.
  - intros Hs Hm Hb.
    assert (Hl : forall j,
               Py.float_ge (parse_score W (llm W j)) quality_threshold = false).
    { intros j. rewrite Hs. reflexivity. }
    assert (Hk : Z.to_nat (max_iterations (initial_state q m)
                           - (iteration (initial_state q m) + 1))
                 = Z.to_nat m - 1) by (simpl; lia).
    assert (Hb' : 2 * (Z.to_nat m - 1) + 1 <= b) by lia.
    destruct (low_scores_loop (Z.to_nat m - 1) Hno Hl (initial_state q m)
                store0 b eq_refl Hk Hb') as (tr & c & Hr & Htr & Hit & _).
    exists tr, c. split; [exact Hr|]. split; [exact Htr|].
    rewrite Htr, generator_runs_alternating, cycles_alternating.
    repeat split; [lia|]. rewrite Hit. simpl. lia.
Qed.

(** C6.  When the critique carries no ["SCORE:"] or the text after it
    does not read as a float, the critic node does not raise: it records
    the critique, sets [quality_score] to 7.5, and the run continues with
    the generator, which runs. *)
Theorem critic_defaults_unparseable_score (s : ReflectionState) (σ : Store) :
  messages s <> [] ->
  Py.contains "SCORE:" (llm W (calls_llm σ)) = false \/
  extract_score W (llm W (calls_llm σ)) = None ->
  exists c',
    exec W Critic (s, σ) = Some c' /\
    quality_score (fst c') = 7.5%float /\
    critique (fst c') = llm W (calls_llm σ) /\
    next Critic c' = inr (Goto Generator) /\
    is_Some (exec W Generator c').
Proof.
  intros Hne Hbad.
  destruct (exists_last Hne) as (ms & m & Hm).
  rewrite (critic_runs s σ ms m Hm).
  eexists. split; [reflexivity|]. simpl.
  rewrite (parse_score_unparseable _ Hbad).
  repeat split. eauto.
Qed.

(** C10.  The default score 7.5 is strictly below the threshold 8.5.  In
    a run from the initial state of [invoke_agent] in which no critique
    carries a score that can be read, the quality test of the router is
    false at every node, and a run that terminates does so with the
    iteration counter at or above [max_iterations]; when moreover no tool
    is requested, the run does terminate, with the counter at
    [max (max_iterations, 1)]. *)
Theorem unparseable_critiques_end_on_iterations (q : string) (m : Z)
  (b : nat) :
  (forall k, Py.contains "SCORE:" (llm W k) = false \/
             extract_score W (llm W k) = None) ->
  default_score = 7.5%float /\ quality_threshold = 8.5%float /\
  PrimFloat.ltb default_score quality_threshold = true /\
  Py.float_ge default_score quality_threshold = false /\
  (let r := invoke W b (initial_state q m) in
   Forall (fun e =>
             Py.float_ge (quality_score (fst (snd e))) quality_threshold = false)
          (fst r) /\
   forall c, snd r = Terminated c ->
     Py.float_ge (quality_score (fst c)) quality_threshold = false /\
     (max_iterations (fst c) <= iteration (fst c))%Z /\
     max_iterations (fst c) = m) /\
  (no_tool_requests W -> 2 * Z.to_nat (m - 1) + 1 <= b ->
   exists tr c,
     invoke W b (initial_state q m) = (tr, Terminated c) /\
     iteration (fst c) = Z.max m 1).
Proof.
  intros Hbad.
  pose (P := fun c : Cfg ReflectionState =>
               (quality_score (fst c) = 0%float \/
                quality_score (fst c) = default_score) /\
               max_iterations (fst c) = m).
  assert (Hlow : forall c, P c ->
            Py.float_ge (quality_score (fst c)) quality_threshold = false).
  { intros c [[H|H] _]; rewrite H; reflexivity. }
  assert (Hpres : forall n c c', P c -> exec W n c = Some c' -> P c').
  { intros n [s σ] c' [Hq Hm] He. destruct n.
    - rewrite generator_runs in He. injection He as <-. split; assumption.
    - unfold exec, exec_node, node_fn, critic_node in He.
      simpl fst in He. simpl snd in He.
      unfold mbind, eff_mbind, eff_bind, lift in He.
      destruct (Py.index (messages s) (-1)); [|discriminate He].
      simpl in He. injection He as <-. split; [right|exact Hm].
      simpl. apply parse_score_unparseable, Hbad.
    - unfold exec, exec_node, node_fn, tools in He.
      simpl fst in He. simpl snd in He.
      unfold mbind, eff_mbind, eff_bind in He.
      destruct (tool_node (messages s) W σ) as [[out σ1]|]; [|discriminate He].
      simpl in He. injection He as <-. split; assumption. }
  assert (HP0 : P (initial_state q m, store0))
    by (split; [left|]; reflexivity).
  assert (Hrun : forall tr o,
            invoke W b (initial_state q m) = (tr, o) ->
            Forall (fun e => P (snd e)) tr /\ P (outcome_cfg o)).
  { intros tr o Hr.
    exact (run_invariant (exec W) next P Hpres b Generator _ tr o HP0 Hr). }
  destruct (invoke W b (initial_state q m)) as [tr o] eqn:Hr.
  destruct (Hrun tr o eq_refl) as [Hall Ho].
  split; [reflexivity|]. split; [reflexivity|]. split; [reflexivity|].
  split; [reflexivity|]. split; [split|].
  - simpl fst. eapply Forall_impl; [exact Hall|]. intros e. apply Hlow.
  - simpl snd. intros c ->. simpl in Ho.
    split; [now apply Hlow|]. split; [|apply Ho].
    unfold invoke in Hr.
    destruct (run_terminated _ _ _ _ _ _ _ Hr) as (n0 & c0 & _ & _ & Hend).
    destruct c as [s σ]. destruct n0; try discriminate Hend.
    apply next_generator_end in Hend.
    pose proof (Hlow _ Ho) as Hq. simpl fst in Hq. rewrite Hq in Hend.
    simpl in Hend. now apply Z.leb_le.
  - intros Hno Hb.
    assert (Hl : forall j,
               Py.float_ge (parse_score W (llm W j)) quality_threshold = false).
    { intros j. rewrite (parse_score_unparseable _ (Hbad j)). reflexivity. }
    assert (Hk : Z.to_nat (max_iterations (initial_state q m)
                           - (iteration (initial_state q m) + 1))
                 = Z.to_nat (m - 1)) by (simpl; f_equal; lia).
    destruct (low_scores_loop (Z.to_nat (m - 1)) Hno Hl (initial_state q m)
                store0 b eq_refl Hk Hb) as (tr' & c & Hr' & _ & Hit & _).
    unfold invoke in Hr. rewrite Hr in Hr'. injection Hr' as -> ->.
    exists tr', c. split; [reflexivity|]. rewrite Hit. simpl. lia.
Qed.
End ReflectionFacts.

(** C3, as stated, fails.  With a critic that scores 9.0 and
    [max_iterations = 1] the run ends after the generator's first run, with
    no critique at all; with the same critic and [max_iterations = 3] the
    generator runs twice; with a critic that always scores 5.0 and
    [max_iterations = 3] the run has two generate-then-critique cycles,
    not three. *)
Lemma reflection_cycles_counterexample :
  (let r := Reflection.invoke Stub.praising 25
              (Reflection.initial_state Stub.demo_query 1) in
   Reflection.parse_score Stub.praising (llm Stub.praising 0) = 9%float /\
   (exists c, snd r = Terminated c) /\
   map fst (fst r) = [Reflection.Generator] /\
   Reflection.cycles (map fst (fst r)) <> 1) /\
  (let r := Reflection.invoke Stub.praising 25
              (Reflection.initial_state Stub.demo_query 3) in
   (exists c, snd r = Terminated c) /\
   map fst (fst r) =
     [Reflection.Generator; Reflection.Critic; Reflection.Generator] /\
   Reflection.runs_of Reflection.Generator (map fst (fst r)) <> 1) /\
  (let r := Reflection.invoke Stub.blaming 25
              (Reflection.initial_state Stub.demo_query 3) in
   (forall k,
      Reflection.parse_score Stub.blaming (llm Stub.blaming k) = 5%float) /\
   (exists c, snd r = Terminated c) /\
   map fst (fst r) =
     [Reflection.Generator; Reflection.Critic; Reflection.Generator;
      Reflection.Critic; Reflection.Generator] /\
   Reflection.cycles (map fst (fst r)) <> 3).
Proof.
  split; [|split].
  - vm_compute. repeat split; try discriminate. eexists; reflexivity.
  - vm_compute. repeat split; try discriminate. eexists; reflexivity.
  - cbv zeta. split; [intros k; vm_compute; reflexivity|].
    vm_compute. repeat split; try discriminate. eexists; reflexivity.
Qed.

Lemma reflection_cycles_without_tools_witness :
  (exists tr c,
     Reflection.invoke Stub.praising 25
       (Reflection.initial_state Stub.demo_query 3) = (tr, Terminated c) /\
     map fst tr =
       [Reflection.Generator; Reflection.Critic; Reflection.Generator] /\
     Reflection.cycles (map fst tr) = 1) /\
  (exists tr c,
     Reflection.invoke Stub.blaming 25
       (Reflection.initial_state Stub.demo_query 3) = (tr, Terminated c) /\
     map fst tr = Reflection.alternating (Z.to_nat 3 - 1) /\
     Reflection.runs_of Reflection.Generator (map fst tr) = Z.to_nat 3 /\
     Reflection.cycles (map fst tr) = Z.to_nat 3 - 1 /\
     Reflection.iteration (fst c) = 3%Z).
Proof.
  split.
  - apply (proj1 (reflection_cycles_without_tools Stub.praising
                    Stub.demo_query 3 25 (fun k => eq_refl))).
    + vm_compute. reflexivity.
    + lia.
    + lia.
  - apply (proj2 (reflection_cycles_without_tools Stub.blaming
                    Stub.demo_query 3 25 (fun k => eq_refl))).
    + intros k. vm_compute. reflexivity.
    + lia.
    + simpl. lia.
Defined.

Lemma critic_defaults_unparseable_score_witness :
  exists c',
    Reflection.exec Stub.rambling Reflection.Critic (Stub.first_draft, store0)
      = Some c' /\
    Reflection.quality_score (fst c') = 7.5%float /\
    Reflection.critique (fst c') = llm Stub.rambling 0 /\
    Reflection.next Reflection.Critic c' = inr (Goto Reflection.Generator) /\
    is_Some (Reflection.exec Stub.rambling Reflection.Generator c').
Proof.
  apply (critic_defaults_unparseable_score Stub.rambling Stub.first_draft store0).
  - discriminate.
  - left. reflexivity.
Defined.

Lemma unparseable_critiques_end_on_iterations_witness :
  exists tr c,
    Reflection.invoke Stub.rambling 25
      (Reflection.initial_state Stub.demo_query 2) = (tr, Terminated c) /\
    Reflection.iteration (fst c) = Z.max 2 1.
Proof.
  refine (proj2 (proj2 (proj2 (proj2 (proj2
            (unparseable_critiques_end_on_iterations Stub.rambling
               Stub.demo_query 2 25 _)))))
            (fun k => eq_refl) _).
  - intros k. left. reflexivity.
  - simpl. lia.
Defined.

(** ** Adaptive Multi-Agent *)

Section MultiAgentFacts.
Import MultiAgent.
Variable W : World.

(** Splits a hypothesis [m >>= f = Some r] into the results of its steps. *)
Ltac eff_inv H :=
  unfold mbind, eff_mbind, eff_bind in H;
  repeat match type of H with
         | match ?m with _ => _ end = Some _ =>
             let E := fresh "E" in
             destruct m as [[? ?]|] eqn:E; [|discriminate H]
         end.

Lemma get_or_inv (field : option Loc) (dflt : Obj) σ l σ' :
  get_or field dflt W σ = Some (l, σ') ->
  l < length (heap σ') \/ field = Some l.
Proof.
  destruct field as [l0|]; simpl.
  - intros [= -> _]. now right.
  - unfold alloc. intros [= <- <-]. simpl. rewrite length_app. simpl. left. lia.
Qed.

Lemma get_or_heap (field : option Loc) (dflt : Obj) σ l σ' :
  get_or field dflt W σ = Some (l, σ') ->
  forall l0, l0 < length (heap σ) -> deref (heap σ') l0 = deref (heap σ) l0.
Proof.
  destruct field as [l1|]; simpl.
  - now intros [= _ <-].
  - unfold alloc. intros [= _ <-] l0 Hl0. simpl. unfold deref.
    now apply lookup_app_l.
Qed.

(** [state.get(key, default)] yields the object in the state, or an empty
    fresh one. *)
Lemma get_or_deref (field : option Loc) (dflt : Obj) σ l σ' :
  get_or field dflt W σ = Some (l, σ') ->
  deref (heap σ') l =
    match field with
    | Some l0 => deref (heap σ) l0
    | None => Some dflt
    end.
Proof.
  destruct field as [l1|]; simpl.
  - now intros [= <- <-].
  - unfold alloc. intros [= <- <-]. simpl. unfold deref.
    now apply list_lookup_middle.
Qed.

Lemma deref_lt (h : list Obj) l o : deref h l = Some o -> l < length h.
Proof. unfold deref. intros H. eapply lookup_lt_Some, H. Qed.

Lemma list_append_inv l x σ u σ' :
  list_append l x W σ = Some (u, σ') ->
  exists xs,
    deref (heap σ) l = Some (OList xs) /\
    heap σ' = <[l := OList (xs ++ [x])]> (heap σ).
Proof.
  unfold list_append. destruct (deref (heap σ) l) as [[xs|d]|]; try discriminate.
  intros [= _ <-]. eauto.
Qed.

Lemma dict_setitem_inv l k v σ u σ' :
  dict_setitem l k v W σ = Some (u, σ') ->
  exists d,
    deref (heap σ) l = Some (ODict d) /\
    heap σ' = <[l := ODict (<[k := v]> d)]> (heap σ).
Proof.
  unfold dict_setitem. destruct (deref (heap σ) l) as [[xs|d]|]; try discriminate.
  intros [= _ <-]. eauto.
Qed.

Lemma dict_items_inv l σ d σ' :
  dict_items l W σ = Some (d, σ') -> σ' = σ.
Proof.
  unfold dict_items. destruct (deref (heap σ) l) as [[xs|d']|]; try discriminate.
  now intros [= _ <-].
Qed.

(** The statements every specialist shares: after them the list of
    completed agents, the very object the input state refers to when it
    has one, ends with the specialist's name. *)
Lemma completion_recorded (s : MultiAgentState) name k v σ1 l u2 σ2 σ3 f u4 σ4 σ5 :
  get_or (completed_agents s) (OList []) W σ1 = Some (l, σ2) ->
  list_append l name W σ2 = Some (u2, σ3) ->
  get_or (findings s) (ODict ∅) W σ3 = Some (f, σ4) ->
  dict_setitem f k v W σ4 = Some (u4, σ5) ->
  deref (heap σ5) l = Some (OList (old_completed s (heap σ1) ++ [name])) /\
  (completed_agents s = Some l \/ completed_agents s = None).
Proof.
  intros Hg Ha Hg' Hs.
  pose proof (get_or_deref _ _ _ _ _ Hg) as Hd.
  destruct (list_append_inv _ _ _ _ _ Ha) as (xs & Hl & Hh3).
  destruct (dict_setitem_inv _ _ _ _ _ _ Hs) as (d & Hf & Hh5).
  assert (Hxs : xs = old_completed s (heap σ1)).
  { unfold old_completed, completed_list. rewrite Hl in Hd.
    destruct (completed_agents s) as [l0|]; simpl.
    - now rewrite <- Hd.
    - congruence. }
  assert (Hl3 : deref (heap σ3) l = Some (OList (xs ++ [name]))).
  { rewrite Hh3. unfold deref. apply list_lookup_insert_eq.
    eapply deref_lt, Hl. }
  assert (Hl4 : deref (heap σ4) l = Some (OList (xs ++ [name]))).
  { rewrite (get_or_heap _ _ _ _ _ Hg'); [exact Hl3|]. eapply deref_lt, Hl3. }
  split.
  - rewrite Hh5, <- Hxs. unfold deref.
    rewrite list_lookup_insert_ne; [exact Hl4|]. intros ->. congruence.
  - destruct (completed_agents s) as [l0|]; [left|now right].
    simpl in Hg. now injection Hg as ->.
Qed.

Lemma llm_invoke_inv σ m σ' :
  llm_invoke W σ = Some (m, σ') ->
  m = AIMessage (llm W (calls_llm σ)) [] /\ heap σ' = heap σ.
Proof. unfold llm_invoke. now intros [= <- <-]. Qed.

Lemma llm_with_tools_invoke_inv σ m σ' :
  llm_with_tools_invoke W σ = Some (m, σ') -> heap σ' = heap σ.
Proof. unfold llm_with_tools_invoke. now intros [= _ <-]. Qed.

(** What a specialist other than the synthesizer does: it appends its
    name to the list of completed agents, in place when the input state
    holds one, and leaves [next_agent] as it is. *)
Lemma specialist_runs n (s : MultiAgentState) σ s' σ' :
  is_specialist n = true -> n <> Synthesizer ->
  exec W n (s, σ) = Some (s', σ') ->
  exists l m,
    completed_agents s' = Some l /\
    deref (heap σ') l
      = Some (OList (old_completed s (heap σ) ++ [node_name n])) /\
    (completed_agents s = Some l \/ completed_agents s = None) /\
    next_agent s' = next_agent s /\
    messages s' = (messages s ++ [m])%list.
Proof.
  intros Hsp Hns He. unfold exec, exec_node in He. simpl fst in He. simpl snd in He.
  destruct (node_fn n s W σ) as [[u σ'']|] eqn:Hn; [|discriminate He].
  injection He as <- <-.
  destruct n; try discriminate Hsp; try congruence;
    unfold node_fn, data_collector_node, technical_analyst_node,
      research_analyst_node, risk_assessor_node in Hn;
    eff_inv Hn;
    match goal with
    | H1 : get_or (completed_agents _) _ _ ?σ1 = Some _,
      H2 : list_append _ _ _ _ = Some _,
      H3 : get_or (findings _) _ _ _ = Some _,
      H4 : dict_setitem _ _ _ _ _ = Some _ |- _ =>
        destruct (completion_recorded _ _ _ _ _ _ _ _ _ _ _ _ _ H1 H2 H3 H4)
          as [Hd Hc]
    end;
    repeat match goal with
           | H : llm_invoke _ _ = Some _ |- _ =>
               apply llm_invoke_inv in H; destruct H as [? H]; rewrite H in Hd
           | H : llm_with_tools_invoke _ _ = Some _ |- _ =>
               apply llm_with_tools_invoke_inv in H; rewrite H in Hd
           | H : world _ _ = Some _ |- _ => unfold world in H; injection H as <- <-
           | H : store _ _ = Some _ |- _ => unfold store in H; injection H as <- <-
           end;
    injection Hn as <- <-; do 2 eexists; repeat split; try exact Hd; try exact Hc.
Qed.

(** The supervisor's validation leaves a name of [valid_agents]. *)
Lemma validated_agent (x : string) :
  Py.mem (if negb (Py.mem x valid_agents) then "data_collector" else x)
         valid_agents = true.
Proof.
  destruct (Py.mem x valid_agents) eqn:E; simpl negb; cbv iota;
    [exact E|reflexivity].
Qed.

Lemma supervisor_runs (s : MultiAgentState) σ s' σ' :
  exec W Supervisor (s, σ) = Some (s', σ') ->
  completed_agents s' = completed_agents s /\
  (exists a, next_agent s' = Some a /\ Py.mem a valid_agents = true) /\
  (exists txt, messages s' = (messages s ++ [AIMessage txt []])%list) /\
  (forall l0, l0 < length (heap σ) -> deref (heap σ') l0 = deref (heap σ) l0).
Proof.
  intros He. unfold exec, exec_node in He. simpl fst in He. simpl snd in He.
  destruct (node_fn Supervisor s W σ) as [[u σ'']|] eqn:Hn; [|discriminate He].
  injection He as <- <-.
  unfold node_fn, supervisor_node in Hn. eff_inv Hn.
  match goal with
  | H1 : get_or (completed_agents _) _ _ _ = Some _,
    H2 : get_or (findings _) _ _ _ = Some _,
    H3 : dict_items _ _ _ = Some _,
    H4 : llm_invoke _ _ = Some _ |- _ =>
      pose proof (get_or_heap _ _ _ _ _ H1) as Hh1;
      pose proof (get_or_heap _ _ _ _ _ H2) as Hh2;
      pose proof (get_or_inv _ _ _ _ _ H1) as Hi1;
      apply dict_items_inv in H3; subst;
      apply llm_invoke_inv in H4; destruct H4 as [-> Hh4]
  end.
  injection Hn as <- <-. split; [reflexivity|]. split; [|split].
  - eexists. split; [reflexivity|]. apply validated_agent.
  - eexists. reflexivity.
  - intros k Hk. simpl snd. rewrite Hh4, Hh2, Hh1; [reflexivity|exact Hk|].
    match goal with
    | H : get_or (completed_agents _) _ _ _ = Some (_, ?σ1) |- _ < length (heap ?σ1) =>
        destruct (completed_agents s); simpl in H;
        [injection H as _ <-; exact Hk
        |unfold alloc in H; injection H as _ <-; simpl; rewrite length_app; lia]
    end.
Qed.

Lemma tools_runs_multi (s : MultiAgentState) σ s' σ' :
  exec W Tools (s, σ) = Some (s', σ') ->
  completed_agents s' = completed_agents s /\
  next_agent s' = next_agent s /\ σ' = σ.
Proof.
  intros He. unfold exec, exec_node, node_fn, tools in He.
  simpl fst in He. simpl snd in He. unfold mbind, eff_mbind, eff_bind in He.
  unfold tool_node in He.
  destruct (Py.index (messages s) (-1)) as [[| |c [|tc tcs]|]|];
    try discriminate He.
  simpl in He. now injection He as <- <-.
Qed.

(** What the synthesizer does: its reply carries no tool request, and its
    name is appended to the list of completed agents, in place when the
    input state holds one. *)
Lemma synthesizer_runs (s : MultiAgentState) σ s' σ' :
  exec W Synthesizer (s, σ) = Some (s', σ') ->
  exists l txt xs,
    completed_agents s' = Some l /\
    deref (heap σ') l = Some (OList (xs ++ ["synthesizer"])) /\
    (completed_agents s = Some l -> deref (heap σ) l = Some (OList xs)) /\
    (completed_agents s = Some l \/ completed_agents s = None) /\
    messages s' = (messages s ++ [AIMessage txt []])%list /\
    next_agent s' = next_agent s.
Proof.
  intros He. unfold exec, exec_node in He. simpl fst in He. simpl snd in He.
  destruct (node_fn Synthesizer s W σ) as [[u σ'']|] eqn:Hn; [|discriminate He].
  injection He as <- <-.
  unfold node_fn, synthesizer_node in Hn. eff_inv Hn.
  match goal with
  | H1 : get_or (findings _) _ _ _ = Some (?f, ?σ1),
    H2 : dict_items _ _ _ = Some _,
    H3 : llm_invoke _ _ = Some _,
    H4 : get_or (completed_agents _) _ _ _ = Some _,
    H5 : list_append _ _ _ _ = Some _ |- _ =>
      pose proof (get_or_deref _ _ _ _ _ H1) as Hf;
      pose proof (get_or_heap _ _ _ _ _ H1) as Hh1;
      assert (Hfd : exists d, deref (heap σ1) f = Some (ODict d))
        by (unfold dict_items in H2;
            destruct (deref (heap σ1) f) as [[?|?]|]; try discriminate H2; eauto);
      apply dict_items_inv in H2; subst;
      apply llm_invoke_inv in H3; destruct H3 as [-> Hh3];
      pose proof (get_or_deref _ _ _ _ _ H4) as Hd4;
      destruct (list_append_inv _ _ _ _ _ H5) as (xs & Hl & Hh5)
  end.
  injection Hn as <- <-. simpl.
  do 3 eexists. split; [reflexivity|]. split; [|split; [|split]].
  - rewrite Hh5. unfold deref. apply list_lookup_insert_eq. eapply deref_lt, Hl.
  - intros Hs.
    match goal with
    | H : get_or (completed_agents s) _ _ _ = Some _ |- _ =>
        rewrite Hs in H; unfold get_or, mret, eff_mret, eff_ret in H;
        injection H as <-
    end.
    rewrite Hh3 in Hl.
    match goal with
    | H : get_or (findings s) _ _ _ = Some _ |- _ =>
        destruct (findings s) as [f0|];
        unfold get_or, mret, eff_mret, eff_ret, alloc in H;
        injection H as <- <-
    end; [exact Hl|].
    simpl in Hl. pose proof (deref_lt _ _ _ Hl) as Hlt.
    rewrite length_app in Hlt. simpl in Hlt. unfold deref in *.
    match goal with
    | |- heap σ !! ?k = _ =>
        destruct (decide (k = length (heap σ))) as [Heq|Hne];
        [rewrite Heq, list_lookup_middle in Hl by reflexivity; discriminate Hl
        |rewrite lookup_app_l in Hl by lia; exact Hl]
    end.
  - match goal with
    | H : get_or (completed_agents s) _ _ _ = Some _ |- _ =>
        destruct (completed_agents s) as [k|]; [left|now right];
        unfold get_or, mret, eff_mret, eff_ret in H; now injection H as -> _
    end.
  - split; [eexists; reflexivity|reflexivity].
Qed.

Lemma mem_app (x : string) (l1 l2 : list string) :
  Py.mem x (l1 ++ l2) = Py.mem x l1 || Py.mem x l2.
Proof. unfold Py.mem. apply existsb_app. Qed.

Lemma done_false_mem (s : MultiAgentState) (h : list Obj) :
  synthesizer_done s h = Some false ->
  Py.mem "synthesizer" (old_completed s h) = false.
Proof.
  unfold synthesizer_done, old_completed, completed_list.
  destruct (completed_agents s) as [l|]; simpl; [|reflexivity].
  destruct (deref h l) as [[xs|d]|]; simpl; try reflexivity.
  now intros [= ->].
Qed.

Lemma done_after_append (s : MultiAgentState) (h : list Obj) l xs name :
  completed_agents s = Some l ->
  deref h l = Some (OList (xs ++ [name])) ->
  synthesizer_done s h
    = Some (Py.mem "synthesizer" xs || String.eqb "synthesizer" name).
Proof.
  intros Hc Hd. unfold synthesizer_done. rewrite Hc, Hd, mem_app.
  unfold Py.mem at 2. simpl existsb. now rewrite orb_false_r.
Qed.

(** Only the synthesizer records itself as completed. *)
Lemma not_done_preserved n (s : MultiAgentState) σ s' σ' :
  n <> Synthesizer ->
  exec W n (s, σ) = Some (s', σ') ->
  synthesizer_done s (heap σ) = Some false ->
  synthesizer_done s' (heap σ') = Some false.
Proof.
  intros Hn He Hd.
  destruct (is_specialist n) eqn:Hsp.
  - destruct (specialist_runs n s σ s' σ' Hsp Hn He)
      as (l & m & Hc & Hl & _ & _ & _).
    rewrite (done_after_append s' (heap σ') l _ _ Hc Hl).
    rewrite (done_false_mem s (heap σ) Hd).
    destruct n; try discriminate Hsp; try congruence; reflexivity.
  - destruct n; try discriminate Hsp.
    + destruct (supervisor_runs s σ s' σ' He) as (Hc & _ & _ & Hh).
      unfold synthesizer_done in *. rewrite Hc.
      destruct (completed_agents s) as [l|]; [|reflexivity].
      destruct (deref (heap σ) l) as [o|] eqn:Hl; [|discriminate Hd].
      rewrite Hh, Hl; [exact Hd|]. eapply deref_lt, Hl.
    + destruct (tools_runs_multi s σ s' σ' He) as (Hc & _ & ->).
      unfold synthesizer_done in *. now rewrite Hc.
Qed.

(** After the synthesizer has run, the router answers ["end"], whatever
    [next_agent] holds, and the graph terminates. *)
Lemma synthesizer_then_end (s : MultiAgentState) σ s' σ' :
  exec W Synthesizer (s, σ) = Some (s', σ') ->
  (forall a, route_to_agent (with_next_agent a s') (heap σ') = Some "end") /\
  route_to_agent s' (heap σ') = Some "end" /\
  next Synthesizer (s', σ') = inr END.
Proof.
  intros He.
  destruct (synthesizer_runs s σ s' σ' He)
    as (l & txt & xs & Hc & Hl & _ & _ & Hm & _).
  assert (Hd : synthesizer_done s' (heap σ') = Some true).
  { rewrite (done_after_append s' (heap σ') l xs _ Hc Hl).
    now rewrite orb_true_r. }
  assert (Hr : route_to_agent s' (heap σ') = Some "end").
  { unfold route_to_agent. rewrite Hm, index_last. simpl. now rewrite Hd. }
  split; [|split].
  - intros a. unfold route_to_agent. simpl messages.
    rewrite Hm, index_last. simpl.
    replace (synthesizer_done (with_next_agent a s') (heap σ'))
      with (synthesizer_done s' (heap σ')) by reflexivity.
    now rewrite Hd.
  - exact Hr.
  - unfold next, fst, snd. rewrite Hr. reflexivity.
Qed.

(** C5.  In a run that starts without the synthesizer among the completed
    agents, whenever a node leaves a state in which ["synthesizer"] is in
    the list of completed agents, that node is the synthesizer, the router
    answers ["end"] on that state, also with any other [next_agent] in it,
    and the graph goes to END. *)
Theorem synthesizer_completed_ends_run (c0 : Cfg MultiAgentState) (b : nat) :
  synthesizer_done (fst c0) (heap (snd c0)) = Some false ->
  Forall (fun e =>
            forall c',
              exec W (fst e) (snd e) = Some c' ->
              synthesizer_done (fst c') (heap (snd c')) = Some true ->
              fst e = Synthesizer /\
              (forall a, route_to_agent (with_next_agent a (fst c'))
                                        (heap (snd c')) = Some "end") /\
              route_to_agent (fst c') (heap (snd c')) = Some "end" /\
              next (fst e) c' = inr END)
         (fst (invoke W b c0)).
Proof.
  intros H0. unfold invoke.
  destruct (run (exec W) next b Supervisor c0) as [tr o] eqn:Hr. simpl fst.
  pose proof (run_trace_chain _ _ _ _ _ _ _ Hr) as Hc.
  assert (Hinv : Forall (fun e => synthesizer_done (fst (snd e))
                                    (heap (snd (snd e))) = Some false) tr).
  { apply (chain_Forall (step (exec W) next)); [|exact Hc|].
    - intros [n [s σ]] [n' [s' σ']] Ha [He Hx]. simpl in *.
      destruct (decide (n = Synthesizer)) as [->|Hn].
      + destruct (synthesizer_then_end s σ s' σ' He) as (_ & _ & Hend).
        rewrite Hend in Hx. discriminate Hx.
      + exact (not_done_preserved n s σ s' σ' Hn He Ha).
    - intros a Ha.
      destruct (run_trace_head _ _ _ _ _ _ _ Hr) as [->|[tr' ->]];
        [discriminate Ha|]. injection Ha as <-. exact H0. }
  eapply Forall_impl; [exact Hinv|].
  intros [n [s σ]] Ha [s' σ'] He Hd. simpl in *.
  destruct (decide (n = Synthesizer)) as [->|Hn].
  - split; [reflexivity|]. exact (synthesizer_then_end s σ s' σ' He).
  - rewrite (not_done_preserved n s σ s' σ' Hn He Ha) in Hd. discriminate Hd.
Qed.

Lemma valid_agent_cases (a : string) :
  Py.mem a valid_agents = true ->
  a = "data_collector" \/ a = "technical_analyst" \/ a = "research_analyst" \/
  a = "risk_assessor" \/ a = "synthesizer".
Proof.
  unfold Py.mem, valid_agents. simpl existsb. rewrite !orb_true_iff.
  rewrite !String.eqb_eq. intuition congruence.
Qed.

(** No name of [valid_agents] is a key of the specialists' path map. *)
Lemma valid_agent_no_path (a : string) :
  Py.mem a valid_agents = true ->
  resolve specialist_paths (Some a) = inl (InvalidRoute a).
Proof.
  intros H. destruct (valid_agent_cases a H) as [->|[->|[->|[->| ->]]]];
    reflexivity.
Qed.

Lemma next_agent_kept n (s : MultiAgentState) σ s' σ' :
  n <> Supervisor ->
  exec W n (s, σ) = Some (s', σ') ->
  next_agent s' = next_agent s.
Proof.
  intros Hn He. destruct (is_specialist n) eqn:Hsp.
  - destruct (decide (n = Synthesizer)) as [->|Hns].
    + now destruct (synthesizer_runs s σ s' σ' He)
        as (l & txt & xs & _ & _ & _ & _ & _ & Hna).
    + now destruct (specialist_runs n s σ s' σ' Hsp Hns He)
        as (l & m & _ & _ & _ & Hna & _).
  - destruct n; try discriminate Hsp; try congruence.
    now destruct (tools_runs_multi s σ s' σ' He) as (_ & Hna & _).
Qed.

(** In every run, once a specialist has run with no tool request on its
    reply and the synthesizer not yet completed, the router returns the
    name the supervisor chose, which is the name of a specialist and no key
    of the specialist's path map: the supervisor is not re-entered and the
    run aborts. *)
Lemma specialist_never_returns_to_supervisor (c0 : Cfg MultiAgentState)
  (b : nat) :
  Forall (fun e =>
            is_specialist (fst e) = true ->
            forall c',
              exec W (fst e) (snd e) = Some c' ->
              from_option has_tool_calls false
                (Py.index (messages (fst c')) (-1)) = false ->
              synthesizer_done (fst c') (heap (snd c')) = Some false ->
              exists a,
                Py.mem a valid_agents = true /\
                route_to_agent (fst c') (heap (snd c')) = Some a /\
                a <> "supervisor" /\
                next (fst e) c' = inl (InvalidRoute a))
         (fst (invoke W b c0)).
Proof.
  unfold invoke.
  destruct (run (exec W) next b Supervisor c0) as [tr o] eqn:Hr. simpl fst.
  pose proof (run_trace_chain _ _ _ _ _ _ _ Hr) as Hc.
  assert (Hinv : Forall (fun e =>
                           fst e = Supervisor \/
                           exists a, next_agent (fst (snd e)) = Some a /\
                                     Py.mem a valid_agents = true) tr).
  { apply (chain_Forall (step (exec W) next)); [|exact Hc|].
    - intros [n [s σ]] [n' [s' σ']] Ha [He Hx]. simpl in *. right.
      destruct (decide (n = Supervisor)) as [->|Hn].
      + now destruct (supervisor_runs s σ s' σ' He) as (_ & Hv & _).
      + rewrite (next_agent_kept n s σ s' σ' Hn He).
        destruct Ha as [Ha|Ha]; [congruence|exact Ha].
    - intros a Ha.
      destruct (run_trace_head _ _ _ _ _ _ _ Hr) as [->|[tr' ->]];
        [discriminate Ha|]. injection Ha as <-. now left. }
  eapply Forall_impl; [exact Hinv|].
  intros [n [s σ]] Ha Hsp [s' σ'] He Hp Hd. simpl in *.
  assert (Hn : n <> Supervisor) by (intros ->; discriminate Hsp).
  destruct Ha as [Ha|(a & Ha & Hv)]; [congruence|].
  exists a. split; [exact Hv|].
  assert (Hm : exists m, messages s' = (messages s ++ [m])%list).
  { destruct (decide (n = Synthesizer)) as [->|Hns].
    - destruct (synthesizer_runs s σ s' σ' He)
        as (l & txt & xs & _ & _ & _ & _ & Hm & _). eauto.
    - destruct (specialist_runs n s σ s' σ' Hsp Hns He)
        as (l & m & _ & _ & _ & _ & Hm). eauto. }
  destruct Hm as [m Hm].
  assert (Hr' : route_to_agent s' (heap σ') = Some a).
  { unfold route_to_agent. rewrite (next_agent_kept n s σ s' σ' Hn He), Ha.
    rewrite Hm, index_last in *. simpl in *. now rewrite Hp, Hd. }
  split; [exact Hr'|]. split.
  - intros ->. discriminate Hv.
  - destruct n; try discriminate Hsp;
      unfold next, fst, snd; rewrite Hr'; now apply valid_agent_no_path.
Qed.

(** Every specialist changes the list that its input state refers to: read
    again after the node has run, and before any update is applied, the
    input state's [completed_agents] has the specialist's name at its end. *)
Lemma specialists_mutate_input_state n (s : MultiAgentState) σ s' σ' l :
  is_specialist n = true ->
  completed_agents s = Some l ->
  exec W n (s, σ) = Some (s', σ') ->
  completed_list s (heap σ')
    = Some (old_completed s (heap σ) ++ [node_name n])%list /\
  completed_agents s' = Some l.
Proof.
  intros Hsp Hl He. destruct (decide (n = Synthesizer)) as [->|Hns].
  - destruct (synthesizer_runs s σ s' σ' He)
      as (l' & txt & xs & Hc & Hd & Hold & [Hc0|Hc0] & _); [|congruence].
    assert (l' = l) as -> by congruence.
    unfold completed_list, old_completed, completed_list.
    rewrite Hl. simpl. rewrite Hd, (Hold Hl). split; [reflexivity|exact Hc].
  - destruct (specialist_runs n s σ s' σ' Hsp Hns He)
      as (l' & m & Hc & Hd & [Hc0|Hc0] & _); [|congruence].
    assert (l' = l) as -> by congruence.
    unfold completed_list at 1. rewrite Hl. simpl. rewrite Hd.
    split; [reflexivity|exact Hc].
Qed.
End MultiAgentFacts.

(** C1 at a concrete run: the supervisor chooses the data collector, whose
    reply carries no tool request.  The router then returns
    ["data_collector"], which the specialists' path map does not hold, and
    the run aborts instead of re-entering the supervisor. *)
Lemma supervisor_not_reentered :
  let r := MultiAgent.invoke Stub.choosing_data_collector 25
             (MultiAgent.initial_cfg Stub.demo_query) in
  map fst (fst r) = [MultiAgent.Supervisor; MultiAgent.DataCollector] /\
  exists c,
    snd r = Aborted (InvalidRoute "data_collector") c /\
    from_option has_tool_calls false
      (Py.index (MultiAgent.messages (fst c)) (-1)) = false /\
    MultiAgent.synthesizer_done (fst c) (heap (snd c)) = Some false /\
    MultiAgent.route_to_agent (fst c) (heap (snd c)) = Some "data_collector" /\
    path_lookup MultiAgent.specialist_paths "data_collector" = None /\
    path_lookup MultiAgent.specialist_paths "supervisor"
      = Some (Goto MultiAgent.Supervisor).
Proof.
  cbv zeta. split; [vm_compute; reflexivity|].
  eexists. split; [vm_compute; reflexivity|].
  repeat split; vm_compute; reflexivity.
Qed.

Lemma synthesizer_completed_ends_run_witness :
  map fst (fst (MultiAgent.invoke Stub.choosing_synthesizer 25
                  (MultiAgent.initial_cfg Stub.demo_query)))
    = [MultiAgent.Supervisor; MultiAgent.Synthesizer] /\
  (exists c,
     snd (MultiAgent.invoke Stub.choosing_synthesizer 25
            (MultiAgent.initial_cfg Stub.demo_query)) = Terminated c /\
     MultiAgent.synthesizer_done (fst c) (heap (snd c)) = Some true) /\
  Forall (fun e =>
            forall c',
              MultiAgent.exec Stub.choosing_synthesizer (fst e) (snd e)
                = Some c' ->
              MultiAgent.synthesizer_done (fst c') (heap (snd c')) = Some true ->
              fst e = MultiAgent.Synthesizer /\
              (forall a,
                 MultiAgent.route_to_agent
                   (MultiAgent.with_next_agent a (fst c')) (heap (snd c'))
                 = Some "end") /\
              MultiAgent.route_to_agent (fst c') (heap (snd c')) = Some "end" /\
              MultiAgent.next (fst e) c' = inr END)
         (fst (MultiAgent.invoke Stub.choosing_synthesizer 25
                 (MultiAgent.initial_cfg Stub.demo_query))).
Proof.
  split; [vm_compute; reflexivity|]. split.
  - eexists. split; [vm_compute; reflexivity|]. vm_compute; reflexivity.
  - apply (synthesizer_completed_ends_run Stub.choosing_synthesizer
             (MultiAgent.initial_cfg Stub.demo_query) 25).
    reflexivity.
Defined.

(** C7 at a concrete state: on the initial state of [invoke_agent], the
    data collector and the synthesizer each change the list that the input
    state holds, and the data collector the dict as well, before any
    update is applied. *)
Lemma specialists_mutate_caller_state :
  let W := Stub.choosing_data_collector in
  let s := fst (MultiAgent.initial_cfg Stub.demo_query) in
  let σ := snd (MultiAgent.initial_cfg Stub.demo_query) in
  MultiAgent.completed_list s (heap σ) = Some [] /\
  (MultiAgent.findings_dict s (heap σ) ≫= (fun d => d !! "data_collection"))
    = None /\
  (exists u σ',
     MultiAgent.data_collector_node s W σ = Some (u, σ') /\
     MultiAgent.completed_list s (heap σ') = Some ["data_collector"] /\
     (MultiAgent.findings_dict s (heap σ') ≫= (fun d => d !! "data_collection"))
       = Some "Stock data gathered") /\
  (exists u σ',
     MultiAgent.synthesizer_node s W σ = Some (u, σ') /\
     MultiAgent.completed_list s (heap σ') = Some ["synthesizer"]).
Proof.
  cbv zeta. split; [reflexivity|]. split; [vm_compute; reflexivity|]. split.
  - do 2 eexists. split; [vm_compute; reflexivity|].
    split; vm_compute; reflexivity.
  - do 2 eexists. split; [vm_compute; reflexivity|]. vm_compute; reflexivity.
Qed.

(** The nodes of the other three patterns leave every object alone. *)
Lemma other_patterns_keep_heap (W : World) :
  (forall n c c', ReAct.exec W n c = Some c' -> heap (snd c') = heap (snd c)) /\
  (forall n c c', PlanExecute.exec W n c = Some c' ->
                  heap (snd c') = heap (snd c)) /\
  (forall n c c', Reflection.exec W n c = Some c' ->
                  heap (snd c') = heap (snd c)).
Proof.
  split; [|split]; intros n [s σ] c' He.
  - destruct n; unfold ReAct.exec, exec_node, ReAct.node_fn in He;
      simpl fst in He; simpl snd in He.
    + unfold ReAct.reasoning_node, mbind, eff_mbind, eff_bind,
        llm_with_tools_invoke in He. simpl in He. now injection He as <-.
    + unfold ReAct.tools, mbind, eff_mbind, eff_bind, tool_node in He.
      destruct (Py.index (ReAct.messages s) (-1)) as [[| |c [|tc tcs]|]|];
        try discriminate He. simpl in He. now injection He as <-.
  - destruct n; unfold PlanExecute.exec, exec_node, PlanExecute.node_fn in He;
      simpl fst in He; simpl snd in He.
    + unfold PlanExecute.planner_node, mbind, eff_mbind, eff_bind,
        llm_invoke, lift in He. simpl in He. now injection He as <-.
    + unfold PlanExecute.executor_node in He.
      destruct (_ <=? _)%Z in He.
      * simpl in He. now injection He as <-.
      * unfold mbind, eff_mbind, eff_bind, lift, llm_with_tools_invoke in He.
        destruct (Py.index _ _); [|discriminate He].
        simpl in He. now injection He as <-.
    + unfold PlanExecute.tools, mbind, eff_mbind, eff_bind, tool_node in He.
      destruct (Py.index (PlanExecute.messages s) (-1)) as [[| |c [|tc tcs]|]|];
        try discriminate He. simpl in He. now injection He as <-.
    + unfold PlanExecute.synthesizer_node, mbind, eff_mbind, eff_bind,
        llm_invoke in He. simpl in He. now injection He as <-.
  - destruct n; unfold Reflection.exec, exec_node, Reflection.node_fn in He;
      simpl fst in He; simpl snd in He.
    + unfold Reflection.generator_node, mbind, eff_mbind, eff_bind,
        llm_with_tools_invoke in He. simpl in He. now injection He as <-.
    + unfold Reflection.critic_node, mbind, eff_mbind, eff_bind, lift,
        llm_invoke, world in He.
      destruct (Py.index _ _); [|discriminate He].
      simpl in He. now injection He as <-.
    + unfold Reflection.tools, mbind, eff_mbind, eff_bind, tool_node in He.
      destruct (Py.index (Reflection.messages s) (-1)) as [[| |c [|tc tcs]|]|];
        try discriminate He. simpl in He. now injection He as <-.
Qed.

(** ** The state reducer *)

Section StateContainerFacts.
Import StateContainer.
Variable schema : gmap string Policy.

Lemma elements_difference_nil (X Y : gset string) :
  X ⊆ Y -> elements (X ∖ Y) = [].
Proof.
  intros HXY. assert (X ∖ Y = ∅) as -> by set_solver.
  apply elements_empty.
Qed.

Lemma apply_empty (state : gmap string Value) :
  apply schema state ∅ = inr state.
Proof.
  unfold apply. rewrite dom_empty_L, elements_difference_nil by set_solver.
  rewrite map_imap_empty. now rewrite map_empty_union.
Qed.

(** A valid partial update is applied field by field. *)
Lemma apply_valid (state partial : gmap string Value) :
  valid schema state partial ->
  exists state',
    apply schema state partial = inr state' /\
    (forall field, partial !! field = None ->
                   state' !! field = state !! field) /\
    (forall field new,
        partial !! field = Some new -> schema !! field = Some Replace ->
        state' !! field = Some new) /\
    (forall field n,
        partial !! field = Some (VMessages n) ->
        schema !! field = Some Append ->
        state' !! field = Some (VMessages (sequence_at state field ++ n))).
Proof.
  intros [Hdom Hval].
  unfold apply. rewrite (elements_difference_nil _ _ Hdom).
  set (merged := map_imap _ partial).
  assert (Hm : forall k,
             merged !! k =
             partial !! k ≫= fun new =>
               schema !! k ≫= fun policy => merge policy (state !! k) new).
  { intros k. unfold merged. apply map_lookup_imap. }
  assert (Hsub : dom partial ⊆ dom merged).
  { intros k Hk. apply elem_of_dom in Hk as [new Hp].
    apply elem_of_dom. rewrite Hm, Hp. simpl.
    assert (Hs : k ∈ dom schema) by (apply Hdom, elem_of_dom; eauto).
    apply elem_of_dom in Hs as [[|] Hs]; rewrite Hs; simpl; [|eauto].
    destruct (Hval k new Hp Hs) as [[n ->] [Hn|[o Ho]]].
    - rewrite Hn. simpl. eauto.
    - rewrite Ho. simpl. eauto. }
  cbv zeta. rewrite (elements_difference_nil _ _ Hsub).
  eexists. split; [reflexivity|]. split; [|split].
  - intros k Hp. apply lookup_union_r. now rewrite Hm, Hp.
  - intros k new Hp Hs. apply lookup_union_Some_l.
    now rewrite Hm, Hp; simpl; rewrite Hs.
  - intros k n Hp Hs. apply lookup_union_Some_l.
    rewrite Hm, Hp. simpl. rewrite Hs. simpl. unfold sequence_at.
    destruct (Hval k _ Hp Hs) as [_ [Hn|[o Ho]]].
    + now rewrite Hn.
    + now rewrite Ho.
Qed.

(** C8.  Applying the empty update returns the state; and a valid partial
    update is applied without error, leaves every field it does not name
    as it was, overwrites every [replace] field it names, and appends the
    messages it gives to every [append] field it names. *)
Theorem apply_merges_by_policy (state partial : gmap string Value) :
  apply schema state ∅ = inr state /\
  (valid schema state partial ->
   exists state',
     apply schema state partial = inr state' /\
     (forall field, partial !! field = None ->
                    state' !! field = state !! field) /\
     (forall field new,
         partial !! field = Some new -> schema !! field = Some Replace ->
         state' !! field = Some new) /\
     (forall field n,
         partial !! field = Some (VMessages n) ->
         schema !! field = Some Append ->
         state' !! field = Some (VMessages (sequence_at state field ++ n)))).
Proof.
  split.
  - apply apply_empty.
  - exact (apply_valid state partial).
Qed.
End StateContainerFacts.

Lemma react_schema_append (field : string) :
  StateContainer.react_schema !! field = Some StateContainer.Append ->
  field = "messages".
Proof.
  unfold StateContainer.react_schema. intros H.
  destruct (decide (field = "messages")) as [|N1]; [assumption|].
  rewrite lookup_insert_ne in H by congruence.
  destruct (decide (field = "iteration")) as [->|N2].
  { rewrite lookup_insert_eq in H. discriminate H. }
  rewrite lookup_insert_ne in H by congruence.
  destruct (decide (field = "max_iterations")) as [->|N3].
  { rewrite lookup_insert_eq in H. discriminate H. }
  rewrite lookup_insert_ne in H by congruence.
  rewrite lookup_empty in H. discriminate H.
Qed.

Lemma react_update_valid (s : ReAct.ReActState) (u : ReAct.Update) :
  StateContainer.valid StateContainer.react_schema
    (StateContainer.encode s) (StateContainer.encode_update u).
Proof.
  split.
  - unfold StateContainer.react_schema, StateContainer.encode_update,
      StateContainer.set_field.
    destruct u as [[um|] [ui|] [ux|]]; simpl;
      rewrite ?dom_insert_L, ?dom_empty_L; set_solver.
  - intros field new Hp Hs. apply react_schema_append in Hs as ->.
    unfold StateContainer.encode, StateContainer.encode_update,
      StateContainer.set_field in *.
    destruct u as [[um|] ui ux]; simpl in Hp.
    + rewrite lookup_insert_eq in Hp. injection Hp as <-.
      split; [eauto|]. right. rewrite lookup_insert_eq. eauto.
    + destruct ui, ux; simpl in Hp;
        rewrite ?lookup_insert_ne, ?lookup_empty in Hp by discriminate;
        discriminate Hp.
Qed.

Lemma set_field_lookup (f k : string) (v : option StateContainer.Value)
  (m : gmap string StateContainer.Value) :
  StateContainer.set_field f v m !! k =
    if decide (f = k) then from_option Some (m !! k) v else m !! k.
Proof.
  unfold StateContainer.set_field. destruct v as [v|]; simpl.
  - rewrite lookup_insert. now destruct (decide (f = k)).
  - now destruct (decide (f = k)).
Qed.

Lemma encode_lookup (s : ReAct.ReActState) (k : string) :
  StateContainer.encode s !! k =
    if decide ("messages" = k)
    then Some (StateContainer.VMessages (ReAct.messages s))
    else if decide ("iteration" = k)
         then Some (StateContainer.VInt (ReAct.iteration s))
         else if decide ("max_iterations" = k)
              then Some (StateContainer.VInt (ReAct.max_iterations s))
              else None.
Proof.
  unfold StateContainer.encode. rewrite !lookup_insert, lookup_empty.
  reflexivity.
Qed.

Lemma encode_update_lookup (u : ReAct.Update) (k : string) :
  StateContainer.encode_update u !! k =
    if decide ("messages" = k)
    then StateContainer.VMessages <$> ReAct.u_messages u
    else if decide ("iteration" = k)
         then StateContainer.VInt <$> ReAct.u_iteration u
         else if decide ("max_iterations" = k)
              then StateContainer.VInt <$> ReAct.u_max_iterations u
              else None.
Proof.
  unfold StateContainer.encode_update. rewrite !set_field_lookup, lookup_empty.
  destruct (decide ("messages" = k)) as [<-|];
    [destruct (ReAct.u_messages u); simpl;
     repeat (destruct (decide _); try discriminate);
     destruct (ReAct.u_iteration u), (ReAct.u_max_iterations u); reflexivity|].
  destruct (decide ("iteration" = k)) as [<-|];
    [destruct (ReAct.u_iteration u); simpl;
     repeat (destruct (decide _); try discriminate);
     destruct (ReAct.u_max_iterations u); reflexivity|].
  destruct (decide ("max_iterations" = k));
    destruct (ReAct.u_max_iterations u); reflexivity.
Qed.

Lemma react_schema_lookup (k : string) :
  StateContainer.react_schema !! k =
    if decide ("messages" = k) then Some StateContainer.Append
    else if decide ("iteration" = k) then Some StateContainer.Replace
         else if decide ("max_iterations" = k) then Some StateContainer.Replace
              else None.
Proof.
  unfold StateContainer.react_schema. rewrite !lookup_insert, lookup_empty.
  reflexivity.
Qed.

(** The reducer of the ReAct pattern is the generic one at the schema that
    [ReActState] declares. *)
Lemma react_apply_refines (s : ReAct.ReActState) (u : ReAct.Update) :
  StateContainer.apply StateContainer.react_schema
    (StateContainer.encode s) (StateContainer.encode_update u)
  = inr (StateContainer.encode (ReAct.apply s u)).
Proof.
  destruct (apply_valid StateContainer.react_schema _ _
              (react_update_valid s u)) as (st & -> & Hkeep & Hrep & Happ).
  f_equal. apply map_eq. intros k. rewrite encode_lookup.
  specialize (Hkeep k). specialize (Hrep k). specialize (Happ k).
  unfold StateContainer.sequence_at in Happ.
  rewrite encode_update_lookup, ?encode_lookup, ?react_schema_lookup in *.
  destruct (decide ("messages" = k)) as [<-|].
  { destruct (ReAct.u_messages u) as [um|] eqn:E; simpl in *.
    - rewrite (Happ um eq_refl eq_refl). unfold ReAct.apply. simpl.
      now rewrite E.
    - rewrite (Hkeep eq_refl). unfold ReAct.apply. simpl.
      now rewrite E, app_nil_r. }
  destruct (decide ("iteration" = k)) as [<-|].
  { destruct (ReAct.u_iteration u) as [ui|] eqn:E; simpl in *.
    - rewrite (Hrep _ eq_refl eq_refl). unfold ReAct.apply. simpl.
      now rewrite E.
    - rewrite (Hkeep eq_refl). unfold ReAct.apply. simpl. now rewrite E. }
  destruct (decide ("max_iterations" = k)) as [<-|].
  { destruct (ReAct.u_max_iterations u) as [ux|] eqn:E; simpl in *.
    - rewrite (Hrep _ eq_refl eq_refl). unfold ReAct.apply. simpl.
      now rewrite E.
    - rewrite (Hkeep eq_refl). unfold ReAct.apply. simpl. now rewrite E. }
  now apply Hkeep.
Qed.

Lemma apply_merges_by_policy_witness :
  let schema := StateContainer.react_schema in
  let state := StateContainer.encode Stub.react_before_limit in
  let partial := StateContainer.encode_update Stub.reasoning_update in
  exists state',
    StateContainer.apply schema state partial = inr state' /\
    (forall field, partial !! field = None ->
                   state' !! field = state !! field) /\
    (forall field new,
        partial !! field = Some new ->
        schema !! field = Some StateContainer.Replace ->
        state' !! field = Some new) /\
    (forall field n,
        partial !! field = Some (StateContainer.VMessages n) ->
        schema !! field = Some StateContainer.Append ->
        state' !! field
        = Some (StateContainer.VMessages
                  (StateContainer.sequence_at state field ++ n))).
Proof.
  intros schema state partial.
  apply (proj2 (apply_merges_by_policy schema state partial)).
  apply react_update_valid.
Defined.

(** * Further properties of the code *)

(** ** ReAct: runs of the graph *)

Section ReActRuns.
Import ReAct.
Variable W : World.

Lemma reasoning_runs_cons (n : Node) (nodes : list Node) :
  reasoning_runs (n :: nodes)
  = (if is_reasoning n then 1 else 0) + reasoning_runs nodes.
Proof. unfold reasoning_runs. simpl. now destruct (is_reasoning n). Qed.

Lemma react_reasoning_runs (s : ReActState) σ :
  exec W Reasoning (s, σ) =
    Some (apply s (mkUpdate
                     (Some [response_of (llm_with_tools W (calls_llm_tools σ))])
                     (Some (iteration s + 1)%Z) None),
          mkStore (calls_llm σ) (S (calls_llm_tools σ)) (heap σ)).
Proof. reflexivity. Qed.

Lemma react_next_reasoning (s : ReActState) σ (ms : list Message) m :
  messages s = (ms ++ [m])%list ->
  next Reasoning (s, σ) =
    inr (if (max_iterations s <=? iteration s)%Z then END
         else if has_tool_calls m then Goto Tools else END).
Proof.
  intros Hm. unfold next, fst. rewrite (react_should_continue_last s ms m Hm).
  destruct (_ <=? _)%Z; [reflexivity|]. now destruct (has_tool_calls m).
Qed.

Lemma react_next_tools_pending (s : ReActState) σ :
  next Reasoning (s, σ) = inr (Goto Tools) -> pending s = true.
Proof.
  unfold next, should_continue, pending, fst.
  destruct (Py.index (messages s) (-1)) as [m|]; simpl; [|discriminate].
  destruct (_ <=? _)%Z; [intros H; vm_compute in H; discriminate H|].
  destruct (has_tool_calls m); [reflexivity|].
  intros H; vm_compute in H; discriminate H.
Qed.

(** The tools node runs whenever a request is pending, and touches the
    messages only. *)
Lemma react_tools_runs (s : ReActState) σ :
  pending s = true ->
  exists out,
    exec W Tools (s, σ) = Some (apply s (mkUpdate (Some out) None None), σ).
Proof.
  unfold pending, exec, exec_node, node_fn, tools, tool_node.
  simpl fst. simpl snd. unfold mbind, eff_mbind, eff_bind.
  destruct (Py.index (messages s) (-1)) as [[| |c [|tc tcs]|]|];
    simpl; try discriminate. eauto.
Qed.

(** From the reasoning node with [k] further iterations allowed, a budget
    of [2 * k + 1] nodes is enough to terminate. *)
Lemma react_loop (k : nat) :
  forall (s : ReActState) σ b,
    Z.to_nat (max_iterations s - (iteration s + 1)) = k ->
    2 * k + 1 <= b ->
    exists tr c,
      run (exec W) next b Reasoning (s, σ) = (tr, Terminated c) /\
      length tr <= 2 * k + 1 /\
      1 <= reasoning_runs (map fst tr) <= k + 1 /\
      iteration (fst c)
        = (iteration s + Z.of_nat (reasoning_runs (map fst tr)))%Z /\
      max_iterations (fst c) = max_iterations s.
Proof.
  induction k as [|k IH]; intros s σ b Hk Hb.
  - destruct b as [|b]; [lia|].
    pose proof (react_reasoning_runs s σ) as He.
    set (s1 := apply s _) in He. set (σ1 := mkStore _ _ _) in He.
    assert (Hx : next Reasoning (s1, σ1) = inr END).
    { rewrite (react_next_reasoning s1 σ1 (messages s) _ eq_refl).
      replace (max_iterations s1 <=? iteration s1)%Z with true; [reflexivity|].
      symmetry. apply Z.leb_le. simpl. lia. }
    rewrite (run_end _ _ _ _ _ _ He Hx).
    do 2 eexists. split; [reflexivity|]. unfold reasoning_runs. simpl.
    repeat split; lia.
  - destruct b as [|[|b]]; try lia.
    pose proof (react_reasoning_runs s σ) as He.
    set (r := response_of (llm_with_tools W (calls_llm_tools σ))) in He.
    set (s1 := apply s _) in He. set (σ1 := mkStore _ _ _) in He.
    pose proof (react_next_reasoning s1 σ1 (messages s) r eq_refl) as Hx.
    replace (max_iterations s1 <=? iteration s1)%Z with false in Hx
      by (symmetry; apply Z.leb_gt; simpl; lia).
    destruct (has_tool_calls r) eqn:Ht.
    + destruct (react_tools_runs s1 σ1) as [out Het].
      { unfold pending. simpl. now rewrite index_last. }
      set (s2 := apply s1 _) in Het.
      destruct (IH s2 σ1 b) as (tr & c & Hr & Hlen & Hruns & Hit & Hmx).
      { replace (max_iterations s2) with (max_iterations s) by reflexivity.
        replace (iteration s2) with (iteration s + 1)%Z by reflexivity. lia. }
      { lia. }
      rewrite (run_goto _ _ _ _ _ _ _ He Hx).
      rewrite (run_goto _ _ _ Tools (s1, σ1) (s2, σ1) Reasoning Het eq_refl).
      rewrite Hr. simpl fst. simpl snd.
      do 2 eexists. split; [reflexivity|].
      simpl map. rewrite !reasoning_runs_cons. simpl is_reasoning. cbv iota.
      simpl length. repeat split; try lia.
      * rewrite Hit. replace (iteration s2) with (iteration s + 1)%Z by reflexivity.
        lia.
      * rewrite Hmx. reflexivity.
    + rewrite (run_end _ _ _ _ _ _ He Hx).
      do 2 eexists. split; [reflexivity|]. unfold reasoning_runs. simpl.
      repeat split; lia.
Qed.

(** X1.  From the initial state of [invoke_agent], whatever the model
    replies, the run terminates within [2 * max (m, 1) - 1] nodes, where
    [m] is [max_iterations]; the reasoning node runs at least once and at
    most [max (m, 1)] times, and the final iteration counter is the number
    of its runs. *)
Theorem react_terminates_within_max_iterations (q : string) (m : Z) (b : nat) :
  2 * Z.to_nat (Z.max m 1) - 1 <= b ->
  exists tr c,
    invoke W b (initial_state q m) = (tr, Terminated c) /\
    length tr <= 2 * Z.to_nat (Z.max m 1) - 1 /\
    1 <= reasoning_runs (map fst tr) <= Z.to_nat (Z.max m 1) /\
    iteration (fst c) = Z.of_nat (reasoning_runs (map fst tr)).
Proof.
  intros Hb.
  destruct (react_loop (Z.to_nat (m - 1)) (initial_state q m) store0 b)
    as (tr & c & Hr & Hlen & Hruns & Hit & _).
  - simpl. f_equal; lia.
  - lia.
  - exists tr, c. split; [exact Hr|]. simpl in Hit. repeat split; lia.
Qed.

End ReActRuns.

Lemma react_terminates_within_max_iterations_witness :
  exists tr c,
    ReAct.invoke Stub.requesting 5 (ReAct.initial_state Stub.demo_query 3)
      = (tr, Terminated c) /\
    length tr <= 2 * Z.to_nat (Z.max 3 1) - 1 /\
    1 <= ReAct.reasoning_runs (map fst tr) <= Z.to_nat (Z.max 3 1) /\
    ReAct.iteration (fst c) = Z.of_nat (ReAct.reasoning_runs (map fst tr)).
Proof.
  apply (react_terminates_within_max_iterations Stub.requesting
           Stub.demo_query 3 5).
  simpl. lia.
Defined.

(** ** The step loop: length of a trace *)

Section ExecutorBounds.
Context {Node Cfg : Type}.
Variable exec : Node -> Cfg -> option Cfg.
Variable next : Node -> Cfg -> Error + Dest Node.

(** A run executes at most [budget] nodes. *)
Lemma run_length b n c : length (fst (run exec next b n c)) <= b.
Proof.
  revert n c. induction b as [|b IH]; intros n c; simpl; [lia|].
  destruct (exec n c) as [c'|]; [|simpl; lia].
  destruct (next n c') as [e|[n'|]]; try (simpl; lia).
  specialize (IH n' c'). destruct (run exec next b n' c') as [tr o].
  simpl in *. lia.
Qed.

(** A run that stops on the exhausted budget has executed [budget] nodes. *)
Lemma run_budget_length b n c tr c' :
  run exec next b n c = (tr, StepBudgetExceeded c') -> length tr = b.
Proof.
  revert n c tr. induction b as [|b IH]; intros n c tr; simpl.
  - now intros [= <- _].
  - destruct (exec n c) as [c1|]; [|discriminate].
    destruct (next n c1) as [e|[n'|]]; try discriminate.
    destruct (run exec next b n' c1) as [tr' o'] eqn:Hr.
    intros [= <- ->]. simpl. f_equal. eapply IH, Hr.
Qed.

(** A run that terminates does so at the last node of its trace. *)
Lemma run_terminated_last b n c tr c' :
  run exec next b n c = (tr, Terminated c') ->
  exists tr0 n0 c0,
    tr = (tr0 ++ [(n0, c0)])%list /\
    exec n0 c0 = Some c' /\ next n0 c' = inr END.
Proof.
  revert n c tr. induction b as [|b IH]; intros n c tr; simpl.
  - discriminate.
  - destruct (exec n c) as [c1|] eqn:He; [|discriminate].
    destruct (next n c1) as [e|[n'|]] eqn:Hn; try discriminate.
    + destruct (run exec next b n' c1) as [tr' o'] eqn:Hr.
      intros [= <- ->].
      destruct (IH _ _ _ Hr) as (tr0 & n0 & c0 & -> & H1 & H2).
      exists ((n, c) :: tr0), n0, c0. now split.
    + intros [= <- <-]. exists [], n, c. now split.
Qed.

(** Every entry of a chain but the last has a successor. *)
Lemma chain_has_next {A : Type} (R : A -> A -> Prop) (l : list A) (z : A) :
  chain R (l ++ [z]) -> Forall (fun a => exists b, R a b) l.
Proof.
  induction l as [|a l IH]; intros Hc; [constructor|].
  destruct l as [|a' l].
  - destruct Hc as [Hab _]. repeat constructor. eauto.
  - destruct Hc as [Hab Hc]. constructor; [eauto|]. now apply IH.
Qed.
End ExecutorBounds.

(** ** Plan-Execute: the plan and the executor *)

Lemma isdigit_not_space (c : ascii) :
  Py.isdigit c = true -> Py.isspace c = false.
Proof.
  unfold Py.isdigit, Py.isspace. intros H.
  apply andb_true_iff in H as [H1 H2].
  apply Nat.leb_le in H1. apply Nat.leb_le in H2.
  apply orb_false_iff. split; apply andb_false_iff.
  - right. apply Nat.leb_gt. lia.
  - right. apply Nat.leb_gt. lia.
Qed.

Lemma rstrip_head (c : ascii) (s : string) :
  Py.isspace c = false -> exists r, Py.rstrip (String c s) = String c r.
Proof.
  intros Hc. simpl. rewrite Hc. destruct (Py.rstrip s); eauto.
Qed.

Lemma rstrip_idempotent (s : string) : Py.rstrip (Py.rstrip s) = Py.rstrip s.
Proof.
  induction s as [|c s IH]; [reflexivity|]. simpl.
  destruct (Py.rstrip s) as [|c' r] eqn:E.
  - destruct (Py.isspace c) eqn:Hc; [reflexivity|]. simpl. now rewrite Hc.
  - change (Py.rstrip (String c (String c' r)))
      with (match Py.rstrip (String c' r) with
            | EmptyString =>
                if Py.isspace c then EmptyString else String c EmptyString
            | r' => String c r'
            end).
    now rewrite IH.
Qed.

(** A line that starts with a digit keeps that digit when stripped, and
    stripping the result again changes nothing. *)
Lemma strip_numbered_line (line : string) :
  Py.first_isdigit line = true ->
  Py.strip line = Py.rstrip line /\
  Py.first_isdigit (Py.strip line) = true /\
  Py.truthy (Py.strip line) = true /\
  Py.strip (Py.strip line) = Py.strip line.
Proof.
  destruct line as [|c s]; [discriminate|]. simpl Py.first_isdigit. intros Hd.
  pose proof (isdigit_not_space c Hd) as Hs.
  assert (Hl : Py.strip (String c s) = Py.rstrip (String c s)).
  { unfold Py.strip. simpl Py.lstrip. now rewrite Hs. }
  destruct (rstrip_head c s Hs) as [r Hr].
  rewrite Hl. split; [reflexivity|]. rewrite Hr. simpl. split; [exact Hd|].
  split; [reflexivity|].
  unfold Py.strip. simpl Py.lstrip. rewrite Hs, <- Hr.
  apply rstrip_idempotent.
Qed.

(** X4.  The plan that the planner reads off a reply holds one step for
    each line whose first character is a digit, in the order of the lines:
    the test [line.strip()] never rejects such a line, and a numbered line
    behind leading white space is dropped.  Every step starts with a
    digit, is not empty, and carries no white space at either end. *)
Theorem parse_plan_keeps_numbered_lines (plan_text : string) :
  PlanExecute.parse_plan plan_text
    = Some (map Py.strip
              (List.filter Py.first_isdigit
                 (Py.split_go Py.newline 0 [] plan_text))) /\
  forall p,
    PlanExecute.parse_plan plan_text = Some p ->
    Forall (fun step =>
              Py.first_isdigit step = true /\
              step <> EmptyString /\
              Py.strip step = step) p.
Proof.
  assert (H : PlanExecute.parse_plan plan_text
              = Some (map Py.strip
                        (List.filter Py.first_isdigit
                           (Py.split_go Py.newline 0 [] plan_text)))).
  { unfold PlanExecute.parse_plan. simpl. f_equal. f_equal.
    apply List.filter_ext. intros line.
    destruct (Py.first_isdigit line) eqn:E.
    - destruct (strip_numbered_line line E) as (_ & _ & -> & _). reflexivity.
    - apply andb_false_r. }
  split; [exact H|]. intros p. rewrite H. intros [= <-].
  apply Forall_map. apply List.Forall_forall. intros line Hin.
  apply List.filter_In in Hin as [_ Hd].
  destruct (strip_numbered_line line Hd) as (_ & Hf & Ht & Hi).
  split; [exact Hf|]. split; [|exact Hi].
  intros E. rewrite E in Ht. discriminate Ht.
Qed.

Section PlanExecuteRuns.
Import PlanExecute.
Variable W : World.

(** X6.  The executor node raises exactly when [current_step] lies below
    [- len(plan)], and then before the model is called.  With all steps
    done it answers "All steps completed" without calling the model and
    leaves [current_step] alone; otherwise it calls the tool-bound model
    once and sets [current_step] to its old value plus one, also for a
    negative [current_step] that Python's indexing accepts. *)
Theorem executor_node_bounds (s : PlanExecuteState) (σ : Store) :
  let n := Z.of_nat (length (plan s)) in
  (executor_node s W σ = None <-> (current_step s < - n)%Z) /\
  ((n <= current_step s)%Z ->
   executor_node s W σ
   = Some (mkUpdate (Some [AIMessage "All steps completed" []])
                    None None None None, σ)) /\
  ((- n <= current_step s < n)%Z ->
   executor_node s W σ
   = Some (mkUpdate
             (Some [response_of (llm_with_tools W (calls_llm_tools σ))])
             None None (Some (current_step s + 1)%Z) None,
           mkStore (calls_llm σ) (S (calls_llm_tools σ)) (heap σ))).
Proof.
  cbv zeta. unfold executor_node.
  destruct (Z.leb_spec (Z.of_nat (length (plan s))) (current_step s)) as [Hd|Hl].
  - split; [|split].
    + split; [discriminate|lia].
    + reflexivity.
    + lia.
  - unfold mbind, eff_mbind, eff_bind, lift, Py.index.
    destruct (Z.leb_spec 0 (current_step s)) as [H0|H0].
    + destruct (lookup_lt_is_Some_2 (plan s) (Z.to_nat (current_step s)))
        as [d Hd]; [lia|].
      rewrite Hd. split; [|split]; [split; [discriminate|lia]|lia|reflexivity].
    + destruct (Z.leb_spec (- Z.of_nat (length (plan s))) (current_step s))
        as [H1|H1].
      * destruct (lookup_lt_is_Some_2 (plan s)
                    (Z.to_nat (Z.of_nat (length (plan s)) + current_step s)))
          as [d Hd]; [lia|].
        rewrite Hd. split; [|split]; [split; [discriminate|lia]|lia|reflexivity].
      * split; [|split]; [split; [intros _; lia|reflexivity]|lia|lia].
Qed.

Lemma parse_plan_total (plan_text : string) :
  exists p, parse_plan plan_text = Some p.
Proof. unfold parse_plan. simpl. eauto. Qed.

Lemma next_executor_not_end (c : Cfg PlanExecuteState) :
  next Executor c <> inr END.
Proof.
  unfold next, resolve, should_continue.
  destruct (Py.index (messages (fst c)) (-1)) as [m|]; simpl; [|discriminate].
  destruct (has_tool_calls m); [discriminate|].
  destruct (_ <=? _)%Z; discriminate.
Qed.

(** After the planner, every node runs on the planner's plan, with one call
    of the plain model made and as many calls of the tool-bound model as
    [current_step] counts. *)
Lemma plan_run_counts (s0 : PlanExecuteState) (p : list string) tr :
  parse_plan (llm W 0) = Some p ->
  chain (step (exec W) next) ((Planner, (s0, store0)) :: tr) ->
  Forall (fun e =>
            fst e <> Planner /\
            plan (fst (snd e)) = p /\
            calls_llm (snd (snd e)) = 1 /\
            Z.of_nat (calls_llm_tools (snd (snd e))) = current_step (fst (snd e)))
         tr.
Proof.
  intros Hp Hc. destruct tr as [|[n1 [s1 σ1]] tr]; [constructor|].
  destruct Hc as [[He Hx] Hc]. simpl in He, Hx.
  rewrite (planner_runs W s0 store0 p Hp) in He. injection He as <- <-.
  injection Hx as <-.
  apply (chain_Forall (step (exec W) next)); [|exact Hc|].
  - intros [n [s σ]] [n' [s' σ']] (Hn & Hpl & Hl & Ht) Hs.
    pose proof (step_current_step W _ _ _ _ _ _ Hs) as (Hn' & _).
    destruct Hs as [He Hx]. simpl in *. split; [exact Hn'|].
    destruct n; try congruence.
    + destruct (Z.leb_spec (Z.of_nat (length (plan s))) (current_step s))
        as [Hd|Hlt].
      * rewrite (executor_done W s σ Hd) in He. injection He as <- <-.
        simpl. auto.
      * rewrite (executor_advances W s σ) in He by lia. injection He as <- <-.
        simpl. repeat split; [exact Hpl|exact Hl|lia].
    + unfold exec, exec_node, node_fn, tools in He. simpl in He.
      unfold mbind, eff_mbind, eff_bind in He.
      unfold tool_node in He.
      destruct (Py.index (messages s) (-1)) as [[| |c [|tc tcs]|]|];
        try discriminate He.
      simpl in He. injection He as <- <-. simpl. auto.
    + discriminate Hx.
  - intros a [= <-]. simpl. repeat split; congruence.
Qed.

(** X3.  Whatever plan the planner reads off its reply, the empty plan
    included, a budget of [2 * len(plan) + 3] nodes suffices for the run to
    end through the synthesizer.  The final state holds that plan with
    [current_step = len(plan)]; the plain model has been called twice (by
    the planner and by the synthesizer), the tool-bound model once for
    each step, and the last message is the synthesizer's reply. *)
Theorem plan_execute_terminates (s0 : PlanExecuteState) (p : list string)
  (b : nat) :
  parse_plan (llm W 0) = Some p ->
  2 * length p + 3 <= b ->
  exists tr c,
    invoke W b s0 = (tr, Terminated c) /\
    length tr <= 2 * length p + 3 /\
    plan (fst c) = p /\
    current_step (fst c) = Z.of_nat (length p) /\
    calls_llm (snd c) = 2 /\
    calls_llm_tools (snd c) = length p /\
    Py.index (messages (fst c)) (-1) = Some (AIMessage (llm W 1) []).
Proof.
  intros Hp Hb.
  destruct (plan_execute_any_plan W s0 p (2 * length p + 3) Hp)
    as (tr & c & Hr & _ & Hy & _); [lia|].
  exists tr, c. split.
  { apply (run_budget_mono _ _ _ _ _ _ _ _ Hr); [discriminate|exact Hb]. }
  split.
  { pose proof (run_length (exec W) next (2 * length p + 3) Planner
                  (s0, store0)) as Hlen.
    unfold invoke in Hr. rewrite Hr in Hlen. exact Hlen. }
  unfold invoke in Hr.
  destruct (run_terminated _ _ _ _ _ _ _ Hr) as (n0 & [s σ] & Hin & He & Hx).
  pose proof (run_trace_chain _ _ _ _ _ _ _ Hr) as Hc.
  destruct (run_trace_head _ _ _ _ _ _ _ Hr) as [->|[tr' ->]];
    [destruct Hin|].
  pose proof (plan_run_counts s0 p tr' Hp Hc) as Hall.
  assert (Hsyn : In (current_step s) (synthesizer_inputs
                                        ((Planner, (s0, store0)) :: tr'))
                 -> current_step s = Z.of_nat (length p)).
  { rewrite Hy. intros [<-|[]]. reflexivity. }
  destruct Hin as [[= <- <- <-]|Hin]; [discriminate Hx|].
  rewrite List.Forall_forall in Hall.
  destruct (Hall _ Hin) as (_ & Hpl & Hl & Ht). simpl in Hpl, Hl, Ht.
  destruct n0.
  - discriminate Hx.
  - now apply next_executor_not_end in Hx.
  - discriminate Hx.
  - assert (Hcs : current_step s = Z.of_nat (length p)).
    { apply Hsyn. apply list_elem_of_In. unfold synthesizer_inputs.
      apply list_elem_of_omap. exists (Synthesizer, (s, σ)).
      split; [|reflexivity]. apply list_elem_of_In. now right. }
    unfold exec, exec_node, node_fn, synthesizer_node in He. simpl in He.
    unfold mbind, eff_mbind, eff_bind, llm_invoke in He. simpl in He.
    injection He as <-. simpl. rewrite Hl.
    repeat split; [exact Hpl|exact Hcs|lia|].
    apply index_last.
Qed.

(** X5.  A run reads nothing of the initial state but its messages: the
    planner overwrites [plan], [current_step] and [results].  Two initial
    states with the same messages and [completed_steps] give the same
    nodes after the planner and the same outcome. *)
Theorem plan_execute_ignores_caller_plan (s0 s0' : PlanExecuteState)
  (b : nat) :
  messages s0 = messages s0' ->
  completed_steps s0 = completed_steps s0' ->
  1 <= b ->
  snd (invoke W b s0) = snd (invoke W b s0') /\
  tl (fst (invoke W b s0)) = tl (fst (invoke W b s0')) /\
  map fst (fst (invoke W b s0)) = map fst (fst (invoke W b s0')).
Proof.
  intros Hm Hc Hb. destruct b as [|b]; [lia|].
  destruct (parse_plan_total (llm W 0)) as [p Hp].
  unfold invoke.
  rewrite (run_goto _ _ _ _ _ _ _ (planner_runs W s0 store0 p Hp) eq_refl).
  rewrite (run_goto _ _ _ _ _ _ _ (planner_runs W s0' store0 p Hp) eq_refl).
  unfold apply. simpl. rewrite Hm, Hc. repeat split.
Qed.

(** X7.  No node records a completed step or a result: in the state that
    a run of at least one node leaves, [results] is the empty dict the
    planner stored and [completed_steps] is what the caller passed. *)
Theorem plan_execute_records_nothing (s0 : PlanExecuteState) (b : nat) :
  1 <= b ->
  results (fst (outcome_cfg (snd (invoke W b s0)))) = ∅ /\
  completed_steps (fst (outcome_cfg (snd (invoke W b s0))))
    = completed_steps s0.
Proof.
  intros Hb. destruct b as [|b]; [lia|].
  destruct (parse_plan_total (llm W 0)) as [p Hp].
  unfold invoke.
  rewrite (run_goto _ _ _ _ _ _ _ (planner_runs W s0 store0 p Hp) eq_refl).
  simpl snd.
  assert (Hpres : forall n c c',
             results (fst c) = ∅ /\
             completed_steps (fst c) = completed_steps s0 ->
             exec W n c = Some c' ->
             results (fst c') = ∅ /\
             completed_steps (fst c') = completed_steps s0).
  { intros n [s σ] [s' σ'] [Hr0 Hc0] He. simpl in *.
    destruct n; unfold exec, exec_node, node_fn in He; simpl in He.
    - unfold planner_node, mbind, eff_mbind, eff_bind, llm_invoke, lift in He.
      simpl in He. injection He as <- <-. simpl. auto.
    - unfold executor_node in He. destruct (_ <=? _)%Z in He.
      + simpl in He. injection He as <- <-. simpl. auto.
      + unfold mbind, eff_mbind, eff_bind, lift, llm_with_tools_invoke in He.
        destruct (Py.index _ _); [|discriminate He].
        simpl in He. injection He as <- <-. simpl. auto.
    - unfold tools, mbind, eff_mbind, eff_bind, tool_node in He.
      destruct (Py.index (messages s) (-1)) as [[| |c [|tc tcs]|]|];
        try discriminate He.
      simpl in He. injection He as <- <-. simpl. auto.
    - unfold synthesizer_node, mbind, eff_mbind, eff_bind, llm_invoke in He.
      simpl in He. injection He as <- <-. simpl. auto. }
  match goal with
  | |- context [run _ _ b Executor ?c1] =>
      destruct (run (exec W) next b Executor c1) as [tr o] eqn:Hr;
      destruct (run_invariant (exec W) next _ Hpres b Executor c1 tr o)
        as [_ Ho]; [simpl; auto|exact Hr|exact Ho]
  end.
Qed.
End PlanExecuteRuns.

Lemma plan_execute_terminates_witness :
  exists tr c,
    PlanExecute.invoke Stub.rambling 3
      (PlanExecute.initial_state Stub.demo_query) = (tr, Terminated c) /\
    length tr <= 2 * length (@nil string) + 3 /\
    PlanExecute.plan (fst c) = [] /\
    PlanExecute.current_step (fst c) = Z.of_nat (length (@nil string)) /\
    calls_llm (snd c) = 2 /\
    calls_llm_tools (snd c) = length (@nil string) /\
    Py.index (PlanExecute.messages (fst c)) (-1)
      = Some (AIMessage (llm Stub.rambling 1) []).
Proof.
  apply (plan_execute_terminates Stub.rambling
           (PlanExecute.initial_state Stub.demo_query) [] 3).
  - vm_compute. reflexivity.
  - simpl. lia.
Defined.

Lemma plan_execute_ignores_caller_plan_witness :
  let s0 := PlanExecute.initial_state Stub.demo_query in
  let s0' := PlanExecute.mkState [HumanMessage Stub.demo_query]
               Stub.four_steps_plan [] 2 ∅ in
  snd (PlanExecute.invoke Stub.planning 25 s0)
    = snd (PlanExecute.invoke Stub.planning 25 s0') /\
  tl (fst (PlanExecute.invoke Stub.planning 25 s0))
    = tl (fst (PlanExecute.invoke Stub.planning 25 s0')) /\
  map fst (fst (PlanExecute.invoke Stub.planning 25 s0))
    = map fst (fst (PlanExecute.invoke Stub.planning 25 s0')).
Proof.
  cbv zeta.
  apply (plan_execute_ignores_caller_plan Stub.planning
           (PlanExecute.initial_state Stub.demo_query)
           (PlanExecute.mkState [HumanMessage Stub.demo_query]
              Stub.four_steps_plan [] 2 ∅) 25).
  - reflexivity.
  - reflexivity.
  - lia.
Defined.

Lemma plan_execute_records_nothing_witness :
  PlanExecute.results
    (fst (outcome_cfg
            (snd (PlanExecute.invoke Stub.planning 25
                    (PlanExecute.initial_state Stub.demo_query))))) = ∅ /\
  PlanExecute.completed_steps
    (fst (outcome_cfg
            (snd (PlanExecute.invoke Stub.planning 25
                    (PlanExecute.initial_state Stub.demo_query)))))
  = PlanExecute.completed_steps (PlanExecute.initial_state Stub.demo_query).
Proof.
  apply (plan_execute_records_nothing Stub.planning
           (PlanExecute.initial_state Stub.demo_query) 25).
  lia.
Defined.

(** ** Self-Reflection: runs of the graph *)

Section ReflectionRuns.
Import Reflection.
Variable W : World.

Lemma runs_of_cons (n n' : Node) (nodes : list Node) :
  runs_of n (n' :: nodes)
  = (if node_eqb n n' then 1 else 0) + runs_of n nodes.
Proof. unfold runs_of. simpl. now destruct (node_eqb n n'). Qed.

Lemma reflection_tools_runs (s : ReflectionState) σ (ms : list Message) m :
  messages s = (ms ++ [m])%list -> has_tool_calls m = true ->
  exists out,
    exec W Tools (s, σ)
    = Some (apply s (mkUpdate (Some out) None None None None None), σ).
Proof.
  intros Hm Ht. unfold exec, exec_node, node_fn, tools, tool_node.
  simpl fst. simpl snd. unfold mbind, eff_mbind, eff_bind.
  rewrite Hm, index_last.
  destruct m as [| |c [|tc tcs]|]; try discriminate Ht. eauto.
Qed.

Lemma requesting_response (r : Reply) :
  r_tool_calls r <> [] -> has_tool_calls (response_of r) = true.
Proof. destruct r as [c [|tc tcs]]; simpl; congruence. Qed.

(** With a generator whose every reply requests a tool, the generator and
    the tools node alternate for as long as the budget lasts. *)
Lemma requesting_loop :
  (forall k, r_tool_calls (llm_with_tools W k) <> []) ->
  forall b,
    (forall (s : ReflectionState) σ,
       exists tr c,
         run (exec W) next b Generator (s, σ) = (tr, StepBudgetExceeded c) /\
         runs_of Critic (map fst tr) = 0 /\
         runs_of Generator (map fst tr) = Nat.div2 (S b) /\
         iteration (fst c) = (iteration s + Z.of_nat (Nat.div2 (S b)))%Z /\
         calls_llm (snd c) = calls_llm σ) /\
    (forall (s : ReflectionState) σ ms m,
       messages s = (ms ++ [m])%list -> has_tool_calls m = true ->
       exists tr c,
         run (exec W) next b Tools (s, σ) = (tr, StepBudgetExceeded c) /\
         runs_of Critic (map fst tr) = 0 /\
         runs_of Generator (map fst tr) = Nat.div2 b /\
         iteration (fst c) = (iteration s + Z.of_nat (Nat.div2 b))%Z /\
         calls_llm (snd c) = calls_llm σ).
Proof.
  intros Hreq. induction b as [|b [IHg IHt]].
  - split; intros; do 2 eexists; (split; [reflexivity|]);
      unfold runs_of; simpl; repeat split; lia.
  - split.
    + intros s σ.
      pose proof (generator_runs W s σ) as He.
      set (r := response_of (llm_with_tools W (calls_llm_tools σ))) in He.
      set (s1 := apply s _) in He. set (σ1 := mkStore _ _ _) in He.
      assert (Ht : has_tool_calls r = true) by apply requesting_response, Hreq.
      pose proof (next_generator s1 σ1 (messages s) r eq_refl) as Hx.
      rewrite Ht in Hx.
      destruct (IHt s1 σ1 (messages s) r eq_refl Ht)
        as (tr & c & Hr & Hc & Hg & Hit & Hl).
      rewrite (run_goto _ _ _ _ _ _ _ He Hx), Hr. simpl fst. simpl snd.
      do 2 eexists. split; [reflexivity|]. simpl map.
      rewrite !runs_of_cons. simpl node_eqb. cbv iota.
      split; [exact Hc|]. split; [simpl; now rewrite Hg|]. split; [|exact Hl].
      rewrite Hit. replace (iteration s1) with (iteration s + 1)%Z by reflexivity.
      change (Nat.div2 (S (S b))) with (S (Nat.div2 b)). lia.
    + intros s σ ms m Hm Ht.
      destruct (reflection_tools_runs s σ ms m Hm Ht) as [out He].
      set (s1 := apply s _) in He.
      destruct (IHg s1 σ) as (tr & c & Hr & Hc & Hg & Hit & Hl).
      rewrite (run_goto _ _ _ Tools (s, σ) (s1, σ) Generator He eq_refl), Hr.
      simpl fst. simpl snd.
      do 2 eexists. split; [reflexivity|]. simpl map.
      rewrite !runs_of_cons. simpl node_eqb. cbv iota.
      split; [exact Hc|]. split; [exact Hg|]. split; [exact Hit|exact Hl].
Qed.

(** X8.  The router tests for a tool request before it tests the iteration
    limit.  When every reply of the generator requests a tool, no budget
    lets the run end: the generator and the tools node use it up, the
    critic never runs, the plain model is never called, and the iteration
    counter grows past every [max_iterations]. *)
Theorem reflection_requests_outrun_limit (s0 : ReflectionState) (b : nat) :
  (forall k, r_tool_calls (llm_with_tools W k) <> []) ->
  exists tr c,
    invoke W b s0 = (tr, StepBudgetExceeded c) /\
    length tr = b /\
    runs_of Critic (map fst tr) = 0 /\
    runs_of Generator (map fst tr) = Nat.div2 (S b) /\
    iteration (fst c) = (iteration s0 + Z.of_nat (Nat.div2 (S b)))%Z /\
    calls_llm (snd c) = 0.
Proof.
  intros Hreq. destruct (requesting_loop Hreq b) as [Hg _].
  destruct (Hg s0 store0) as (tr & c & Hr & Hc & Hgn & Hit & Hl).
  exists tr, c. split; [exact Hr|].
  split; [exact (run_budget_length _ _ _ _ _ _ _ Hr)|].
  repeat split; assumption.
Qed.


End ReflectionRuns.

Lemma reflection_requests_outrun_limit_witness :
  exists tr c,
    Reflection.invoke Stub.requesting 25
      (Reflection.initial_state Stub.demo_query 3)
    = (tr, StepBudgetExceeded c) /\
    length tr = 25 /\
    Reflection.runs_of Reflection.Critic (map fst tr) = 0 /\
    Reflection.runs_of Reflection.Generator (map fst tr) = Nat.div2 26 /\
    Reflection.iteration (fst c)
    = (Reflection.iteration (Reflection.initial_state Stub.demo_query 3)
       + Z.of_nat (Nat.div2 26))%Z /\
    calls_llm (snd c) = 0.
Proof.
  apply (reflection_requests_outrun_limit Stub.requesting
           (Reflection.initial_state Stub.demo_query 3) 25).
  intros k. discriminate.
Defined.

(** ** Self-Reflection: reading the score *)

Lemma append_cons (c : ascii) (s t : string) :
  String c s ++ t = String c (s ++ t).
Proof. reflexivity. Qed.

Lemma append_nil_l (t : string) : "" ++ t = t.
Proof. reflexivity. Qed.

Lemma append_nil_r (s : string) : s ++ "" = s.
Proof.
  induction s as [|c s IH]; [reflexivity|]. now rewrite append_cons, IH.
Qed.

Lemma append_assoc (a b c : string) : (a ++ b) ++ c = a ++ b ++ c.
Proof.
  induction a as [|x a IH]; [reflexivity|]. now rewrite !append_cons, IH.
Qed.

Lemma string_of_list_ascii_app (l1 l2 : list ascii) :
  string_of_list_ascii (l1 ++ l2)
  = string_of_list_ascii l1 ++ string_of_list_ascii l2.
Proof.
  induction l1 as [|c l1 IH]; [reflexivity|].
  simpl. now rewrite append_cons, IH.
Qed.

Lemma string_of_rev_cons (c : ascii) (cur : list ascii) :
  Py.string_of_rev (c :: cur) = Py.string_of_rev cur ++ String c "".
Proof. unfold Py.string_of_rev. simpl. apply string_of_list_ascii_app. Qed.

Lemma prefix_refl_app (sep tail : string) :
  String.prefix sep (sep ++ tail) = true.
Proof.
  induction sep as [|c sep IH]; [now destruct tail|].
  rewrite append_cons. simpl.
  destruct (Ascii.ascii_dec c c); [exact IH|congruence].
Qed.

Lemma split_go_cons (sep : string) (c : ascii) (s : string)
  (cur : list ascii) :
  Py.split_go sep 0 cur (String c s)
  = if String.prefix sep (String c s)
    then Py.string_of_rev cur
         :: Py.split_go sep (String.length sep - 1) [] s
    else Py.split_go sep 0 (c :: cur) s.
Proof. reflexivity. Qed.

(** Behind a match the rest of the separator is skipped. *)
Lemma split_go_skip (sep a rest : string) (cur : list ascii) :
  Py.split_go sep (String.length a) cur (a ++ rest) = Py.split_go sep 0 cur rest.
Proof.
  induction a as [|c a IH]; [reflexivity|].
  rewrite append_cons. simpl. exact IH.
Qed.

(** The scan over a text [pre] in which no match of the separator starts. *)
Lemma split_go_no_match (sep pre rest : string) :
  (forall t1 t2, pre = t1 ++ t2 -> t2 <> "" ->
                 String.prefix sep (t2 ++ rest) = false) ->
  forall cur,
    exists cur',
      Py.split_go sep 0 cur (pre ++ rest) = Py.split_go sep 0 cur' rest /\
      Py.string_of_rev cur' = Py.string_of_rev cur ++ pre.
Proof.
  induction pre as [|a pre IH]; intros Hno cur.
  - exists cur. split; [reflexivity|]. now rewrite append_nil_r.
  - destruct (IH) with (cur := a :: cur) as (cur' & Hs & Hc).
    { intros t1 t2 -> Ht. apply (Hno (String a t1) t2); [reflexivity|exact Ht]. }
    exists cur'. split.
    + rewrite append_cons.
      rewrite split_go_cons.
      assert (Hp : String.prefix sep (String a (pre ++ rest)) = false).
      { rewrite <- append_cons. now apply (Hno "" (String a pre)). }
      rewrite Hp. exact Hs.
    + rewrite Hc, string_of_rev_cons, append_assoc. reflexivity.
Qed.

(** The first piece starts with what the scan had collected. *)
Lemma split_go_head (sep s : string) :
  forall cur, exists x l,
    Py.split_go sep 0 cur s = (Py.string_of_rev cur ++ x) :: l.
Proof.
  induction s as [|c s IH]; intros cur.
  - exists "", []. simpl. now rewrite append_nil_r.
  - rewrite split_go_cons. destruct (String.prefix sep (String c s)).
    + exists "". eexists. rewrite append_nil_r. reflexivity.
    + destruct (IH (c :: cur)) as (x & l & ->).
      exists (String c x), l. now rewrite string_of_rev_cons, append_assoc.
Qed.

(** Splitting at the first occurrence of the separator. *)
Lemma split_go_first (c0 : ascii) (sep' pre tail : string) :
  let sep := String c0 sep' in
  (forall t1 t2, pre = t1 ++ t2 -> t2 <> "" ->
                 String.prefix sep (t2 ++ sep ++ tail) = false) ->
  Py.split_go sep 0 [] (pre ++ sep ++ tail)
  = pre :: Py.split_go sep 0 [] tail.
Proof.
  intros sep Hno.
  destruct (split_go_no_match sep pre (sep ++ tail) Hno []) as (cur' & -> & Hc).
  unfold sep at 2. rewrite append_cons.
  rewrite split_go_cons.
  assert (Hp : String.prefix sep (String c0 (sep' ++ tail)) = true).
  { rewrite <- append_cons. apply prefix_refl_app. }
  rewrite Hp, Hc. f_equal.
  replace (String.length sep - 1) with (String.length sep')
    by (unfold sep; simpl; lia).
  apply split_go_skip.
Qed.

Lemma contains_unfold (sep s : string) :
  Py.contains sep s
  = String.prefix sep s
    || match s with
       | EmptyString => false
       | String _ s' => Py.contains sep s'
       end.
Proof. now destruct s. Qed.

Lemma contains_suffix (sep t1 t2 : string) :
  Py.contains sep (t1 ++ t2) = false -> Py.contains sep t2 = false.
Proof.
  induction t1 as [|c t1 IH]; [trivial|].
  rewrite append_cons, contains_unfold. intros H.
  apply orb_false_iff in H as [_ H]. now apply IH.
Qed.

Lemma contains_prefix_false (sep s : string) :
  Py.contains sep s = false -> String.prefix sep s = false.
Proof.
  rewrite contains_unfold. intros H. now apply orb_false_iff in H as [H _].
Qed.

(** A match that starts in [t] lies within [t] or runs over its end. *)
Lemma prefix_app_cases (sep t u : string) :
  String.prefix sep (t ++ u) = true ->
  String.prefix sep t = true \/
  exists s2, sep = t ++ s2 /\ s2 <> "" /\ String.prefix s2 u = true.
Proof.
  revert sep. induction t as [|c t IH]; intros sep H.
  - destruct sep as [|a sep]; [left; reflexivity|].
    right. exists (String a sep). split; [reflexivity|]. split; [discriminate|].
    exact H.
  - destruct sep as [|a sep]; [left; reflexivity|].
    rewrite append_cons in H. simpl in H. simpl.
    destruct (Ascii.ascii_dec a c) as [->|]; [|discriminate H].
    destruct (IH sep H) as [Hl|(s2 & -> & Hne & Hp)]; [now left|].
    right. exists s2. split; [now rewrite append_cons|]. split; assumption.
Qed.

Lemma contains_app_r (sep a b : string) :
  String.prefix sep b = true -> Py.contains sep (a ++ b) = true.
Proof.
  intros H. induction a as [|c a IH].
  - rewrite append_nil_l, contains_unfold, H. reflexivity.
  - rewrite append_cons, contains_unfold, IH. apply orb_true_r.
Qed.

(** No proper, non-empty end of the marker starts like a text that begins
    with [c], when [c] is none of the marker's later characters. *)
Lemma marker_overlap (t s2 u : string) (c : ascii) :
  "SCORE:" = t ++ s2 -> t <> "" -> s2 <> "" ->
  c <> "C"%char -> c <> "O"%char -> c <> "R"%char -> c <> "E"%char ->
  c <> ":"%char ->
  String.prefix s2 (String c u) = false.
Proof.
  intros H Ht Hs HC HO HR HE Hcol.
  destruct t as [|a1 [|a2 [|a3 [|a4 [|a5 [|a6 t]]]]]]; try congruence;
    rewrite ?append_cons, ?append_nil_l in H; inversion H; subst; clear H;
    try (cbn [String.prefix]; destruct (Ascii.ascii_dec _ c);
         [congruence|reflexivity]).
  destruct t; [rewrite append_nil_l in H7; congruence|discriminate H7].
Qed.

Lemma contains_split_length (c0 : ascii) (sep' s : string) :
  let sep := String c0 sep' in
  Py.contains sep s = true ->
  forall cur, exists p0 p1 l, Py.split_go sep 0 cur s = p0 :: p1 :: l.
Proof.
  intros sep. induction s as [|c s IH]; intros H cur.
  - discriminate H.
  - rewrite split_go_cons. rewrite contains_unfold in H.
    destruct (String.prefix sep (String c s)).
    + destruct (String.length sep - 1) as [|k] eqn:E.
      * destruct (split_go_head sep s []) as (x & l & ->). eauto.
      * assert (Hk : forall k cur s, exists p l,
                   Py.split_go sep k cur s = p :: l).
        { clear. intros k cur s. revert k cur.
          induction s as [|c s IH]; intros k cur; [simpl; eauto|].
          destruct k as [|k]; [|simpl; apply IH].
          rewrite split_go_cons. destruct (String.prefix _ _); eauto. }
        destruct (Hk (S k) [] s) as (p & l & ->). eauto.
    + simpl in H. apply IH. exact H.
Qed.

Section ScoreFacts.
Import Reflection.
Variable W : World.

(** X10.  A critique of the form [pre ++ "SCORE:" ++ mid ++ "/" ++ rest],
    where ["SCORE:"] occurs neither in [pre] nor in [mid] and [mid] holds
    no slash, is read as the prompt asks for: the text handed to [float]
    is [mid] without the white space around it, and the score is its
    value, or 7.5 when [float] rejects it. *)
Theorem parse_score_reads_marked_score (pre mid rest : string) :
  Py.contains "SCORE:" pre = false ->
  Py.contains "SCORE:" mid = false ->
  Py.contains "/" mid = false ->
  extract_score W (pre ++ "SCORE:" ++ mid ++ "/" ++ rest)
  = float_of_string W (Py.strip mid) /\
  parse_score W (pre ++ "SCORE:" ++ mid ++ "/" ++ rest)
  = default default_score (float_of_string W (Py.strip mid)).
Proof.
  intros Hpre Hmid Hslash.
  assert (H1 : Py.split "SCORE:" (pre ++ "SCORE:" ++ mid ++ "/" ++ rest)
               = Some (pre :: Py.split_go "SCORE:" 0 []
                                (mid ++ "/" ++ rest))).
  { unfold Py.split. f_equal.
    apply (split_go_first "S"%char "CORE:" pre (mid ++ "/" ++ rest)).
    intros t1 t2 -> Ht.
    destruct (String.prefix _ _) eqn:E; [|reflexivity].
    apply prefix_app_cases in E as [E|(s2 & Hs & Hne & E)].
    - apply contains_suffix, contains_prefix_false in Hpre. congruence.
    - rewrite append_cons in E.
      rewrite (marker_overlap t2 s2 _ "S"%char Hs Ht Hne) in E;
        discriminate. }
  assert (H2 : exists x l,
             Py.split_go "SCORE:" 0 [] (mid ++ "/" ++ rest)
             = (mid ++ "/" ++ x) :: l).
  { destruct (split_go_no_match "SCORE:" mid ("/" ++ rest)) with (cur := @nil ascii)
      as (cur' & -> & Hc).
    - intros t1 t2 -> Ht.
      destruct (String.prefix _ _) eqn:E; [|reflexivity].
      apply prefix_app_cases in E as [E|(s2 & Hs & Hne & E)].
      + apply contains_suffix, contains_prefix_false in Hmid. congruence.
      + rewrite append_cons in E.
        rewrite (marker_overlap t2 s2 _ "/"%char Hs Ht Hne) in E;
          discriminate.
    - rewrite append_cons, split_go_cons.
      assert (Hp : String.prefix "SCORE:" (String "/" ("" ++ rest)) = false)
        by reflexivity.
      rewrite Hp.
      destruct (split_go_head "SCORE:" ("" ++ rest) ("/"%char :: cur'))
        as (x & l & ->).
      exists x, l. f_equal.
      rewrite string_of_rev_cons, Hc, append_nil_l, !append_assoc.
      reflexivity. }
  destruct H2 as (x & l & H2).
  assert (H3 : Py.split_go "/" 0 [] (mid ++ "/" ++ x)
               = mid :: Py.split_go "/" 0 [] x).
  { apply (split_go_first "/"%char "" mid x).
    intros t1 t2 -> Ht.
    destruct (String.prefix _ _) eqn:E; [|reflexivity].
    apply prefix_app_cases in E as [E|(s2 & Hs & Hne & E)].
    - apply contains_suffix, contains_prefix_false in Hslash. congruence.
    - destruct t2 as [|a [|a' t2]]; try congruence;
        rewrite ?append_cons, ?append_nil_l in Hs; inversion Hs; congruence. }
  assert (He : extract_score W (pre ++ "SCORE:" ++ mid ++ "/" ++ rest)
               = float_of_string W (Py.strip mid)).
  { unfold extract_score. rewrite H1. simpl mbind. rewrite H2.
    change (Py.index (pre :: (mid ++ "/" ++ x) :: l) 1)
      with (Some (mid ++ "/" ++ x)).
    simpl mbind. rewrite H3. reflexivity. }
  split; [exact He|].
  unfold parse_score. rewrite He.
  rewrite (contains_app_r "SCORE:" pre ("SCORE:" ++ mid ++ "/" ++ rest))
    by apply prefix_refl_app.
  now destruct (float_of_string W (Py.strip mid)).
Qed.

(** X11.  When ["SCORE:"] occurs in the critique, neither index of the
    guarded expression can be out of range: the split at the marker has
    at least two pieces and the split at the slash at least one.  The
    only step that can fail is [float], so the score is the value of
    [float] on some piece of the critique, or else 7.5. *)
Theorem marked_score_only_float_fails (content : string) :
  Py.contains "SCORE:" content = true ->
  exists parts after pieces first,
    Py.split "SCORE:" content = Some parts /\
    Py.index parts 1 = Some after /\
    Py.split "/" after = Some pieces /\
    Py.index pieces 0 = Some first /\
    extract_score W content = float_of_string W (Py.strip first) /\
    parse_score W content
    = default default_score (float_of_string W (Py.strip first)).
Proof.
  intros Hc.
  destruct (contains_split_length "S"%char "CORE:" content Hc [])
    as (p0 & p1 & l & H1).
  destruct (split_go_head "/" p1 []) as (x & l' & H2).
  exists (p0 :: p1 :: l), p1, ((Py.string_of_rev [] ++ x) :: l'),
    (Py.string_of_rev [] ++ x).
  assert (Hs1 : Py.split "SCORE:" content = Some (p0 :: p1 :: l))
    by (unfold Py.split; now rewrite H1).
  assert (Hs2 : Py.split "/" p1 = Some ((Py.string_of_rev [] ++ x) :: l'))
    by (unfold Py.split; now rewrite H2).
  assert (He : extract_score W content
               = float_of_string W (Py.strip (Py.string_of_rev [] ++ x))).
  { unfold extract_score. rewrite Hs1. simpl mbind.
    change (Py.index (p0 :: p1 :: l) 1) with (Some p1).
    simpl mbind. rewrite H2. reflexivity. }
  repeat split; try assumption; try reflexivity.
  unfold parse_score. rewrite Hc, He.
  now destruct (float_of_string W _).
Qed.
End ScoreFacts.

Lemma parse_score_reads_marked_score_witness :
  Reflection.extract_score Stub.praising
    ("" ++ "SCORE:" ++ " 9.0" ++ "/" ++ "10 CRITIQUE: thorough")
  = float_of_string Stub.praising (Py.strip " 9.0") /\
  Reflection.parse_score Stub.praising
    ("" ++ "SCORE:" ++ " 9.0" ++ "/" ++ "10 CRITIQUE: thorough")
  = default Reflection.default_score
      (float_of_string Stub.praising (Py.strip " 9.0")).
Proof.
  apply (parse_score_reads_marked_score Stub.praising
           "" " 9.0" "10 CRITIQUE: thorough"); reflexivity.
Defined.

Lemma marked_score_only_float_fails_witness :
  exists parts after pieces first,
    Py.split "SCORE:" (Stub.praise 0) = Some parts /\
    Py.index parts 1 = Some after /\
    Py.split "/" after = Some pieces /\
    Py.index pieces 0 = Some first /\
    Reflection.extract_score Stub.praising (Stub.praise 0)
    = float_of_string Stub.praising (Py.strip first) /\
    Reflection.parse_score Stub.praising (Stub.praise 0)
    = default Reflection.default_score
        (float_of_string Stub.praising (Py.strip first)).
Proof.
  apply (marked_score_only_float_fails Stub.praising (Stub.praise 0)).
  reflexivity.
Defined.

(** ** Adaptive Multi-Agent: routes and runs *)

Section MultiAgentRuns.
Import MultiAgent.
Variable W : World.

Ltac eff_inv H :=
  unfold mbind, eff_mbind, eff_bind in H;
  repeat match type of H with
         | match ?m with _ => _ end = Some _ =>
             let E := fresh "E" in
             destruct m as [[? ?]|] eqn:E; [|discriminate H]
         end.

Lemma get_or_calls (field : option Loc) (dflt : Obj) σ l σ' :
  get_or field dflt W σ = Some (l, σ') ->
  calls_llm σ' = calls_llm σ /\ calls_llm_tools σ' = calls_llm_tools σ.
Proof.
  destruct field as [l0|]; simpl.
  - now intros [= _ <-].
  - unfold alloc. now intros [= _ <-].
Qed.

(** Only the risk assessor writes [confidence]. *)
Lemma confidence_kept n (s : MultiAgentState) σ s' σ' :
  n <> RiskAssessor ->
  exec W n (s, σ) = Some (s', σ') ->
  confidence s' = confidence s.
Proof.
  intros Hn He. unfold exec, exec_node in He. simpl fst in He. simpl snd in He.
  destruct (node_fn n s W σ) as [[u σ'']|] eqn:Hf; [|discriminate He].
  injection He as <- <-.
  destruct n; try congruence;
    unfold node_fn, supervisor_node, data_collector_node,
      technical_analyst_node, research_analyst_node, synthesizer_node,
      tools in Hf;
    eff_inv Hf; injection Hf as <- <-; reflexivity.
Qed.

(** The technical analyst and the risk assessor call the model that has
    no tools: their reply carries no request. *)
Lemma plain_specialist_reply n (s : MultiAgentState) σ s' σ' :
  n = TechnicalAnalyst \/ n = RiskAssessor ->
  exec W n (s, σ) = Some (s', σ') ->
  exists txt, messages s' = (messages s ++ [AIMessage txt []])%list.
Proof.
  intros Hn He. unfold exec, exec_node in He. simpl fst in He. simpl snd in He.
  destruct (node_fn n s W σ) as [[u σ'']|] eqn:Hf; [|discriminate He].
  injection He as <- <-.
  destruct Hn as [-> | ->];
    unfold node_fn, technical_analyst_node, risk_assessor_node in Hf;
    eff_inv Hf;
    match goal with
    | H : llm_invoke _ _ = Some _ |- _ =>
        apply (llm_invoke_inv W) in H; destruct H as [-> _]
    end;
    injection Hf as <- <-; eexists; reflexivity.
Qed.

(** Where a specialist other than the synthesizer leads: to the tools
    node when its reply carries a request, and nowhere otherwise. *)
Lemma specialist_route n (s : MultiAgentState) σ s' σ' a :
  is_specialist n = true -> n <> Synthesizer ->
  exec W n (s, σ) = Some (s', σ') ->
  next_agent s = Some a -> Py.mem a valid_agents = true ->
  synthesizer_done s (heap σ) = Some false ->
  exists m,
    messages s' = (messages s ++ [m])%list /\
    next n (s', σ') = (if has_tool_calls m then inr (Goto Tools)
                       else inl (InvalidRoute a)).
Proof.
  intros Hsp Hns He Ha Hv Hd.
  destruct (specialist_runs W n s σ s' σ' Hsp Hns He)
    as (l & m & _ & _ & _ & Hna & Hm).
  pose proof (not_done_preserved W n s σ s' σ' Hns He Hd) as Hd'.
  exists m. split; [exact Hm|].
  assert (Hr : route_to_agent s' (heap σ')
               = Some (if has_tool_calls m then "tools" else a)).
  { unfold route_to_agent. rewrite Hm, index_last, Hna, Ha. simpl.
    destruct (has_tool_calls m); [reflexivity|]. now rewrite Hd'. }
  destruct n; try discriminate Hsp; try congruence;
    unfold next, fst, snd; rewrite Hr;
    (destruct (has_tool_calls m); [reflexivity|now apply valid_agent_no_path]).
Qed.

(** Where the supervisor leads: to the specialist it named. *)
Lemma supervisor_route (s : MultiAgentState) σ s' σ' :
  exec W Supervisor (s, σ) = Some (s', σ') ->
  synthesizer_done s (heap σ) = Some false ->
  exists a n',
    next_agent s' = Some a /\ Py.mem a valid_agents = true /\
    is_specialist n' = true /\ node_name n' = a /\
    next Supervisor (s', σ') = inr (Goto n').
Proof.
  intros He Hd.
  destruct (supervisor_runs W s σ s' σ' He)
    as (_ & (a & Ha & Hv) & (txt & Hm) & _).
  assert (Hd' : synthesizer_done s' (heap σ') = Some false).
  { apply (not_done_preserved W Supervisor s σ s' σ'); [discriminate|exact He|exact Hd]. }
  assert (Hr : route_to_agent s' (heap σ') = Some a).
  { unfold route_to_agent. rewrite Hm, index_last, Ha. simpl. now rewrite Hd'. }
  exists a.
  destruct (valid_agent_cases a Hv) as [->|[->|[->|[->| ->]]]];
    [exists DataCollector|exists TechnicalAnalyst|exists ResearchAnalyst
    |exists RiskAssessor|exists Synthesizer];
    (split; [exact Ha|]); (split; [reflexivity|]); (split; [reflexivity|]);
    (split; [reflexivity|]); unfold next, fst, snd; rewrite Hr; reflexivity.
Qed.

(** X12.  The supervisor always hands over to a specialist, never to the
    tools node or to END, and its route is always a key of the path map:
    the reply, stripped and lower-cased, names the specialist when it is
    one of the five known names, and any other reply selects the data
    collector. *)
Theorem supervisor_routes_to_named_specialist (s : MultiAgentState) σ s' σ' :
  exec W Supervisor (s, σ) = Some (s', σ') ->
  synthesizer_done s (heap σ) = Some false ->
  let reply := Py.lower (Py.strip (llm W (calls_llm σ))) in
  let a := if Py.mem reply valid_agents then reply else "data_collector" in
  next_agent s' = Some a /\
  exists n',
    is_specialist n' = true /\ node_name n' = a /\
    next Supervisor (s', σ') = inr (Goto n').
Proof.
  intros He Hd reply a.
  destruct (supervisor_route s σ s' σ' He Hd)
    as (a' & n' & Ha & _ & Hsp & Hname & Hx).
  assert (Hna : next_agent s' = Some a).
  { clear Ha Hx. unfold exec, exec_node in He. simpl fst in He. simpl snd in He.
    destruct (node_fn Supervisor s W σ) as [[u σ'']|] eqn:Hf; [|discriminate He].
    injection He as <- <-.
    unfold node_fn, supervisor_node in Hf. eff_inv Hf.
    match goal with
    | H1 : get_or (completed_agents _) _ _ _ = Some _,
      H2 : get_or (findings _) _ _ _ = Some _,
      H3 : dict_items _ _ _ = Some _,
      H4 : llm_invoke _ _ = Some _ |- _ =>
        destruct (get_or_calls _ _ _ _ _ H1) as [Hc1 _];
        destruct (get_or_calls _ _ _ _ _ H2) as [Hc2 _];
        apply (dict_items_inv W) in H3; subst;
        apply (llm_invoke_inv W) in H4; destruct H4 as [-> _]
    end.
    injection Hf as <- _.
    cbn [apply next_agent u_next_agent from_option content].
    rewrite Hc2, Hc1.
    change (Some (if negb (Py.mem reply valid_agents)
                  then "data_collector" else reply) = Some a).
    unfold a. now destruct (Py.mem reply valid_agents). }
  split; [exact Hna|]. exists n'.
  split; [exact Hsp|]. split; [congruence|exact Hx].
Qed.

(** X13.  In a run that starts without the synthesizer among the
    completed agents and terminates, the last node is the synthesizer;
    the technical analyst and the risk assessor have not run, since their
    replies carry no tool request and their route is no key of the path
    map; every other specialist was followed by the tools node; and
    [confidence], which only the risk assessor writes, is still what the
    caller passed. *)
Theorem multi_agent_terminated_runs (c0 : Cfg MultiAgentState) (b : nat)
  (tr : list (Node * Cfg MultiAgentState)) (c : Cfg MultiAgentState) :
  synthesizer_done (fst c0) (heap (snd c0)) = Some false ->
  invoke W b c0 = (tr, Terminated c) ->
  (exists tr0 c1, tr = (tr0 ++ [(Synthesizer, c1)])%list) /\
  Forall (fun e => fst e <> TechnicalAnalyst /\ fst e <> RiskAssessor) tr /\
  chain (fun e e' => is_specialist (fst e) = true -> fst e' = Tools) tr /\
  confidence (fst c) = confidence (fst c0) /\
  synthesizer_done (fst c) (heap (snd c)) = Some true.
Proof.
  intros H0 Hr. unfold invoke in Hr.
  pose proof (run_trace_chain _ _ _ _ _ _ _ Hr) as Hc.
  assert (Hinv : Forall (fun e =>
             confidence (fst (snd e)) = confidence (fst c0) /\
             synthesizer_done (fst (snd e)) (heap (snd (snd e))) = Some false /\
             (fst e = Supervisor \/
              exists a, next_agent (fst (snd e)) = Some a /\
                        Py.mem a valid_agents = true)) tr).
  { apply (chain_Forall (step (exec W) next)); [|exact Hc|].
    - intros [n [s σ]] [n' [s' σ']] (Hcf & Hd & Ha) [He Hx]. cbn [fst snd] in *.
      destruct (decide (n = Synthesizer)) as [->|Hns].
      { destruct (synthesizer_then_end W s σ s' σ' He) as (_ & _ & Hend).
        rewrite Hend in Hx. discriminate Hx. }
      split; [|split].
      + rewrite <- Hcf. apply (confidence_kept n s σ s' σ'); [|exact He].
        intros ->.
        destruct Ha as [Ha|(a & Ha & Hv)]; [discriminate Ha|].
        destruct (specialist_route RiskAssessor s σ s' σ' a eq_refl Hns He
                    Ha Hv Hd) as (m & Hm & Hnx).
        destruct (plain_specialist_reply RiskAssessor s σ s' σ'
                    (or_intror eq_refl) He) as (txt & Hm').
        rewrite Hm' in Hm. apply app_inj_tail in Hm as [_ <-].
        cbn [has_tool_calls] in Hnx. rewrite Hnx in Hx. discriminate Hx.
      + exact (not_done_preserved W n s σ s' σ' Hns He Hd).
      + right. destruct (decide (n = Supervisor)) as [->|Hn].
        * now destruct (supervisor_runs W s σ s' σ' He) as (_ & Hv & _).
        * rewrite (next_agent_kept W n s σ s' σ' Hn He).
          destruct Ha as [Ha|Ha]; [congruence|exact Ha].
    - intros a Ha.
      destruct (run_trace_head _ _ _ _ _ _ _ Hr) as [->|[tr' ->]];
        [discriminate Ha|]. injection Ha as <-. simpl. auto. }
  assert (Hstep : forall n s σ n' s' σ',
             confidence s = confidence (fst c0) /\
             synthesizer_done s (heap σ) = Some false /\
             (n = Supervisor \/
              exists a, next_agent s = Some a /\ Py.mem a valid_agents = true) ->
             exec W n (s, σ) = Some (s', σ') ->
             next n (s', σ') = inr (Goto n') ->
             n <> TechnicalAnalyst /\ n <> RiskAssessor /\
             (is_specialist n = true -> n' = Tools)).
  { intros n s σ n' s' σ' (_ & Hd & Ha) He Hx.
    destruct (is_specialist n) eqn:Hsp.
    - destruct (decide (n = Synthesizer)) as [->|Hns].
      { destruct (synthesizer_then_end W s σ s' σ' He) as (_ & _ & Hend).
        rewrite Hend in Hx. discriminate Hx. }
      destruct Ha as [->|(a & Ha & Hv)]; [discriminate Hsp|].
      destruct (specialist_route n s σ s' σ' a Hsp Hns He Ha Hv Hd)
        as (m & Hm & Hnx).
      rewrite Hnx in Hx.
      destruct (has_tool_calls m) eqn:Ht; [|discriminate Hx].
      injection Hx as <-.
      repeat split; try reflexivity; intros ->;
        match type of He with
        | exec W ?k _ = _ =>
            destruct (plain_specialist_reply k s σ s' σ') as (txt & Hm');
            [first [left; reflexivity|right; reflexivity]|exact He|]
        end;
        rewrite Hm' in Hm; apply app_inj_tail in Hm as [_ <-];
        discriminate Ht.
    - repeat split; try discriminate; intros ->; discriminate Hsp. }
  destruct (run_terminated_last _ _ _ _ _ _ _ Hr)
    as (tr0 & n0 & [s1 σ1] & -> & He & Hx).
  destruct c as [s σ].
  apply Forall_app in Hinv as [Hinv0 Hlast].
  apply Forall_inv in Hlast. destruct Hlast as (Hcf & Hd & Ha). cbn [fst snd] in *.
  assert (Hn0 : n0 = Synthesizer).
  { destruct (decide (n0 = Synthesizer)) as [->|Hns]; [reflexivity|exfalso].
    destruct (is_specialist n0) eqn:Hsp.
    - destruct Ha as [->|(a & Ha & Hv)]; [discriminate Hsp|].
      destruct (specialist_route n0 s1 σ1 s σ a Hsp Hns He Ha Hv Hd)
        as (m & _ & Hnx).
      rewrite Hnx in Hx. destruct (has_tool_calls m); discriminate Hx.
    - destruct n0; try discriminate Hsp; try discriminate Hx.
      destruct (supervisor_route s1 σ1 s σ He Hd) as (a & n' & _ & _ & _ & _ & Hnx).
      rewrite Hnx in Hx. discriminate Hx. }
  subst n0.
  assert (Hnext : Forall (fun e => exists e', step (exec W) next e e') tr0)
    by (eapply chain_has_next, Hc).
  split; [eauto|]. split; [|split; [|split]].
  - apply Forall_app. split; [|repeat constructor; discriminate].
    rewrite List.Forall_forall in Hinv0, Hnext |- *.
    intros [n [s2 σ2]] Hin.
    destruct (Hnext _ Hin) as ([n' [s' σ']] & He' & Hx').
    cbn [fst snd] in He', Hx'.
    destruct (Hstep n s2 σ2 n' s' σ' (Hinv0 _ Hin) He' Hx') as (H1 & H2 & _).
    now split.
  - assert (Hall : Forall (fun e =>
               confidence (fst (snd e)) = confidence (fst c0) /\
               synthesizer_done (fst (snd e)) (heap (snd (snd e))) = Some false /\
               (fst e = Supervisor \/
                exists a, next_agent (fst (snd e)) = Some a /\
                          Py.mem a valid_agents = true))
                      (tr0 ++ [(Synthesizer, (s1, σ1))])).
    { apply Forall_app. split; [exact Hinv0|].
      constructor; [exact (conj Hcf (conj Hd Ha))|constructor]. }
    clear Hnext Hinv0. revert Hc Hall.
    generalize (tr0 ++ [(Synthesizer, (s1, σ1))])%list. intros l.
    induction l as [|[n [s2 σ2]] [|[n' [s' σ']] l] IH]; intros Hc Hall;
      try exact I.
    destruct Hc as [[He' Hx'] Hc]. cbn [fst snd] in He', Hx'.
    split.
    + cbn [fst]. apply (Hstep n s2 σ2 n' s' σ'); [|exact He'|exact Hx'].
      now apply Forall_inv in Hall.
    + apply IH; [exact Hc|]. now apply Forall_inv_tail in Hall.
  - rewrite <- Hcf. apply (confidence_kept Synthesizer s1 σ1 s σ);
      [discriminate|exact He].
  - destruct (synthesizer_runs W s1 σ1 s σ He)
      as (l & txt & xs & Hcl & Hl & _).
    rewrite (done_after_append s (heap σ) l xs _ Hcl Hl).
    now rewrite orb_true_r.
Qed.
End MultiAgentRuns.

Section MultiAgentOrder.
Import MultiAgent.
Variable W : World.

Lemma deref_insert_eq (h : list Obj) l o :
  l < length h -> deref (<[l := o]> h) l = Some o.
Proof. intros H. unfold deref. now apply list_lookup_insert_eq. Qed.

Lemma deref_insert_ne (h : list Obj) l k o :
  l <> k -> deref (<[l := o]> h) k = deref h k.
Proof. intros H. unfold deref. now apply list_lookup_insert_ne. Qed.

(** A specialist on a state that holds a list and a dict: it runs, appends
    its name to that list and keeps both references. *)
Lemma wf_specialist_exec n (s : MultiAgentState) σ l f xs d :
  is_specialist n = true ->
  completed_agents s = Some l -> findings s = Some f ->
  deref (heap σ) l = Some (OList xs) ->
  deref (heap σ) f = Some (ODict d) ->
  exists s' σ' m d',
    exec W n (s, σ) = Some (s', σ') /\
    completed_agents s' = Some l /\ findings s' = Some f /\
    deref (heap σ') l = Some (OList (xs ++ [node_name n])) /\
    deref (heap σ') f = Some (ODict d') /\
    next_agent s' = next_agent s /\
    messages s' = (messages s ++ [m])%list.
Proof.
  intros Hsp Hcl Hfi Hl Hf.
  assert (Hne : l <> f) by congruence.
  pose proof (deref_lt _ _ _ Hl) as Hll. pose proof (deref_lt _ _ _ Hf) as Hlf.
  destruct n; try discriminate Hsp;
    unfold exec, exec_node, node_fn, data_collector_node,
      technical_analyst_node, research_analyst_node, risk_assessor_node,
      synthesizer_node;
    cbn [fst snd]; rewrite Hcl, Hfi;
    unfold mbind, eff_mbind, eff_bind, get_or, mret, eff_mret, eff_ret,
      llm_invoke, llm_with_tools_invoke, list_append, dict_setitem,
      dict_items, world, store;
    repeat (progress (cbn [heap calls_llm calls_llm_tools];
                      rewrite ?(deref_insert_ne _ l f) by exact Hne;
                      rewrite ?Hl, ?Hf));
    do 4 eexists; (split; [reflexivity|]);
    cbn [apply completed_agents findings next_agent messages heap
           u_completed_agents u_findings u_next_agent u_messages
           from_option default];
    repeat split; try reflexivity; try assumption;
    rewrite ?(deref_insert_ne _ f l) by congruence;
    rewrite ?(deref_insert_ne _ l f) by congruence;
    rewrite ?deref_insert_eq by (rewrite ?length_insert; assumption);
    try reflexivity; try eassumption.
Qed.

Lemma wf_supervisor_exec (s : MultiAgentState) σ l f xs d :
  completed_agents s = Some l -> findings s = Some f ->
  deref (heap σ) l = Some (OList xs) ->
  deref (heap σ) f = Some (ODict d) ->
  exists s' σ',
    exec W Supervisor (s, σ) = Some (s', σ') /\
    completed_agents s' = Some l /\ findings s' = Some f /\
    heap σ' = heap σ.
Proof.
  intros Hcl Hfi Hl Hf.
  unfold exec, exec_node, node_fn, supervisor_node.
  cbn [fst snd]. rewrite Hcl, Hfi.
  unfold mbind, eff_mbind, eff_bind, get_or, mret, eff_mret, eff_ret,
    llm_invoke, dict_items.
  rewrite Hf. do 2 eexists. split; [reflexivity|].
  cbn [apply completed_agents findings heap u_completed_agents u_findings
         from_option].
  repeat split; assumption.
Qed.

Lemma wf_tools_exec (s : MultiAgentState) σ :
  from_option has_tool_calls false (Py.index (messages s) (-1)) = true ->
  exists out,
    exec W Tools (s, σ)
    = Some (apply s (mkUpdate (Some out) None None None None), σ) /\
    out <> [].
Proof.
  unfold exec, exec_node, node_fn, tools, tool_node.
  cbn [fst snd]. unfold mbind, eff_mbind, eff_bind.
  destruct (Py.index (messages s) (-1)) as [[| |c [|tc tcs]|]|];
    simpl; try discriminate.
  intros _. eexists. split; [reflexivity|discriminate].
Qed.

Lemma completed_list_at (s : MultiAgentState) (h : list Obj) l xs :
  completed_agents s = Some l -> deref h l = Some (OList xs) ->
  completed_list s h = Some xs /\
  synthesizer_done s h = Some (Py.mem "synthesizer" xs).
Proof.
  intros Hc Hl. unfold completed_list, synthesizer_done.
  rewrite Hc. simpl. now rewrite Hl.
Qed.

Lemma wf_run (l f : Loc) :
  forall b n (s : MultiAgentState) σ xs d,
    completed_agents s = Some l -> findings s = Some f ->
    deref (heap σ) l = Some (OList xs) ->
    deref (heap σ) f = Some (ODict d) ->
    (n <> Supervisor ->
     exists a, next_agent s = Some a /\ Py.mem a valid_agents = true) ->
    (n = Tools ->
     from_option has_tool_calls false (Py.index (messages s) (-1)) = true) ->
    let r := run (exec W) next b n (s, σ) in
    (forall c, snd r <> Aborted NodeRaised c) /\
    (forall c, snd r <> Aborted RouterRaised c) /\
    completed_list (fst (outcome_cfg (snd r))) (heap (snd (outcome_cfg (snd r))))
    = Some (xs ++ map node_name
                    (List.filter is_specialist (map fst (fst r))))%list.
Proof.
  induction b as [|b IH]; intros n s σ xs d Hcl Hfi Hl Hf Hva Hpe.
  { cbn. split; [discriminate|]. split; [discriminate|].
    rewrite app_nil_r. exact (proj1 (completed_list_at s (heap σ) l xs Hcl Hl)). }
  destruct (is_specialist n) eqn:Hsp.
  - (* a specialist *)
    destruct (wf_specialist_exec n s σ l f xs d Hsp Hcl Hfi Hl Hf)
      as (s' & σ' & m & d' & He & Hcl' & Hfi' & Hl' & Hf' & Hna & Hm).
    destruct Hva as (a & Ha & Hv); [intros ->; discriminate Hsp|].
    destruct (completed_list_at s' (heap σ') l _ Hcl' Hl') as [Hcompl Hdone].
    assert (Hr : route_to_agent s' (heap σ')
                 = Some (if has_tool_calls m then "tools"
                         else if Py.mem "synthesizer" (xs ++ [node_name n])
                              then "end" else a)).
    { unfold route_to_agent. rewrite Hm, index_last, Hna, Ha. simpl.
      destruct (has_tool_calls m); [reflexivity|]. rewrite Hdone.
      destruct (Py.mem "synthesizer" (xs ++ [node_name n])); reflexivity. }
    assert (Hx : next n (s', σ')
                 = if has_tool_calls m then inr (Goto Tools)
                   else if Py.mem "synthesizer" (xs ++ [node_name n])
                        then inr END else inl (InvalidRoute a)).
    { destruct n; try discriminate Hsp; unfold next; cbn [fst snd];
        rewrite Hr;
        (destruct (has_tool_calls m); [reflexivity|]);
        (destruct (Py.mem "synthesizer" _); [reflexivity|]);
        now apply valid_agent_no_path. }
    assert (Hnames : forall tr' : list (Node * Cfg MultiAgentState),
               (xs ++ map node_name
                        (List.filter is_specialist
                           (map fst ((n, (s, σ)) :: tr'))))%list
               = ((xs ++ [node_name n])
                  ++ map node_name (List.filter is_specialist (map fst tr')))%list).
    { intros tr'. cbn [map fst List.filter]. rewrite Hsp. cbn [map].
      now rewrite <- app_assoc. }
    destruct (has_tool_calls m) eqn:Ht;
      [|destruct (Py.mem "synthesizer" (xs ++ [node_name n]))].
    + destruct (IH Tools s' σ' (xs ++ [node_name n])%list d' Hcl' Hfi' Hl' Hf')
        as (H1 & H2 & H3).
      { intros _. exists a. rewrite Hna. now split. }
      { intros _. rewrite Hm, index_last. exact Ht. }
      rewrite (run_goto _ _ _ _ _ _ _ He Hx). cbv zeta. cbn [fst snd].
      split; [exact H1|]. split; [exact H2|]. rewrite Hnames. exact H3.
    + rewrite (run_end _ _ _ _ _ _ He Hx). cbv zeta. cbn [fst snd outcome_cfg].
      split; [discriminate|]. split; [discriminate|].
      rewrite Hnames. cbn. rewrite app_nil_r. exact Hcompl.
    + rewrite (run_abort _ _ _ _ _ _ _ He Hx). cbv zeta. cbn [fst snd outcome_cfg].
      split; [discriminate|]. split; [discriminate|].
      rewrite Hnames. cbn. rewrite app_nil_r. exact Hcompl.
  - destruct n; try discriminate Hsp.
    + (* the supervisor *)
      destruct (wf_supervisor_exec s σ l f xs d Hcl Hfi Hl Hf)
        as (s' & σ' & He & Hcl' & Hfi' & Hh).
      destruct (supervisor_runs W s σ s' σ' He)
        as (_ & (a & Ha & Hv) & (txt & Hm) & _).
      assert (Hl' : deref (heap σ') l = Some (OList xs)) by now rewrite Hh.
      assert (Hf' : deref (heap σ') f = Some (ODict d)) by now rewrite Hh.
      destruct (completed_list_at s' (heap σ') l _ Hcl' Hl') as [Hcompl Hdone].
      assert (Hr : route_to_agent s' (heap σ')
                   = Some (if Py.mem "synthesizer" xs then "end" else a)).
      { unfold route_to_agent. rewrite Hm, index_last, Ha. simpl.
        rewrite Hdone. destruct (Py.mem "synthesizer" xs); reflexivity. }
      assert (Hx : next Supervisor (s', σ')
                   = if Py.mem "synthesizer" xs then inr END
                     else resolve supervisor_paths (Some a)).
      { unfold next. cbn [fst snd]. rewrite Hr.
        now destruct (Py.mem "synthesizer" xs). }
      destruct (Py.mem "synthesizer" xs).
      * rewrite (run_end _ _ _ _ _ _ He Hx). cbv zeta. cbn [fst snd outcome_cfg].
        split; [discriminate|]. split; [discriminate|].
        cbn. rewrite app_nil_r. exact Hcompl.
      * assert (Hn' : exists n', is_specialist n' = true /\
                                 resolve supervisor_paths (Some a)
                                 = inr (Goto n')).
        { destruct (valid_agent_cases a Hv) as [->|[->|[->|[->| ->]]]];
            [exists DataCollector|exists TechnicalAnalyst
            |exists ResearchAnalyst|exists RiskAssessor|exists Synthesizer];
            split; reflexivity. }
        destruct Hn' as (n' & Hsp' & Hres). rewrite Hres in Hx.
        destruct (IH n' s' σ' xs d Hcl' Hfi' Hl' Hf') as (H1 & H2 & H3).
        { intros _. exists a. now split. }
        { intros ->. discriminate Hsp'. }
        rewrite (run_goto _ _ _ _ _ _ _ He Hx). cbv zeta. cbn [fst snd].
        split; [exact H1|]. split; [exact H2|]. exact H3.
    + (* the tools node *)
      destruct (wf_tools_exec s σ (Hpe eq_refl)) as (out & He & _).
      set (s' := apply s _) in He.
      destruct (IH Supervisor s' σ xs d Hcl Hfi Hl Hf) as (H1 & H2 & H3);
        [congruence|discriminate|].
      rewrite (run_goto _ _ _ Tools (s, σ) (s', σ) Supervisor He eq_refl).
      cbv zeta. cbn [fst snd].
      split; [exact H1|]. split; [exact H2|]. exact H3.
Qed.

(** X14.  From a state that holds a list of completed agents and a dict
    of findings, as the initial state of [invoke_agent] does, no node and
    no router raises: a run can only fail on a route that is no key of
    the path map.  Whatever the outcome, the list of completed agents is
    the initial list followed by the names of the specialists that ran,
    in the order of their runs, a name once for every run. *)
Theorem multi_agent_completed_in_order (c0 : Cfg MultiAgentState) (b : nat)
  (l f : Loc) (xs0 : list string) (d0 : gmap string string) :
  completed_agents (fst c0) = Some l ->
  findings (fst c0) = Some f ->
  deref (heap (snd c0)) l = Some (OList xs0) ->
  deref (heap (snd c0)) f = Some (ODict d0) ->
  let r := invoke W b c0 in
  (forall c, snd r <> Aborted NodeRaised c) /\
  (forall c, snd r <> Aborted RouterRaised c) /\
  completed_list (fst (outcome_cfg (snd r))) (heap (snd (outcome_cfg (snd r))))
  = Some (xs0 ++ map node_name
                   (List.filter is_specialist (map fst (fst r))))%list.
Proof.
  intros Hcl Hfi Hl Hf. destruct c0 as [s σ]. unfold invoke.
  apply (wf_run l f b Supervisor s σ xs0 d0 Hcl Hfi Hl Hf);
    [congruence|discriminate].
Qed.
End MultiAgentOrder.

Lemma supervisor_routes_to_named_specialist_witness :
  let c := MultiAgent.initial_cfg Stub.demo_query in
  let c' := default c (MultiAgent.exec Stub.choosing_synthesizer
                         MultiAgent.Supervisor c) in
  MultiAgent.next_agent (fst c') = Some "synthesizer" /\
  exists n',
    MultiAgent.is_specialist n' = true /\
    MultiAgent.node_name n' = "synthesizer" /\
    MultiAgent.next MultiAgent.Supervisor (fst c', snd c') = inr (Goto n').
Proof.
  cbv zeta.
  apply (supervisor_routes_to_named_specialist Stub.choosing_synthesizer
           (fst (MultiAgent.initial_cfg Stub.demo_query))
           (snd (MultiAgent.initial_cfg Stub.demo_query))).
  - vm_compute. reflexivity.
  - vm_compute. reflexivity.
Defined.

Lemma multi_agent_terminated_runs_witness :
  let r := MultiAgent.invoke Stub.choosing_synthesizer 25
             (MultiAgent.initial_cfg Stub.demo_query) in
  (exists tr0 c1, fst r = (tr0 ++ [(MultiAgent.Synthesizer, c1)])%list) /\
  Forall (fun e => fst e <> MultiAgent.TechnicalAnalyst /\
                   fst e <> MultiAgent.RiskAssessor) (fst r) /\
  chain (fun e e' => MultiAgent.is_specialist (fst e) = true ->
                     fst e' = MultiAgent.Tools) (fst r) /\
  MultiAgent.confidence (fst (outcome_cfg (snd r)))
  = MultiAgent.confidence (fst (MultiAgent.initial_cfg Stub.demo_query)) /\
  MultiAgent.synthesizer_done (fst (outcome_cfg (snd r)))
    (heap (snd (outcome_cfg (snd r)))) = Some true.
Proof.
  cbv zeta.
  apply (multi_agent_terminated_runs Stub.choosing_synthesizer
           (MultiAgent.initial_cfg Stub.demo_query) 25).
  - reflexivity.
  - vm_compute. reflexivity.
Defined.

Lemma multi_agent_completed_in_order_witness :
  let r := MultiAgent.invoke Stub.choosing_data_collector 25
             (MultiAgent.initial_cfg Stub.demo_query) in
  (forall c, snd r <> Aborted NodeRaised c) /\
  (forall c, snd r <> Aborted RouterRaised c) /\
  MultiAgent.completed_list (fst (outcome_cfg (snd r)))
    (heap (snd (outcome_cfg (snd r))))
  = Some ([] ++ map MultiAgent.node_name
                  (List.filter MultiAgent.is_specialist
                     (map fst (fst r))))%list.
Proof.
  apply (multi_agent_completed_in_order Stub.choosing_data_collector
           (MultiAgent.initial_cfg Stub.demo_query) 25 0 1 [] ∅);
    reflexivity.
Defined.

(** ** The tools *)

Section ToolFacts.
Import Tools.

Lemma slice_to_length {A : Type} (l : list A) (k : Z) :
  Z.of_nat (length (slice_to l k))
  = (if (0 <=? k)%Z then Z.min k (Z.of_nat (length l))
     else Z.max (Z.of_nat (length l) + k) 0).
Proof.
  unfold slice_to. destruct (Z.leb_spec 0 k); rewrite length_take; lia.
Qed.

Lemma slice_to_prefix {A : Type} (l : list A) (k : Z) :
  exists rest, l = (slice_to l k ++ rest)%list.
Proof.
  unfold slice_to. destruct (0 <=? k)%Z; eexists; symmetry; apply take_drop.
Qed.

(** X15.  [vector_db_search] reports [total_found = 3] for every query
    and every [top_k], whatever it returns.  The results are the first
    documents of the fixed list: [min (top_k, 3)] of them for a [top_k]
    that is not negative, and for a negative one all but the last
    [- top_k], so that [top_k = -1] yields two documents. *)
Theorem vector_db_search_slices_fixed_list (query : string) (top_k : Z) :
  let r := vector_db_search query top_k in
  sr_query r = query /\
  total_found r = 3%Z /\
  (exists rest, mock_results = (sr_results r ++ rest)%list) /\
  Z.of_nat (length (sr_results r))
  = (if (0 <=? top_k)%Z then Z.min top_k 3 else Z.max (3 + top_k) 0).
Proof.
  cbv zeta. unfold vector_db_search. cbn [sr_query total_found sr_results].
  split; [reflexivity|]. split; [reflexivity|].
  split; [apply slice_to_prefix|]. apply slice_to_length.
Qed.

Lemma ltb_irrefl (x : float) : PrimFloat.ltb x x = false.
Proof.
  rewrite FloatAxioms.ltb_spec. unfold SpecFloat.SFltb, SpecFloat.SFcompare.
  destruct (FloatOps.Prim2SF x) as [s|s| |s m e].
  - reflexivity.
  - now destruct s.
  - reflexivity.
  - change (IntDef.Z.compare e e) with (Z.compare e e).
    change (PosDef.Pos.compare_cont Eq m m) with (Pos.compare_cont Eq m m).
    rewrite Z.compare_refl, Pos.compare_cont_refl. now destruct s.
Qed.

Lemma index_map_seq {A : Type} (g : nat -> A) (n : nat) :
  0 < n ->
  Py.index (map g (seq 0 n)) 0 = Some (g 0) /\
  Py.index (map g (seq 0 n)) (-1) = Some (g (n - 1)).
Proof.
  intros Hn. unfold Py.index. rewrite length_map, length_seq.
  split.
  - simpl. destruct n; [lia|reflexivity].
  - destruct (Z.leb_spec 0 (-1)); [lia|].
    destruct (Z.leb_spec (- Z.of_nat n) (-1)); [|lia].
    rewrite list_lookup_fmap.
    replace (Z.to_nat (Z.of_nat n + -1)) with (n - 1) by lia.
    rewrite lookup_seq_lt by lia. reflexivity.
Qed.

Lemma slice_to_map_seq {A : Type} (g : nat -> A) (n : nat) (k : Z) :
  (0 <= k)%Z ->
  slice_to (map g (seq 0 n)) k = map g (seq 0 (Nat.min (Z.to_nat k) n)).
Proof.
  intros Hk. unfold slice_to.
  destruct (Z.leb_spec 0 k); [|lia].
  rewrite <- fmap_take. f_equal. apply take_seq.
Qed.

(** X16.  [get_stock_history] raises for [days <= 0], on [prices[-1]].
    For [days >= 1] it lists the first [min (days, 5)] dates and prices,
    today's first; the average is taken over all [days] prices; and the
    trend is ["bullish"] exactly when the last price, which stands with
    the oldest date, is above the first one, which stands with today's.
    With a single day the trend is always ["bearish"]. *)
Theorem get_stock_history_bounds (E : Env) (symbol : string) (days : Z) :
  ((days <= 0)%Z -> get_stock_history E symbol days = None) /\
  ((1 <= days)%Z ->
   exists h,
     get_stock_history E symbol days = Some h /\
     h_symbol h = symbol /\
     h_dates h = map (day E) (seq 0 (Z.to_nat (Z.min days 5))) /\
     h_prices h = map (draw E) (seq 0 (Z.to_nat (Z.min days 5))) /\
     avg_price h = np_mean E (map (draw E) (seq 0 (Z.to_nat days))) /\
     (trend h = "bullish" <->
      PrimFloat.ltb (draw E 0) (draw E (Z.to_nat days - 1)) = true) /\
     (days = 1%Z -> trend h = "bearish")).
Proof.
  split.
  - intros Hd. unfold get_stock_history, range.
    replace (Z.to_nat days) with 0 by lia. reflexivity.
  - intros Hd. unfold get_stock_history, range.
    destruct (index_map_seq (draw E) (Z.to_nat days)) as [H0 H1]; [lia|].
    rewrite H1, H0. cbn [mbind option_bind].
    eexists. split; [reflexivity|].
    cbn [h_symbol h_dates h_prices avg_price trend].
    rewrite !slice_to_map_seq by lia.
    replace (Nat.min (Z.to_nat 5) (Z.to_nat days))
      with (Z.to_nat (Z.min days 5)) by lia.
    repeat split; try reflexivity.
    + destruct (PrimFloat.ltb _ _); [reflexivity|discriminate].
    + destruct (PrimFloat.ltb _ _); [reflexivity|discriminate].
    + intros ->. change (Z.to_nat 1 - 1) with 0.
      now rewrite ltb_irrefl.
Qed.
End ToolFacts.

(** ** The server's agent table *)

Section ServerFacts.
Import Server.

Lemma mem_snoc (x p : string) (l : list string) :
  Py.mem x (l ++ [p]) = Py.mem x l || String.eqb x p.
Proof.
  rewrite mem_app. unfold Py.mem at 2. simpl existsb.
  now rewrite orb_false_r.
Qed.

Lemma table_after_startup : table_after [] startup_agents.
Proof. exists None, None, None, None. repeat split. Qed.

(** What the table lists as loaded. *)
Lemma table_health (requested : list string) (st : State) :
  table_after requested st ->
  map fst (agents st) = patterns /\
  health_check st = List.filter (fun k => Py.mem k requested) patterns.
Proof.
  intros (r & pe & rf & ma & Hag & Hr & Hpe & Hrf & Hma & _).
  unfold health_check. rewrite Hag. split; [reflexivity|].
  unfold patterns. cbn [List.filter map fst snd].
  destruct r, pe, rf, ma; cbn in Hr, Hpe, Hrf, Hma;
    repeat match goal with H : _ /\ _ |- _ => destruct H as [_ H] end;
    rewrite Hr, Hpe, Hrf, Hma; reflexivity.
Qed.

(** One call of [get_agent] on the table. *)
Lemma get_agent_step (requested : list string) (st : State) (p : string) :
  table_after requested st ->
  (Py.mem p patterns = false ->
   get_agent p st = None /\ table_after (requested ++ [p]) st) /\
  (Py.mem p patterns = true ->
   exists a st',
     get_agent p st = Some (Some a, st') /\
     kind a = kind_of p /\
     get_agent p st' = Some (Some a, st') /\
     built st' = built st + (if Py.mem p requested then 0 else 1) /\
     table_after (requested ++ [p]) st').
Proof.
  intros (r & pe & rf & ma & Hag & Hr & Hpe & Hrf & Hma & Hb).
  unfold health_check in Hb. rewrite Hag in Hb.
  destruct st as [ag bt]. cbn [agents built] in *. subst ag.
  destruct (String.eqb_spec p "react") as [->|N1];
    [|destruct (String.eqb_spec p "plan_execute") as [->|N2];
      [|destruct (String.eqb_spec p "reflection") as [->|N3];
        [|destruct (String.eqb_spec p "multi_agent") as [->|N4]]]].
  5: { (* no key of the table *)
    assert (E1 : String.eqb "react" p = false)
      by (apply String.eqb_neq; congruence).
    assert (E2 : String.eqb "plan_execute" p = false)
      by (apply String.eqb_neq; congruence).
    assert (E3 : String.eqb "reflection" p = false)
      by (apply String.eqb_neq; congruence).
    assert (E4 : String.eqb "multi_agent" p = false)
      by (apply String.eqb_neq; congruence).
    split.
    - intros _. split.
      + unfold get_agent. cbn [agents getitem]. now rewrite E1, E2, E3, E4.
      + exists r, pe, rf, ma. rewrite !mem_snoc, E1, E2, E3, E4, !orb_false_r.
        unfold health_check. cbn [agents built]. repeat split; assumption.
    - unfold Py.mem, patterns. cbn [existsb].
      apply String.eqb_neq in N1, N2, N3, N4.
      rewrite N1, N2, N3, N4. discriminate. }
  all: split; [intros H; vm_compute in H; discriminate H|intros _].
  all: destruct r as [r|], pe as [pe|], rf as [rf|], ma as [ma|];
    cbn [loaded_as] in Hr, Hpe, Hrf, Hma;
    repeat match goal with
           | H : _ /\ _ |- _ => let K := fresh "Hk" in destruct H as [K H]
           end;
    do 2 eexists; (split; [reflexivity|]);
    (split; [first [assumption|reflexivity]|]);
    (split; [reflexivity|]);
    (split; [cbn [built]; rewrite ?Hr, ?Hpe, ?Hrf, ?Hma; cbn; lia|]);
    do 4 eexists; (split; [reflexivity|]);
    rewrite !mem_snoc; rewrite ?Hr, ?Hpe, ?Hrf, ?Hma;
    cbn [String.eqb Ascii.eqb Bool.eqb orb andb loaded_as kind];
    unfold health_check; cbn in Hb |- *;
    repeat split; first [assumption|reflexivity|lia].
Qed.

Lemma serve_table (ps requested : list string) (st : State) :
  table_after requested st -> table_after (requested ++ ps) (serve ps st).
Proof.
  revert requested st. induction ps as [|p ps IH]; intros requested st Ht.
  - now rewrite app_nil_r.
  - cbn [serve].
    replace (requested ++ p :: ps)%list with ((requested ++ [p]) ++ ps)%list
      by now rewrite <- app_assoc.
    apply IH.
    destruct (get_agent_step requested st p Ht) as [Hno Hyes].
    destruct (Py.mem p patterns).
    + destruct (Hyes eq_refl) as (a & st' & -> & _ & _ & _ & Ht'). exact Ht'.
    + destruct (Hno eq_refl) as [-> Ht']. exact Ht'.
Qed.

(** X17.  The agent table is a lazy singleton.  After any sequence of
    calls of [get_agent], the keys are the four patterns in their order;
    [health_check] lists the requested patterns among them in that order,
    not in the order of the requests; and one graph has been built for
    each of them, however often it was requested.  A call for a pattern
    of the table returns a graph of the pattern's kind, builds it only
    when the pattern was not requested before, and a second call returns
    the same graph and builds nothing; a call for any other string
    raises. *)
Theorem get_agent_builds_each_graph_once (requests : list string) :
  let st := serve requests startup_agents in
  map fst (agents st) = patterns /\
  health_check st = List.filter (fun k => Py.mem k requests) patterns /\
  built st = length (health_check st) /\
  forall p,
    (Py.mem p patterns = false -> get_agent p st = None) /\
    (Py.mem p patterns = true ->
     exists a st',
       get_agent p st = Some (Some a, st') /\
       kind a = kind_of p /\
       get_agent p st' = Some (Some a, st') /\
       built st' = built st + (if Py.mem p requests then 0 else 1)).
Proof.
  cbv zeta.
  pose proof (serve_table requests [] startup_agents table_after_startup)
    as Ht.
  rewrite app_nil_l in Ht.
  destruct (table_health _ _ Ht) as [Hk Hh].
  split; [exact Hk|]. split; [exact Hh|]. split.
  - destruct Ht as (r & pe & rf & ma & _ & _ & _ & _ & _ & Hb). exact Hb.
  - intros p. destruct (get_agent_step requests _ p Ht) as [Hno Hyes]. split.
    + intros H. exact (proj1 (Hno H)).
    + intros H. destruct (Hyes H) as (a & st' & H1 & H2 & H3 & H4 & _).
      exists a, st'. auto.
Qed.
End ServerFacts.
